(** * Newsletter generator: extraction and orchestration logic

    A shallow embedding of [services/geminiService.ts] (the four calls to the
    generative-AI boundary and the defensive extraction of their answers) and
    of the two handlers of [App.tsx] that sequence them, together with the
    properties the specification states about them.

    The embedding keeps what these functions compute and what they change:
    the texts they take apart, the errors they throw and catch, the requests
    they issue and the React state they set.  It leaves out the wording of
    the prompts, the console output and the rendering. *)

From Stdlib Require Import List NArith ZArith Bool Lia String Ascii.
Import ListNotations.
Local Open Scope list_scope.

Set Warnings "-register-all,-abstract-large-number".

(** ** JavaScript strings

    A JavaScript string is a finite sequence of UTF-16 code units.  The code
    trims, searches and slices by code unit, so a string is a list of code
    units, each an [N].  [js] turns an ASCII literal into such a list. *)

Definition jsstring := list N.

Definition js (s : string) : jsstring :=
  map N_of_ascii (list_ascii_of_string s).

Definition jsstring_eqb (a b : jsstring) : bool :=
  if list_eq_dec N.eq_dec a b then true else false.

(** WhiteSpace and LineTerminator code points of ECMAScript: the set that
    [String.prototype.trim] strips and that the class [\s] matches. *)
Definition isWhiteSpace (c : N) : bool :=
  ((9 <=? c) && (c <=? 13)           (* TAB LF VT FF CR *)
   || (c =? 32)                      (* SPACE *)
   || (c =? 160)                     (* NO-BREAK SPACE *)
   || (c =? 5760)                    (* U+1680 *)
   || ((8192 <=? c) && (c <=? 8202)) (* U+2000 .. U+200A *)
   || (c =? 8232) || (c =? 8233)     (* U+2028 U+2029 *)
   || (c =? 8239)                    (* U+202F *)
   || (c =? 8287)                    (* U+205F *)
   || (c =? 12288)                   (* U+3000 *)
   || (c =? 65279))%N.               (* U+FEFF *)

Fixpoint trimStart (s : jsstring) : jsstring :=
  match s with
  | c :: s' => if isWhiteSpace c then trimStart s' else s
  | [] => []
  end.

Definition trimEnd (s : jsstring) : jsstring := rev (trimStart (rev s)).

(** [String.prototype.trim] *)
Definition trim (s : jsstring) : jsstring := trimEnd (trimStart s).

Fixpoint startsWith (s p : jsstring) {struct p} : bool :=
  match p with
  | [] => true
  | a :: p' =>
      match s with
      | b :: s' => (a =? b)%N && startsWith s' p'
      | [] => false
      end
  end.

Definition endsWith (s p : jsstring) : bool := startsWith (rev s) (rev p).

(** [s.indexOf(c)] for a one-character needle: index of the first
    occurrence, [-1] when there is none. *)
Fixpoint indexOf (c : N) (s : jsstring) : Z :=
  match s with
  | [] => -1
  | x :: s' =>
      if (x =? c)%N then 0
      else let i := indexOf c s' in if (i <? 0)%Z then -1 else (i + 1)%Z
  end.

(** [s.lastIndexOf(c)]: index of the last occurrence, [-1] when none. *)
Fixpoint lastIndexOf (c : N) (s : jsstring) : Z :=
  match s with
  | [] => -1
  | x :: s' =>
      let i := lastIndexOf c s' in
      if (0 <=? i)%Z then (i + 1)%Z
      else if (x =? c)%N then 0 else -1
  end.

(** [s.substring(a, b)]: both ends are clamped to [0, s.length] and swapped
    when [a > b]. *)
Definition substring (s : jsstring) (a b : Z) : jsstring :=
  let len := Z.of_nat (List.length s) in
  let a' := Z.min (Z.max a 0) len in
  let b' := Z.min (Z.max b 0) len in
  let lo := Z.min a' b' in
  let hi := Z.max a' b' in
  firstn (Z.to_nat (hi - lo)) (skipn (Z.to_nat lo) s).

(** ** Regular expressions

    The three regular expressions of the service file use literals, one
    optional non-capturing alternative, quantifiers over a one-character
    class (greedy [*] and lazy [*?]) and one capture group.  [regex] is that
    fragment; [rmatch] is the backtracking matcher of ECMAScript in
    continuation-passing style: a continuation receives the rest of the
    input and the text captured by group 1. *)

Inductive charclass :=
| ClassSpace   (* \s *)
| ClassAny.    (* [\s\S] *)

Definition inClass (cl : charclass) (c : N) : bool :=
  match cl with
  | ClassSpace => isWhiteSpace c
  | ClassAny => isWhiteSpace c || negb (isWhiteSpace c)
  end.

Inductive regex :=
| Empty
| Char (c : N)
| Seq (r1 r2 : regex)
| Disj (r1 r2 : regex)                   (* r1|r2, r1 tried first *)
| Star (greedy : bool) (cl : charclass)  (* cl* or cl*? *)
| Group (r : regex).                     (* ( r ), capture group 1 *)

Fixpoint lit (s : jsstring) : regex :=
  match s with
  | [] => Empty
  | c :: s' => Seq (Char c) (lit s')
  end.

(** [(?: r )?] *)
Definition Opt (r : regex) : regex := Disj r Empty.

Section Matcher.
Context {R : Type}.

Definition orElse (a : option R) (b : unit -> option R) : option R :=
  match a with
  | Some x => Some x
  | None => b tt
  end.

(** Greedy: take one more character first, come back to fewer. *)
Fixpoint starGreedy (cl : charclass) (s : jsstring)
         (k : jsstring -> option R) : option R :=
  match s with
  | c :: s' =>
      if inClass cl c
      then orElse (starGreedy cl s' k) (fun _ => k s)
      else k s
  | [] => k s
  end.

(** Lazy: try to go on with what has been taken, else take one more. *)
Fixpoint starLazy (cl : charclass) (s : jsstring)
         (k : jsstring -> option R) : option R :=
  orElse (k s)
         (fun _ => match s with
                   | c :: s' => if inClass cl c then starLazy cl s' k else None
                   | [] => None
                   end).

Fixpoint rmatch (r : regex) (s : jsstring) (cap : option jsstring)
         (k : jsstring -> option jsstring -> option R) : option R :=
  match r with
  | Empty => k s cap
  | Char c =>
      match s with
      | x :: s' => if (x =? c)%N then k s' cap else None
      | [] => None
      end
  | Seq r1 r2 => rmatch r1 s cap (fun s1 cap1 => rmatch r2 s1 cap1 k)
  | Disj r1 r2 => orElse (rmatch r1 s cap k) (fun _ => rmatch r2 s cap k)
  | Star true cl => starGreedy cl s (fun rest => k rest cap)
  | Star false cl => starLazy cl s (fun rest => k rest cap)
  | Group r1 =>
      rmatch r1 s cap
             (fun rest _ => k rest (Some (firstn (List.length s - List.length rest) s)))
  end.
End Matcher.

(** [s.match(r)] for a regular expression without the global flag: the
    leftmost position at which [r] matches.  [None] is [null]; [Some cap] is
    the match array, of which the code reads only element 1, the text of the
    capture group ([None] there is [undefined]). *)
Fixpoint regexMatch (r : regex) (s : jsstring) : option (option jsstring) :=
  match rmatch r s None (fun _ cap => Some cap) with
  | Some m => Some m
  | None =>
      match s with
      | [] => None
      | _ :: s' => regexMatch r s'
      end
  end.

Definition fence : jsstring := js "```".
Definition lbracket : N := 91.
Definition rbracket : N := 93.
Definition lbrace : N := 123.
Definition rbrace : N := 125.

(** [/```(?:json)?\s*(\[[\s\S]*\])\s*```/] *)
Definition newsFenceRegex : regex :=
  Seq (lit fence)
 (Seq (Opt (lit (js "json")))
 (Seq (Star true ClassSpace)
 (Seq (Group (Seq (Char lbracket) (Seq (Star true ClassAny) (Char rbracket))))
 (Seq (Star true ClassSpace)
      (lit fence))))).

(** [/```(?:html)?\s*([\s\S]*?)\s*```/] *)
Definition htmlFenceRegex : regex :=
  Seq (lit fence)
 (Seq (Opt (lit (js "html")))
 (Seq (Star true ClassSpace)
 (Seq (Group (Star false ClassAny))
 (Seq (Star true ClassSpace)
      (lit fence))))).

(** [/```(?:json|html)?\s*([\s\S]*?)\s*```/] *)
Definition refineFenceRegex : regex :=
  Seq (lit fence)
 (Seq (Opt (Disj (lit (js "json")) (lit (js "html"))))
 (Seq (Star true ClassSpace)
 (Seq (Group (Star false ClassAny))
 (Seq (Star true ClassSpace)
      (lit fence))))).

(** [m && m[1]] as a condition: the match exists and group 1 is a non-empty
    string (the empty string is falsy). *)
Definition matchedGroup (m : option (option jsstring)) : option jsstring :=
  match m with
  | Some (Some (c :: g)) => Some (c :: g)
  | _ => None
  end.

(** ** Exceptions

    What the code can tell about a thrown value: whether it is an [Error],
    whether it is a [SyntaxError], and its message. *)

Inductive exn :=
| Error (message : jsstring)        (* new Error(message) *)
| SyntaxError (message : jsstring)  (* what JSON.parse throws *)
| TypeError (message : jsstring)    (* a property read on undefined or null *)
| RangeError (message : jsstring)   (* a limit of the engine exceeded *)
| Thrown.                           (* a thrown value that is no Error *)

Definition instanceofError (e : exn) : bool :=
  match e with
  | Thrown => false
  | _ => true
  end.

Definition instanceofSyntaxError (e : exn) : bool :=
  match e with
  | SyntaxError _ => true
  | _ => false
  end.

Definition message (e : exn) : jsstring :=
  match e with
  | Error m | SyntaxError m | TypeError m | RangeError m => m
  | Thrown => []
  end.

(** ** JSON values

    A number literal is kept exactly, as sign, decimal mantissa and decimal
    exponent; it denotes the double nearest to [mantissa * 10 ^ exponent].
    An object keeps its members in source order; a later duplicate of a key
    overrides an earlier one. *)

Record number := { negative : bool; mantissa : N; exponent : Z }.

Inductive JSON :=
| JNull
| JBool (b : bool)
| JNumber (n : number)
| JString (s : jsstring)
| JArray (elements : list JSON)
| JObject (members : list (jsstring * JSON)).

(** Whether the literal denotes [+0] or [-0]: the mantissa is zero, or the
    value is at most half the least positive double, [2 ^ -1075], and rounds
    to zero. *)
Definition numberIsZero (n : number) : bool :=
  (mantissa n =? 0)%N
  || ((exponent n <? 0)%Z
      && (Z.of_N (mantissa n) * 2 ^ 1075 <=? 10 ^ (- exponent n))%Z).

(** ToBoolean *)
Definition truthy (v : JSON) : bool :=
  match v with
  | JNull => false
  | JBool b => b
  | JNumber n => negb (numberIsZero n)
  | JString s => match s with [] => false | _ => true end
  | JArray _ | JObject _ => true
  end.

Fixpoint lookupLast (key : jsstring) (m : list (jsstring * JSON)) : option JSON :=
  match m with
  | [] => None
  | (k, v) :: m' =>
      match lookupLast key m' with
      | Some v' => Some v'
      | None => if jsstring_eqb k key then Some v else None
      end
  end.

(** [v.name] for a member name that is neither [length], nor an index, nor a
    property of a prototype ([requestType] and [newImagePrompt] are such
    names).  [inr None] is [undefined]. *)
Definition getMember (v : JSON) (name : jsstring) : exn + option JSON :=
  match v with
  | JNull => inl (TypeError (js "Cannot read properties of null"))
  | JObject m => inr (lookupLast name m)
  | _ => inr None
  end.

(** [v.length === 0] *)
Definition lengthIsZero (v : JSON) : exn + bool :=
  match v with
  | JNull => inl (TypeError (js "Cannot read properties of null"))
  | JString s => inr (Nat.eqb (List.length s) 0)
  | JArray l => inr (Nat.eqb (List.length l) 0)
  | JObject m =>
      inr match lookupLast (js "length") m with
          | Some (JNumber n) => numberIsZero n
          | _ => false
          end
  | JBool _ | JNumber _ => inr false
  end.

(** ** JSON.stringify

    [JSON.stringify(value, null, 2)] walks the value recursively and builds
    one string.  On a value that [JSON.parse] has built it returns, unless
    the value is nested deeper or its text is longer than the engine can
    take: then it throws (a [RangeError] in most engines).  Where these
    limits lie is not in the code, so an engine is what says, for each value,
    what is thrown if anything. *)
Record Engine := { stringifyThrows : JSON -> option exn }.

(** The text is only ever interpolated into a prompt, and a prompt is
    recorded by the values interpolated into it: the value stands for its
    text. *)
Definition JSON_stringify (engine : Engine) (value : JSON) : exn + JSON :=
  match stringifyThrows engine value with
  | Some e => inl e
  | None => inr value
  end.

(** How deeply arrays and objects are nested in a value. *)
Fixpoint nesting (v : JSON) : nat :=
  match v with
  | JArray elements =>
      S (fold_right (fun element d => Nat.max (nesting element) d) 0 elements)
  | JObject members =>
      S (fold_right (fun member d => Nat.max (nesting (snd member)) d) 0 members)
  | _ => 0
  end.

(** ** JSON.parse

    A recursive-descent parser for the JSON grammar (ECMA-404), as
    [JSON.parse] applies it to a string: [None] stands for the [SyntaxError]
    it throws.  [fuel] bounds the nesting and the number of elements; the
    entry point gives more than the length of the text. *)

Definition isJsonWhiteSpace (c : N) : bool :=
  ((c =? 32) || (c =? 9) || (c =? 10) || (c =? 13))%N.

Fixpoint skipWhiteSpace (s : jsstring) : jsstring :=
  match s with
  | c :: s' => if isJsonWhiteSpace c then skipWhiteSpace s' else s
  | [] => []
  end.

Definition isDigit (c : N) : bool := ((48 <=? c) && (c <=? 57))%N.

Definition hexValue (c : N) : option N :=
  if ((48 <=? c) && (c <=? 57))%N then Some (c - 48)%N
  else if ((65 <=? c) && (c <=? 70))%N then Some (c - 55)%N
  else if ((97 <=? c) && (c <=? 102))%N then Some (c - 87)%N
  else None.

(** The longest run of digits at the head of [s], folded into [acc]; the
    number of digits read; the rest. *)
Fixpoint readDigits (s : jsstring) (acc : N) (count : nat) : N * nat * jsstring :=
  match s with
  | c :: s' =>
      if isDigit c then readDigits s' (acc * 10 + (c - 48))%N (S count)
      else (acc, count, s)
  | [] => (acc, count, [])
  end.

(** The character that a one-letter escape stands for: the escapes of the
    quote, the backslash and the slash, and the letters b, f, n, r, t. *)
Definition escapeChar (e : N) : option N :=
  if (e =? 34)%N then Some 34%N
  else if (e =? 92)%N then Some 92%N
  else if (e =? 47)%N then Some 47%N
  else if (e =? 98)%N then Some 8%N
  else if (e =? 102)%N then Some 12%N
  else if (e =? 110)%N then Some 10%N
  else if (e =? 114)%N then Some 13%N
  else if (e =? 116)%N then Some 9%N
  else None.

(** After the opening quote: the characters up to the closing quote.  A
    backslash starts an escape, the escape [u] takes four hexadecimal
    digits, and a control character is not allowed. *)
Fixpoint parseStringTail (s : jsstring) (acc : jsstring) : option (jsstring * jsstring) :=
  match s with
  | [] => None
  | c :: rest =>
      if (c =? 34)%N then Some (rev acc, rest)
      else if (c =? 92)%N then
        match rest with
        | [] => None
        | e :: rest1 =>
            if (e =? 117)%N then
              match rest1 with
              | h1 :: h2 :: h3 :: h4 :: rest2 =>
                  match hexValue h1, hexValue h2, hexValue h3, hexValue h4 with
                  | Some a, Some b, Some c', Some d =>
                      parseStringTail rest2 (((a * 16 + b) * 16 + c') * 16 + d :: acc)%N
                  | _, _, _, _ => None
                  end
              | _ => None
              end
            else
              match escapeChar e with
              | Some x => parseStringTail rest1 (x :: acc)
              | None => None
              end
        end
      else if (c <? 32)%N then None
      else parseStringTail rest (c :: acc)
  end.

(** The digits of an integer part: [0] alone, or a non-zero digit and more
    digits. *)
Definition parseInt (s : jsstring) : option (N * jsstring) :=
  match s with
  | c :: r =>
      if (c =? 48)%N then Some (0%N, r)
      else if isDigit c then let '(m, _, r') := readDigits s 0%N 0 in Some (m, r')
      else None
  | [] => None
  end.

(** An optional fraction, a point and one digit or more, folded into the
    mantissa [m]: the new mantissa and the number of digits read. *)
Definition parseFraction (m : N) (s : jsstring) : option (N * Z * jsstring) :=
  match s with
  | c :: r =>
      if (c =? 46)%N then
        let '(m', count, r') := readDigits r m 0 in
        match count with
        | O => None
        | _ => Some (m', Z.of_nat count, r')
        end
      else Some (m, 0%Z, s)
  | [] => Some (m, 0%Z, s)
  end.

(** An optional exponent: [e] or [E], an optional sign and one digit or
    more. *)
Definition parseExponent (s : jsstring) : option (Z * jsstring) :=
  let digits (sign : Z) (r : jsstring) :=
    let '(e, count, r') := readDigits r 0%N 0 in
    match count with
    | O => None
    | _ => Some ((sign * Z.of_N e)%Z, r')
    end in
  match s with
  | c :: r =>
      if (c =? 101)%N || (c =? 69)%N then
        match r with
        | d :: r' =>
            if (d =? 43)%N then digits 1%Z r'
            else if (d =? 45)%N then digits (-1)%Z r'
            else digits 1%Z r
        | [] => None
        end
      else Some (0%Z, s)
  | [] => Some (0%Z, s)
  end.

(** An optional minus sign, an integer part, an optional fraction and an
    optional exponent. *)
Definition parseNumber (s : jsstring) : option (number * jsstring) :=
  let (neg, s1) := match s with
                   | c :: r => if (c =? 45)%N then (true, r) else (false, s)
                   | [] => (false, s)
                   end in
  match parseInt s1 with
  | None => None
  | Some (m, s2) =>
      match parseFraction m s2 with
      | None => None
      | Some (m', scale, s3) =>
          match parseExponent s3 with
          | None => None
          | Some (e, s4) =>
              Some ({| negative := neg; mantissa := m'; exponent := e - scale |}, s4)
          end
      end
  end.

Definition expectLiteral (word : jsstring) (v : JSON) (s : jsstring)
  : option (JSON * jsstring) :=
  if startsWith s word then Some (v, skipn (List.length word) s) else None.

Fixpoint parseValue (fuel : nat) (s : jsstring) {struct fuel}
  : option (JSON * jsstring) :=
  match fuel with
  | O => None
  | S fuel' =>
      match skipWhiteSpace s with
      | [] => None
      | c :: r =>
          if (c =? 123)%N then
            match skipWhiteSpace r with
            | [] => None
            | d :: r' =>
                if (d =? 125)%N then Some (JObject [], r')
                else match parseMembers fuel' (d :: r') with
                     | Some (m, r'') => Some (JObject m, r'')
                     | None => None
                     end
            end
          else if (c =? 91)%N then
            match skipWhiteSpace r with
            | [] => None
            | d :: r' =>
                if (d =? 93)%N then Some (JArray [], r')
                else match parseElements fuel' (d :: r') with
                     | Some (l, r'') => Some (JArray l, r'')
                     | None => None
                     end
            end
          else if (c =? 34)%N then
            match parseStringTail r [] with
            | Some (str, r') => Some (JString str, r')
            | None => None
            end
          else if (c =? 116)%N then expectLiteral (js "true") (JBool true) (c :: r)
          else if (c =? 102)%N then expectLiteral (js "false") (JBool false) (c :: r)
          else if (c =? 110)%N then expectLiteral (js "null") JNull (c :: r)
          else
            match parseNumber (c :: r) with
            | Some (n, r') => Some (JNumber n, r')
            | None => None
            end
      end
  end

(* One or more values separated by commas, then the closing bracket. *)
with parseElements (fuel : nat) (s : jsstring) {struct fuel}
  : option (list JSON * jsstring) :=
  match fuel with
  | O => None
  | S fuel' =>
      match parseValue fuel' s with
      | None => None
      | Some (v, r) =>
          match skipWhiteSpace r with
          | [] => None
          | c :: r' =>
              if (c =? 93)%N then Some ([v], r')
              else if (c =? 44)%N then
                match parseElements fuel' r' with
                | Some (l, r'') => Some (v :: l, r'')
                | None => None
                end
              else None
          end
      end
  end

(* One or more [string : value] members separated by commas, then the
   closing brace. *)
with parseMembers (fuel : nat) (s : jsstring) {struct fuel}
  : option (list (jsstring * JSON) * jsstring) :=
  match fuel with
  | O => None
  | S fuel' =>
      match skipWhiteSpace s with
      | [] => None
      | q :: r =>
          if (q =? 34)%N then
            match parseStringTail r [] with
            | None => None
            | Some (key, r1) =>
                match skipWhiteSpace r1 with
                | [] => None
                | colon :: r2 =>
                    if (colon =? 58)%N then
                      match parseValue fuel' r2 with
                      | None => None
                      | Some (v, r3) =>
                          match skipWhiteSpace r3 with
                          | [] => None
                          | c :: r4 =>
                              if (c =? 125)%N then Some ([(key, v)], r4)
                              else if (c =? 44)%N then
                                match parseMembers fuel' r4 with
                                | Some (m, r5) => Some ((key, v) :: m, r5)
                                | None => None
                                end
                              else None
                          end
                      end
                    else None
                end
            end
          else None
      end
  end.

(** [JSON.parse(text)]: one value, then nothing but white space. *)
Definition JSON_parse (text : jsstring) : option JSON :=
  match parseValue (S (List.length text)) text with
  | Some (v, rest) =>
      match skipWhiteSpace rest with
      | [] => Some v
      | _ :: _ => None
      end
  | None => None
  end.

(** ** The state of the application (App.tsx) *)

Inductive NewsFormat := paragraph | bullets.

Inductive LoadingAction := generate | refine.

(** The form fields, read but never written by the two handlers.  The two
    numeric fields are only ever interpolated into a prompt. *)
Record FormState := {
  topics : list jsstring;
  industry : jsstring;
  companyName : jsstring;
  visualKeywords : jsstring;
  minArticles : Z;
  wordLength : Z;
  tone : jsstring;
  newsFormat : NewsFormat;
  customImagePrompt : jsstring;
  additionalInstructions : jsstring;
  shouldGenerateImage : bool
}.

Record State := {
  form : FormState;
  newsletterHtml : option jsstring;
  headerImageUrl : option jsstring;
  articles : JSON;
  refinementPrompt : jsstring;
  loadingAction : option LoadingAction;
  loadingMessage : jsstring;
  error : option jsstring
}.

Definition isLoading (s : State) : bool :=
  match loadingAction s with
  | Some _ => true
  | None => false
  end.

Definition setNewsletterHtml (v : option jsstring) (s : State) : State :=
  {| form := form s; newsletterHtml := v; headerImageUrl := headerImageUrl s;
     articles := articles s; refinementPrompt := refinementPrompt s;
     loadingAction := loadingAction s; loadingMessage := loadingMessage s;
     error := error s |}.

Definition setHeaderImageUrl (v : option jsstring) (s : State) : State :=
  {| form := form s; newsletterHtml := newsletterHtml s; headerImageUrl := v;
     articles := articles s; refinementPrompt := refinementPrompt s;
     loadingAction := loadingAction s; loadingMessage := loadingMessage s;
     error := error s |}.

Definition setArticles (v : JSON) (s : State) : State :=
  {| form := form s; newsletterHtml := newsletterHtml s;
     headerImageUrl := headerImageUrl s;
     articles := v; refinementPrompt := refinementPrompt s;
     loadingAction := loadingAction s; loadingMessage := loadingMessage s;
     error := error s |}.

Definition setRefinementPrompt (v : jsstring) (s : State) : State :=
  {| form := form s; newsletterHtml := newsletterHtml s;
     headerImageUrl := headerImageUrl s;
     articles := articles s; refinementPrompt := v;
     loadingAction := loadingAction s; loadingMessage := loadingMessage s;
     error := error s |}.

Definition setLoadingAction (v : option LoadingAction) (s : State) : State :=
  {| form := form s; newsletterHtml := newsletterHtml s;
     headerImageUrl := headerImageUrl s;
     articles := articles s; refinementPrompt := refinementPrompt s;
     loadingAction := v; loadingMessage := loadingMessage s;
     error := error s |}.

Definition setLoadingMessage (v : jsstring) (s : State) : State :=
  {| form := form s; newsletterHtml := newsletterHtml s;
     headerImageUrl := headerImageUrl s;
     articles := articles s; refinementPrompt := refinementPrompt s;
     loadingAction := loadingAction s; loadingMessage := v;
     error := error s |}.

Definition setError (v : option jsstring) (s : State) : State :=
  {| form := form s; newsletterHtml := newsletterHtml s;
     headerImageUrl := headerImageUrl s;
     articles := articles s; refinementPrompt := refinementPrompt s;
     loadingAction := loadingAction s; loadingMessage := loadingMessage s;
     error := v |}.

(** ** The generative-AI boundary

    The prompts are template literals over the arguments below.  No
    property of this file depends on their wording, so a request records
    which template it is and the values interpolated into it. *)

Record GenerationOptions := {
  opt_topics : list jsstring;
  opt_industry : jsstring;
  opt_companyName : jsstring;
  opt_tone : jsstring;
  opt_newsFormat : NewsFormat;
  opt_wordLength : Z;
  opt_additionalInstructions : jsstring
}.

Inductive Prompt :=
| NewsPrompt (topics : list jsstring) (minArticles : Z)
| NewsletterPrompt (articlesJson : JSON) (options : GenerationOptions)
| RefinementPrompt (currentHtml : jsstring) (articlesJson : JSON)
                   (refinementPrompt : jsstring).

Inductive ImagePrompt :=
| CustomImagePrompt (text : jsstring)
| DefaultImagePrompt (companyName : jsstring) (topics : list jsstring)
                     (visualKeywords industry : jsstring)
| DirectiveImagePrompt (newImagePrompt : JSON).

(** A call of [ai.models.generateContent] (with or without the
    [googleSearch] tool) or of [ai.models.generateImages]. *)
Inductive Request :=
| GenerateContent (contents : Prompt) (googleSearch : bool)
| GenerateImages (prompt : ImagePrompt).

Record Image := { imageBytes : option jsstring }.
Record GeneratedImage := { image : option Image }.

(** The service: what it answers to a request, given the requests made
    before.  A call either throws or resolves: [generateContent] to a
    response whose [text] may be [undefined], [generateImages] to a response
    whose [generatedImages] may be [undefined]. *)
Record AI := {
  generateContent : list Request -> Prompt -> bool -> exn + option jsstring;
  generateImages : list Request -> ImagePrompt -> exn + option (list GeneratedImage)
}.

(** ** A monad for the asynchronous code

    A computation runs on a world [W], may change it, and either throws or
    returns.  The service functions run on the list of the requests made so
    far; the handlers run on that list and the application state. *)

Definition M (W A : Type) : Type := W -> (exn + A) * W.

Definition ret {W A} (a : A) : M W A := fun w => (inr a, w).

Definition throw {W A} (e : exn) : M W A := fun w => (inl e, w).

Definition bind {W A B} (m : M W A) (f : A -> M W B) : M W B :=
  fun w => match m w with
           | (inr a, w') => f a w'
           | (inl e, w') => (inl e, w')
           end.

Definition tryCatch {W A} (body : M W A) (handler : exn -> M W A) : M W A :=
  fun w => match body w with
           | (inr a, w') => (inr a, w')
           | (inl e, w') => handler e w'
           end.

Definition tryFinally {W A} (body : M W A) (final : M W unit) : M W A :=
  fun w => match body w with
           | (r, w') => match final w' with
                        | (inr _, w'') => (r, w'')
                        | (inl e, w'') => (inl e, w'')
                        end
           end.

(** A pure step that may throw. *)
Definition liftExn {W A} (r : exn + A) : M W A := fun w => (r, w).

Declare Scope js_scope.
Delimit Scope js_scope with js.
Notation "x <- m ;; k" := (bind m (fun x => k))
  (at level 61, m at next level, right associativity) : js_scope.
Notation "m ;; k" := (bind m (fun _ => k))
  (at level 61, right associativity) : js_scope.
Local Open Scope js_scope.

Definition Service (A : Type) : Type := M (list Request) A.

Definition callGenerateContent (ai : AI) (contents : Prompt) (googleSearch : bool)
  : Service (option jsstring) :=
  fun trace => (generateContent ai trace contents googleSearch,
                trace ++ [GenerateContent contents googleSearch]).

Definition callGenerateImages (ai : AI) (prompt : ImagePrompt)
  : Service (option (list GeneratedImage)) :=
  fun trace => (generateImages ai trace prompt, trace ++ [GenerateImages prompt]).

(** [response.text.trim()] *)
Definition textTrim (text : option jsstring) : exn + jsstring :=
  match text with
  | Some t => inr (trim t)
  | None => inl (TypeError (js "Cannot read properties of undefined"))
  end.

(** ** services/geminiService.ts *)

Definition msgNoArray : jsstring :=
  js "The AI returned data in an unexpected format. Could not find a JSON array.".
Definition msgNoArticles : jsstring :=
  js "The AI returned no articles. The response might be empty or in an unexpected format.".
Definition msgParseFailed : jsstring :=
  js "Failed to parse the news data from the AI. The format was invalid.".
Definition msgFetchFailed : jsstring :=
  js "Failed to fetch news from the AI. Check API key or try again later.".

(** The extraction step of [fetchTrendingNews], from [let jsonText = rawText]
    to the end of the [else] branch: the text handed to [JSON.parse], or the
    error thrown when no array is found. *)
Definition extractJsonText (rawText : jsstring) : exn + jsstring :=
  match matchedGroup (regexMatch newsFenceRegex rawText) with
  | Some group1 => inr group1
  | None =>
      let jsonStartIndex := indexOf lbracket rawText in
      let jsonEndIndex := lastIndexOf rbracket rawText in
      if (jsonStartIndex =? -1)%Z || (jsonEndIndex =? -1)%Z
         || (jsonEndIndex <? jsonStartIndex)%Z
      then inl (Error msgNoArray)
      else inr (substring rawText jsonStartIndex (jsonEndIndex + 1))
  end.

(** [JSON.parse] as a step that throws. *)
Definition parseJson (text : jsstring) : exn + JSON :=
  match JSON_parse text with
  | Some v => inr v
  | None => inl (SyntaxError (js "Unexpected token in JSON"))
  end.

(** [!articles || articles.length === 0] *)
Definition noArticles (articles : JSON) : exn + bool :=
  if negb (truthy articles) then inr true else lengthIsZero articles.

Definition fetchTrendingNews (ai : AI) (topics : list jsstring) (minArticles : Z)
  : Service JSON :=
  tryCatch
    (response <- callGenerateContent ai (NewsPrompt topics minArticles) true ;;
     rawText <- liftExn (textTrim response) ;;
     jsonText <- liftExn (extractJsonText rawText) ;;
     articles <- liftExn (parseJson jsonText) ;;
     empty <- liftExn (noArticles articles) ;;
     if (empty : bool) then throw (Error msgNoArticles)
     else ret articles)
    (fun error =>
       if instanceofSyntaxError error then throw (Error msgParseFailed)
       else throw (Error msgFetchFailed)).

Definition msgEmptyNewsletter : jsstring :=
  js "The AI returned an empty response for the newsletter.".
Definition msgNewsletterFailed : jsstring :=
  js "Failed to generate the newsletter from the AI. Please try again.".

Definition isEmpty (s : jsstring) : bool :=
  match s with
  | [] => true
  | _ :: _ => false
  end.

(** The prompt is built before the [try]: what [JSON.stringify] throws leaves
    the function as it is, and no request has been issued then. *)
Definition generateNewsletter (engine : Engine) (ai : AI) (articles : JSON)
           (options : GenerationOptions) : Service jsstring :=
  articlesJson <- liftExn (JSON_stringify engine articles) ;;
  tryCatch
    (response <- callGenerateContent ai (NewsletterPrompt articlesJson options) false ;;
     newsletterHtml <- liftExn (textTrim response) ;;
     if isEmpty newsletterHtml then throw (Error msgEmptyNewsletter)
     else
       match matchedGroup (regexMatch htmlFenceRegex newsletterHtml) with
       | Some group1 => ret (trim group1)
       | None => ret newsletterHtml
       end)
    (fun _ => throw (Error msgNewsletterFailed)).

Definition msgNoImages : jsstring := js "The AI returned no images.".
Definition msgImageFailed : jsstring :=
  js "Failed to generate the header image from the AI. Please try again.".

(** Resolves to [generatedImages[0].image.imageBytes], which is [undefined]
    ([None]) when the image carries no bytes. *)
Definition generateHeaderImage (ai : AI) (prompt : ImagePrompt)
  : Service (option jsstring) :=
  tryCatch
    (response <- callGenerateImages ai prompt ;;
     match response with
     | None | Some [] => throw (Error msgNoImages)
     | Some (first :: _) =>
         match image first with
         | Some img => ret (imageBytes img)
         | None => throw (TypeError (js "Cannot read properties of undefined"))
         end
     end)
    (fun _ => throw (Error msgImageFailed)).

Definition msgEmptyRefinement : jsstring :=
  js "The AI returned an empty response for the refinement request.".
Definition msgRefinementFailed : jsstring :=
  js "Failed to refine the newsletter from the AI. Please try again.".

(** Here too the prompt, with [JSON.stringify(articles, null, 2)] in it, is
    built before the [try]. *)
Definition refineNewsletter (engine : Engine) (ai : AI) (currentHtml : jsstring)
           (articles : JSON) (refinementPrompt : jsstring) : Service jsstring :=
  articlesJson <- liftExn (JSON_stringify engine articles) ;;
  tryCatch
    (response <- callGenerateContent ai
                   (RefinementPrompt currentHtml articlesJson refinementPrompt) false ;;
     resultText <- liftExn (textTrim response) ;;
     if isEmpty resultText then throw (Error msgEmptyRefinement)
     else
       match matchedGroup (regexMatch refineFenceRegex resultText) with
       | Some group1 => ret (trim group1)
       | None => ret resultText
       end)
    (fun _ => throw (Error msgRefinementFailed)).

(** ** The handlers of App.tsx *)

Definition World : Type := State * list Request.

Definition Handler (A : Type) : Type := M World A.

Definition getState : Handler State := fun w => (inr (fst w), w).

(** A state setter of React. *)
Definition set (f : State -> State) : Handler unit :=
  fun w => (inr tt, (f (fst w), snd w)).

(** [await] of a service function: it sees and extends the list of
    requests and leaves the application state alone. *)
Definition await {A} (m : Service A) : Handler A :=
  fun w => let (r, trace') := m (snd w) in (r, (fst w, trace')).

Definition msgNoTopic : jsstring := js "Please add at least one topic.".
Definition msgNoNews : jsstring :=
  js "Could not find any relevant news articles. Try different topics.".
Definition msgUnknown : jsstring := js "An unknown error occurred.".
Definition msgUnexpectedJson : jsstring := js "AI returned an unexpected JSON format.".
Definition msgNotExpectedFormat : jsstring :=
  js "AI response was not in the expected format. Please rephrase.".

(** [err instanceof Error ? err.message : 'An unknown error occurred.'] *)
Definition errorMessage (err : exn) : jsstring :=
  if instanceofError err then message err else msgUnknown.

(** [`data:image/png;base64,${imageBase64}`] *)
Definition dataUri (imageBase64 : option jsstring) : jsstring :=
  js "data:image/png;base64,"
  ++ match imageBase64 with
     | Some bytes => bytes
     | None => js "undefined"
     end.

Definition newsletterOptions (f : FormState) : GenerationOptions :=
  {| opt_topics := topics f; opt_industry := industry f;
     opt_companyName := companyName f; opt_tone := tone f;
     opt_newsFormat := newsFormat f; opt_wordLength := wordLength f;
     opt_additionalInstructions := additionalInstructions f |}.

(** [customImagePrompt.trim() || `A professional ... Avoid text.`] *)
Definition imagePromptOf (f : FormState) : ImagePrompt :=
  match trim (customImagePrompt f) with
  | [] => DefaultImagePrompt (companyName f) (topics f) (visualKeywords f) (industry f)
  | custom => CustomImagePrompt custom
  end.

(** The callback reads the form fields and the state of the render in which
    it was created: [s] below. *)
Definition handleGenerateNewsletter (engine : Engine) (ai : AI) : Handler unit :=
  s <- getState ;;
  let f := form s in
  if Nat.eqb (List.length (topics f)) 0 then
    set (setError (Some msgNoTopic))
  else
    set (setLoadingAction (Some generate)) ;;
    set (setError None) ;;
    set (setNewsletterHtml None) ;;
    set (setHeaderImageUrl None) ;;
    set (setArticles (JArray [])) ;;
    tryFinally
      (tryCatch
         (set (setLoadingMessage (js "Researching trending news...")) ;;
          articlesData <- await (fetchTrendingNews ai (topics f) (minArticles f)) ;;
          set (setArticles articlesData) ;;
          none <- liftExn (lengthIsZero articlesData) ;;
          if (none : bool) then throw (Error msgNoNews)
          else
            set (setLoadingMessage (js "Crafting your newsletter...")) ;;
            htmlContent <- await (generateNewsletter engine ai articlesData
                                                     (newsletterOptions f)) ;;
            set (setNewsletterHtml (Some htmlContent)) ;;
            if shouldGenerateImage f then
              set (setLoadingMessage (js "Generating header image...")) ;;
              imageBase64 <- await (generateHeaderImage ai (imagePromptOf f)) ;;
              set (setHeaderImageUrl (Some (dataUri imageBase64)))
            else ret tt)
         (fun err => set (setError (Some (errorMessage err)))))
      (set (setLoadingAction None) ;;
       set (setLoadingMessage [])).

(** [result.trim().startsWith('{') && result.trim().endsWith('}')] *)
Definition isJsonLike (result : jsstring) : bool :=
  startsWith (trim result) [lbrace] && endsWith (trim result) [rbrace].

(** [jsonResponse.requestType === 'image' && jsonResponse.newImagePrompt]:
    the prompt when the condition holds. *)
Definition imageDirective (jsonResponse : JSON) : exn + option JSON :=
  match getMember jsonResponse (js "requestType") with
  | inl e => inl e
  | inr (Some (JString t)) =>
      if jsstring_eqb t (js "image") then
        match getMember jsonResponse (js "newImagePrompt") with
        | inl e => inl e
        | inr (Some p) => inr (if truthy p then Some p else None)
        | inr None => inr None
        end
      else inr None
  | inr _ => inr None
  end.

Definition handleRefineNewsletter (engine : Engine) (ai : AI) : Handler unit :=
  s <- getState ;;
  match trim (refinementPrompt s), newsletterHtml s with
  | [], _ | _, None | _, Some [] => ret tt
  | _ :: _, Some (c :: html) =>
      set (setLoadingAction (Some refine)) ;;
      set (setError None) ;;
      tryFinally
        (tryCatch
           (set (setLoadingMessage (js "Refining your newsletter...")) ;;
            result <- await (refineNewsletter engine ai (c :: html) (articles s)
                                              (refinementPrompt s)) ;;
            if isJsonLike result then
              tryCatch
                (jsonResponse <- liftExn (parseJson result) ;;
                 directive <- liftExn (imageDirective jsonResponse) ;;
                 match directive with
                 | Some newImagePrompt =>
                     set (setLoadingMessage (js "Generating new header image...")) ;;
                     imageBase64 <- await (generateHeaderImage ai
                                             (DirectiveImagePrompt newImagePrompt)) ;;
                     set (setHeaderImageUrl (Some (dataUri imageBase64)))
                 | None => throw (Error msgUnexpectedJson)
                 end)
                (fun _ => throw (Error msgNotExpectedFormat))
            else set (setNewsletterHtml (Some result)))
           (fun err => set (setError (Some (errorMessage err)))))
        (set (setLoadingAction None) ;;
         set (setLoadingMessage []) ;;
         set (setRefinementPrompt []))
  end.

(** ** The two buttons of App.tsx

    [<button onClick={handleGenerateNewsletter}
             disabled={isLoading || topics.length === 0}>] and
    [<button onClick={handleRefineNewsletter}
             disabled={isLoading || !refinementPrompt.trim()}>], the second
    rendered only under [{newsletterHtml && ...}].  A disabled button fires
    no click event. *)

Definition generateDisabled (s : State) : bool :=
  isLoading s || Nat.eqb (List.length (topics (form s))) 0.

Definition refineRendered (s : State) : bool :=
  match newsletterHtml s with
  | Some (_ :: _) => true
  | _ => false
  end.

Definition refineDisabled (s : State) : bool :=
  isLoading s || isEmpty (trim (refinementPrompt s)).

Definition clickGenerate (engine : Engine) (ai : AI) : Handler unit :=
  s <- getState ;;
  if generateDisabled s then ret tt else handleGenerateNewsletter engine ai.

Definition clickRefine (engine : Engine) (ai : AI) : Handler unit :=
  s <- getState ;;
  if negb (refineRendered s) || refineDisabled s then ret tt
  else handleRefineNewsletter engine ai.

(** The world after an event handler has run to its end. *)
Definition run (h : Handler unit) (s : State) (trace : list Request) : World :=
  snd (h (s, trace)).

(** ** components/TopicInput.tsx

    The component holds the text of its input box and receives the topic
    list of the application with its setter.  A handler below takes both and
    returns both. *)

(** [topics.includes(topic)] *)
Definition includes (topics : list jsstring) (topic : jsstring) : bool :=
  existsb (jsstring_eqb topic) topics.

Definition handleAddTopic (topics : list jsstring) (inputValue : jsstring)
  : list jsstring * jsstring :=
  if negb (isEmpty (trim inputValue)) && negb (includes topics (trim inputValue))
  then (topics ++ [trim inputValue], [])
  else (topics, inputValue).

Definition handleRemoveTopic (topics : list jsstring) (topicToRemove : jsstring)
  : list jsstring :=
  filter (fun topic => negb (jsstring_eqb topic topicToRemove)) topics.

(** [if (e.key === 'Enter') handleAddTopic()] *)
Definition handleKeyDown (key : jsstring) (topics : list jsstring)
           (inputValue : jsstring) : list jsstring * jsstring :=
  if jsstring_eqb key (js "Enter") then handleAddTopic topics inputValue
  else (topics, inputValue).

(** A string that [trim] leaves as it is. *)
Definition trimmed (s : jsstring) : Prop := trim s = s.

(** A topic list as the component builds it: no blank topic, no white space
    around a topic, no topic twice. *)
Definition wellFormedTopics (topics : list jsstring) : Prop :=
  Forall (fun t => t <> [] /\ trimmed t) topics /\ NoDup topics.

(** ** Sample inputs *)

Definition sampleForm : FormState :=
  {| topics := [js "Quantum Computing"]; industry := js "Technology";
     companyName := js "Innovate Inc."; visualKeywords := js "abstract, blue";
     minArticles := 1; wordLength := 100; tone := js "Professional";
     newsFormat := paragraph; customImagePrompt := [];
     additionalInstructions := []; shouldGenerateImage := true |}.

Definition sampleFormNoTopic : FormState :=
  {| topics := []; industry := js "Technology";
     companyName := js "Innovate Inc."; visualKeywords := js "abstract, blue";
     minArticles := 1; wordLength := 100; tone := js "Professional";
     newsFormat := paragraph; customImagePrompt := [];
     additionalInstructions := []; shouldGenerateImage := true |}.

(** The state of the first render. *)
Definition initialState (f : FormState) : State :=
  {| form := f; newsletterHtml := None; headerImageUrl := None;
     articles := JArray []; refinementPrompt := []; loadingAction := None;
     loadingMessage := []; error := None |}.

(** A newsletter on screen and a directive typed in. *)
Definition sampleDocument : State :=
  {| form := sampleForm;
     newsletterHtml := Some (js "<h1>Title</h1><p>Body</p>");
     headerImageUrl := Some (js "data:image/png;base64,AAAA");
     articles := JArray [JObject [(js "title", JString (js "T"))]];
     refinementPrompt := js "make the intro more exciting";
     loadingAction := None; loadingMessage := []; error := None |}.

(** A newsletter on screen after the last topic has been removed. *)
Definition sampleDocumentNoTopic : State :=
  {| form := sampleFormNoTopic;
     newsletterHtml := Some (js "<h1>Title</h1><p>Body</p>");
     headerImageUrl := Some (js "data:image/png;base64,AAAA");
     articles := JArray [JObject [(js "title", JString (js "T"))]];
     refinementPrompt := js "make the intro more exciting";
     loadingAction := None; loadingMessage := []; error := None |}.

(** The same while a refinement is in flight. *)
Definition sampleRefining : State :=
  setLoadingMessage (js "Refining your newsletter...")
    (setLoadingAction (Some refine) sampleDocument).

(** An engine without limits. *)
Definition roomyEngine : Engine := {| stringifyThrows := fun _ => None |}.

(** An engine whose [JSON.stringify] gives up beyond [limit] levels of
    nesting, as an engine does when its call stack is exhausted. *)
Definition engineWithStack (limit : nat) : Engine :=
  {| stringifyThrows := fun value =>
       if Nat.ltb limit (nesting value)
       then Some (RangeError (js "Maximum call stack size exceeded"))
       else None |}.

(** [n] opening brackets and [n] closing ones: for [n] at least one, the
    JSON text of arrays nested [n] deep. *)
Definition nestedText (n : nat) : jsstring := repeat lbracket n ++ repeat rbracket n.

(** The empty array inside [n] arrays of one element. *)
Fixpoint nestedArray (n : nat) : JSON :=
  match n with
  | O => JArray []
  | S n' => JArray [nestedArray n']
  end.

(** A service whose every call throws. *)
Definition offlineAI : AI :=
  {| generateContent := fun _ _ _ => inl (Error (js "fetch failed"));
     generateImages := fun _ _ => inl (Error (js "fetch failed")) |}.

(** A service that answers every text request with [text] and every image
    request with one image of bytes [bytes]. *)
Definition cannedAI (text bytes : jsstring) : AI :=
  {| generateContent := fun _ _ _ => inr (Some text);
     generateImages := fun _ _ =>
       inr (Some [ {| image := Some {| imageBytes := Some bytes |} |} ]) |}.

(** A service that answers the [n]-th text request with the [n]-th element
    of [texts] (throwing when there is none) and throws on image requests. *)
Definition scriptedAI (texts : list jsstring) : AI :=
  {| generateContent := fun trace _ _ =>
       match nth_error texts (List.length trace) with
       | Some t => inr (Some t)
       | None => inl (Error (js "fetch failed"))
       end;
     generateImages := fun _ _ => inl (Error (js "quota exceeded")) |}.

(** ** Shapes of a response text, for the statements below *)

Definition backtick : N := 96.
Definition dq : jsstring := [34%N].
Definition nl : jsstring := [10%N].

Definition allInClass (cl : charclass) (w : jsstring) : Prop :=
  Forall (fun c => inClass cl c = true) w.

Definition whiteSpace (w : jsstring) : Prop :=
  Forall (fun c => isWhiteSpace c = true) w.

(** No run of three backticks begins in [pre], not even one that the fence
    after [pre] completes. *)
Definition noFenceBefore (pre : jsstring) : Prop :=
  forall a b, pre = a ++ b -> b <> [] -> startsWith (b ++ fence) fence = false.

(** The same, as a test. *)
Fixpoint noFenceBeforeb (pre : jsstring) : bool :=
  match pre with
  | [] => true
  | _ :: pre' => negb (startsWith (pre ++ fence) fence) && noFenceBeforeb pre'
  end.

(** The text [s] begins as the news pattern does: a fence, an optional
    [json], optional white space and a ['[']. *)
Definition opensArray (s : jsstring) : Prop :=
  exists tag ws t,
    (tag = [] \/ tag = js "json") /\ whiteSpace ws
    /\ s = fence ++ tag ++ ws ++ lbracket :: t.

(** The same, as a test. *)
Definition opensArrayb (s : jsstring) : bool :=
  startsWith s fence
  && (let rest := skipn 3 s in
      startsWith (trimStart rest) [lbracket]
      || (startsWith rest (js "json")
          && startsWith (trimStart (skipn 4 rest)) [lbracket])).

(** At no position of [pre] does the text, [pre] followed by [rest], begin
    as the news pattern does. *)
Definition noOpeningBefore (pre rest : jsstring) : Prop :=
  forall a b, pre = a ++ b -> b <> [] -> ~ opensArray (b ++ rest).

(** The same, as a test. *)
Fixpoint noOpeningBeforeb (pre rest : jsstring) : bool :=
  match pre with
  | [] => true
  | _ :: pre' => negb (opensArrayb (pre ++ rest)) && noOpeningBeforeb pre' rest
  end.

(** Nowhere in [post] is a [']'] followed by optional white space and three
    backticks. *)
Definition noLaterClosing (post : jsstring) : Prop :=
  forall x w y, whiteSpace w -> post <> x ++ [rbracket] ++ w ++ fence ++ y.

(** A JSON string literal with the given ASCII content. *)
Definition quoted (s : string) : jsstring := dq ++ js s ++ dq.

(** One article with all five fields, as a JSON array. *)
Definition sampleArticleArray : jsstring :=
  js "[{" ++ quoted "title" ++ js ":" ++ quoted "T" ++ js ","
  ++ quoted "summary" ++ js ":" ++ quoted "S" ++ js ","
  ++ quoted "source" ++ js ":" ++ quoted "Src" ++ js ","
  ++ quoted "link" ++ js ":" ++ quoted "http://x" ++ js ","
  ++ quoted "date" ++ js ":" ++ quoted "2024-01-01" ++ js "}]".

(** What follows the optional tag in the fence patterns of
    [generateNewsletter] and [refineNewsletter]: white space, the lazy
    group, white space and the closing fence. *)
Definition bodyTail : regex :=
  Seq (Star true ClassSpace)
 (Seq (Group (Star false ClassAny))
 (Seq (Star true ClassSpace)
      (lit fence))).

(** A text that can stand between two fences and be recovered whole: not
    empty, no white space at either end, no backtick. *)
Definition fencedBody (body : jsstring) : Prop :=
  body <> [] /\ trimmed body /\ ~ In backtick body.

(** The lazy group followed by the closing part, on the text [t]. *)
Definition groupAndClosing (t : jsstring) : option (option jsstring) :=
  starLazy ClassAny t
    (fun rest => starGreedy ClassSpace rest
       (fun rest1 => rmatch (lit fence) rest1
          (Some (firstn (List.length t - List.length rest) t))
          (fun _ cap => Some cap))).

Definition groupStartsWell (m : option jsstring) : Prop :=
  m = Some [] \/ exists c r, m = Some (c :: r) /\ isWhiteSpace c = false.

(** The image directive: an object with [requestType] set to [image] and
    [newImagePrompt] set to [mountains at dawn]. *)
Definition sampleDirective : jsstring :=
  js "{" ++ dq ++ js "requestType" ++ dq ++ js ":" ++ dq ++ js "image" ++ dq
  ++ js "," ++ dq ++ js "newImagePrompt" ++ dq ++ js ":"
  ++ dq ++ js "mountains at dawn" ++ dq ++ js "}".

(** A draft inside a fence tagged [html], with a sentence before and one
    after. *)
Definition sampleFencedDraft : jsstring :=
  js "Here is your newsletter:" ++ nl
  ++ fence ++ js "html" ++ nl ++ js "<h1>Title</h1><p>Body</p>" ++ nl ++ fence
  ++ nl ++ js "Enjoy!".

(** The image directive inside a fence tagged [json]. *)
Definition sampleFencedDirective : jsstring :=
  fence ++ js "json" ++ nl ++ sampleDirective ++ nl ++ fence.

(** A prose with a fenced block of its own, which is not an array. *)
Definition samplePythonThenJson : jsstring :=
  js "A script first:" ++ nl ++ fence ++ js "python" ++ nl ++ js "print(1)" ++ nl
  ++ fence ++ nl ++ js "and then the `json` you asked for:" ++ nl.

(** A client that fails with a [SyntaxError] of its own, as when the body of
    an HTTP answer is not the JSON the client expects. *)
Definition garbledAI : AI :=
  {| generateContent := fun _ _ _ => inl (SyntaxError (js "Unexpected end of JSON input"));
     generateImages := fun _ _ => inl (SyntaxError (js "Unexpected end of JSON input")) |}.

(** ** Tactics *)

(* Case analysis on a scrutinee of the goal that contains no case analysis
   itself, innermost first. *)
Ltac break_match :=
  match goal with
  | |- context [match ?x with _ => _ end] =>
      lazymatch x with
      | context [match _ with _ => _ end] => fail
      | _ => destruct x eqn:?; simpl
      end
  end.

Ltac unfold_handler :=
  unfold run, handleGenerateNewsletter, handleRefineNewsletter, bind, getState,
    set, tryFinally, tryCatch, await, liftExn, throw, ret; simpl.

(* The parsers: what [readDigits] leaves, and equations between options. *)
Ltac read_digits length_lemma :=
  match goal with
  | H : context [readDigits ?a ?b ?c] |- _ =>
      pose proof (length_lemma a b c);
      destruct (readDigits a b c) as [[? ?] ?]
  end.

Ltac invert_some :=
  repeat match goal with
         | E : Some _ = Some _ |- _ => inversion E; clear E; subst
         | E : None = Some _ |- _ => discriminate E
         end.

(* Rewriting with every equation of the context that applies. *)
Ltac replay :=
  repeat match goal with
         | E : ?x = _ |- context [?x] => rewrite E
         end.

(* A parser that succeeded with some fuel succeeds with any fuel that is at
   least the number of characters it read. *)
Ltac enough_fuel :=
  split; [cbn [List.length] in *; lia |];
  let f := fresh "f" in
  let Hf := fresh "Hf" in
  intros f Hf; destruct f as [| f]; [cbn [List.length] in *; lia |];
  cbn [parseValue parseElements parseMembers];
  repeat first
         [ progress replay
         | match goal with
           | H : forall f0 : nat, _ |- _ =>
               rewrite (H f) by (cbn [List.length] in *; lia)
           end ];
  reflexivity.

(* The state after a failed refinement against the state before it. *)
Ltac kept_state :=
  repeat split; auto;
  let Hla := fresh in
  let Hlm := fresh in
  intros Hla Hlm;
  unfold setRefinementPrompt, setLoadingMessage, setLoadingAction, setError,
    setHeaderImageUrl, setNewsletterHtml; simpl;
  rewrite Hla, Hlm; reflexivity.

Arguments fetchTrendingNews : simpl never.
Arguments generateNewsletter : simpl never.
Arguments generateHeaderImage : simpl never.
Arguments refineNewsletter : simpl never.

(** * Properties *)

(** ** Searching and slicing *)

Lemma indexOf_absent (c : N) (s : jsstring) :
  ~ In c s -> indexOf c s = (-1)%Z.
Proof.
  induction s as [| x s IH]; simpl; intros Hnot; [reflexivity |].
  destruct (N.eqb_spec x c) as [-> | Hne]; [exfalso; apply Hnot; now left |].
  rewrite IH by (intros Hin; apply Hnot; now right). reflexivity.
Qed.

Lemma indexOf_lower_bound (c : N) (s : jsstring) : (-1 <= indexOf c s)%Z.
Proof.
  induction s as [| x s IH]; simpl; [lia |].
  destruct (x =? c)%N; [lia |].
  destruct (Z.ltb_spec (indexOf c s) 0); lia.
Qed.

(** The first occurrence. *)
Lemma indexOf_first (c : N) (p r : jsstring) :
  ~ In c p -> indexOf c (p ++ c :: r) = Z.of_nat (List.length p).
Proof.
  induction p as [| x p IH]; intros Hnot.
  - simpl. rewrite N.eqb_refl. reflexivity.
  - change ((x :: p) ++ c :: r) with (x :: (p ++ c :: r)).
    cbn [indexOf List.length].
    destruct (N.eqb_spec x c) as [-> | Hne]; [exfalso; apply Hnot; now left |].
    rewrite IH by (intros Hin; apply Hnot; now right).
    destruct (Z.ltb_spec (Z.of_nat (List.length p)) 0); lia.
Qed.

(** No occurrence in [u]: the first occurrence in [u ++ v], if any, is at or
    after the end of [u]. *)
Lemma indexOf_after (c : N) (u v : jsstring) :
  ~ In c u ->
  indexOf c (u ++ v) = (-1)%Z \/ (Z.of_nat (List.length u) <= indexOf c (u ++ v))%Z.
Proof.
  intros Hu.
  destruct (in_dec N.eq_dec c v) as [Hin | Hnot].
  - right.
    assert (Hsplit : exists p r, v = p ++ c :: r /\ ~ In c p).
    { clear Hu. induction v as [| x v IH]; [contradiction |].
      destruct (N.eq_dec x c) as [-> | Hne].
      - exists [], v. split; [reflexivity | intros []].
      - destruct Hin as [-> | Hin]; [contradiction |].
        destruct (IH Hin) as (p & r & -> & Hp).
        exists (x :: p), r. split; [reflexivity |].
        intros [-> | H]; [apply Hne; reflexivity | exact (Hp H)]. }
    destruct Hsplit as (p & r & -> & Hp).
    rewrite app_assoc, indexOf_first.
    + rewrite length_app. lia.
    + intros Hin'. apply in_app_or in Hin'. tauto.
  - left. apply indexOf_absent. intros Hin. apply in_app_or in Hin. tauto.
Qed.

Lemma lastIndexOf_absent (c : N) (s : jsstring) :
  ~ In c s -> lastIndexOf c s = (-1)%Z.
Proof.
  induction s as [| x s IH]; simpl; intros Hnot; [reflexivity |].
  rewrite IH by (intros Hin; apply Hnot; now right). simpl.
  destruct (N.eqb_spec x c) as [-> | Hne]; [exfalso; apply Hnot; now left |].
  reflexivity.
Qed.

(** The last occurrence. *)
Lemma lastIndexOf_last (c : N) (p q : jsstring) :
  ~ In c q -> lastIndexOf c (p ++ c :: q) = Z.of_nat (List.length p).
Proof.
  intros Hq. induction p as [| x p IH].
  - simpl. rewrite (lastIndexOf_absent c q Hq). simpl.
    rewrite N.eqb_refl. reflexivity.
  - change ((x :: p) ++ c :: q) with (x :: (p ++ c :: q)).
    cbn [lastIndexOf List.length]. rewrite IH.
    destruct (Z.leb_spec 0 (Z.of_nat (List.length p))); lia.
Qed.

(** No occurrence in [v]: the last occurrence in [u ++ v] is before the end
    of [u]. *)
Lemma lastIndexOf_before (c : N) (u v : jsstring) :
  ~ In c v -> (lastIndexOf c (u ++ v) < Z.of_nat (List.length u))%Z.
Proof.
  intros Hv. induction u as [| x u IH].
  - simpl. rewrite (lastIndexOf_absent c v Hv). lia.
  - change ((x :: u) ++ v) with (x :: (u ++ v)).
    cbn [lastIndexOf List.length].
    destruct (Z.leb_spec 0 (lastIndexOf c (u ++ v))); [lia |].
    destruct (x =? c)%N; lia.
Qed.

Lemma substring_middle (p m q : jsstring) :
  substring (p ++ m ++ q) (Z.of_nat (List.length p))
            (Z.of_nat (List.length p) + Z.of_nat (List.length m))
  = m.
Proof.
  unfold substring. rewrite !length_app.
  replace (Z.min (Z.max (Z.of_nat (List.length p)) 0) _)
    with (Z.of_nat (List.length p)) by lia.
  replace (Z.min (Z.max (Z.of_nat (List.length p) + Z.of_nat (List.length m)) 0) _)
    with (Z.of_nat (List.length p) + Z.of_nat (List.length m))%Z by lia.
  rewrite Z.min_l, Z.max_r by lia.
  replace (Z.to_nat (Z.of_nat (List.length p) + Z.of_nat (List.length m)
                     - Z.of_nat (List.length p)))
    with (List.length m) by lia.
  rewrite Nat2Z.id.
  rewrite skipn_app, skipn_all, Nat.sub_diag. simpl.
  rewrite firstn_app, firstn_all, Nat.sub_diag. simpl.
  apply app_nil_r.
Qed.

Lemma first_occurrence (c : N) (s : jsstring) :
  In c s -> exists p r, s = p ++ c :: r /\ ~ In c p.
Proof.
  induction s as [| x s IH]; [contradiction |]. intros Hin.
  destruct (N.eq_dec x c) as [-> | Hne].
  - exists [], s. split; [reflexivity | intros []].
  - destruct Hin as [-> | Hin]; [contradiction |].
    destruct (IH Hin) as (p & r & -> & Hp).
    exists (x :: p), r. split; [reflexivity |].
    intros [-> | H]; [apply Hne; reflexivity | exact (Hp H)].
Qed.

Lemma last_occurrence (c : N) (s : jsstring) :
  In c s -> exists p r, s = p ++ c :: r /\ ~ In c r.
Proof.
  induction s as [| x s IH]; [contradiction |]. intros Hin.
  destruct (in_dec N.eq_dec c s) as [Hs | Hs].
  - destruct (IH Hs) as (p & r & -> & Hr).
    exists (x :: p), r. split; [reflexivity | exact Hr].
  - destruct Hin as [-> | Hin]; [| contradiction].
    exists [], s. split; [reflexivity | exact Hs].
Qed.

(** A [c] followed later by a [d]: the text from the first [c] to the last
    [d]. *)
Lemma first_to_last (c d : N) (a b e : jsstring) :
  exists p m q, a ++ c :: b ++ d :: e = p ++ c :: m ++ d :: q
                /\ ~ In c p /\ ~ In d q.
Proof.
  destruct (first_occurrence c (a ++ c :: b ++ d :: e)) as (p & r & Heq & Hp).
  { apply in_or_app. right. now left. }
  assert (Hd : In d r).
  { destruct (app_eq_app _ _ _ _ Heq) as (l & [[Ha Hl] | [Hp' Hl]]).
    - destruct l as [| x l]; simpl in Hl; inversion Hl; subst.
      + apply in_or_app. right. now left.
      + apply in_or_app. right. right. apply in_or_app. right. now left.
    - destruct l as [| x l]; simpl in Hl; inversion Hl; subst.
      + apply in_or_app. right. now left.
      + exfalso. apply Hp. apply in_or_app. right. now left. }
  destruct (last_occurrence d r Hd) as (m & q & -> & Hq).
  exists p, m, q. auto.
Qed.

Lemma firstn_cons (n : nat) (c : N) (s : jsstring) :
  1 <= n -> exists body, firstn n (c :: s) = c :: body.
Proof.
  intros Hn. destruct n as [| n]; [lia |]. cbn [firstn]. eexists. reflexivity.
Qed.

(** ** Trimming *)

Lemma trimStart_app (pre s : jsstring) (c : N) :
  isWhiteSpace c = false ->
  trimStart (pre ++ c :: s) = trimStart pre ++ c :: s.
Proof.
  intros Hc. induction pre as [| x pre IH]; simpl.
  - rewrite Hc. reflexivity.
  - destruct (isWhiteSpace x); [exact IH | reflexivity].
Qed.

Lemma trimStart_suffix (s : jsstring) : exists w, s = w ++ trimStart s.
Proof.
  induction s as [| x s IH]; simpl.
  - exists []. reflexivity.
  - destruct (isWhiteSpace x).
    + destruct IH as (w & Hw). exists (x :: w). simpl. congruence.
    + exists []. reflexivity.
Qed.

Lemma trimEnd_app (s post : jsstring) (c : N) :
  isWhiteSpace c = false ->
  trimEnd (s ++ c :: post) = s ++ c :: trimEnd post.
Proof.
  intros Hc. unfold trimEnd.
  rewrite rev_app_distr. simpl rev. rewrite <- app_assoc. simpl app.
  rewrite (trimStart_app (rev post) (rev s) c Hc).
  rewrite rev_app_distr. simpl rev. rewrite rev_involutive, <- app_assoc.
  reflexivity.
Qed.

Lemma trimEnd_prefix (s : jsstring) : exists w, s = trimEnd s ++ w.
Proof.
  unfold trimEnd. destruct (trimStart_suffix (rev s)) as (w & Hw).
  exists (rev w). rewrite <- rev_app_distr, <- Hw, rev_involutive. reflexivity.
Qed.

(** ** The matcher *)

Section MatcherFacts.
Context {R : Type}.
Implicit Types (k : jsstring -> option R) (s w : jsstring) (cl : charclass).

(** A literal consumes itself. *)
Lemma rmatch_lit (l s : jsstring) (cap : option jsstring)
      (k : jsstring -> option jsstring -> option R) :
  rmatch (lit l) (l ++ s) cap k = k s cap.
Proof.
  induction l as [| c l IH]; simpl; [reflexivity |].
  rewrite N.eqb_refl. apply IH.
Qed.

(** A literal matches nothing else. *)
Lemma rmatch_lit_inv (l s : jsstring) (cap : option jsstring)
      (k : jsstring -> option jsstring -> option R) (r : R) :
  rmatch (lit l) s cap k = Some r ->
  exists s', s = l ++ s' /\ k s' cap = Some r.
Proof.
  revert s. induction l as [| c l IH]; simpl; intros s H.
  - exists s. auto.
  - destruct s as [| x s]; [discriminate |].
    destruct (N.eqb_spec x c) as [-> | Hne]; [| discriminate].
    destruct (IH s H) as (s' & -> & Hk). exists s'. auto.
Qed.

(** The greedy quantifier stops at once on a character outside the
    class. *)
Lemma starGreedy_stop cl (c : N) s k :
  inClass cl c = false -> starGreedy cl (c :: s) k = k (c :: s).
Proof. intros H. simpl. rewrite H. reflexivity. Qed.

(** If the rest matches after more characters of the class, that is the
    match the greedy quantifier finds. *)
Lemma starGreedy_skip cl w s k (r : R) :
  allInClass cl w ->
  starGreedy cl s k = Some r ->
  starGreedy cl (w ++ s) k = Some r.
Proof.
  intros Hw Hs. induction Hw as [| c w Hc Hw IH]; simpl; [exact Hs |].
  rewrite Hc, IH. reflexivity.
Qed.

(** If the continuation fails at every later position, the greedy
    quantifier comes back to the first one. *)
Lemma starGreedy_back cl s k :
  (forall x t, s = x ++ t -> x <> [] -> k t = None) ->
  starGreedy cl s k = k s.
Proof.
  induction s as [| c s IH]; intros Hlater; simpl; [reflexivity |].
  destruct (inClass cl c); [| reflexivity].
  rewrite IH.
  - rewrite (Hlater [c] s eq_refl) by discriminate. reflexivity.
  - intros x t -> Hx. apply (Hlater (c :: x) t eq_refl). discriminate.
Qed.

(** Whatever the greedy quantifier finds comes after some characters of
    the class. *)
Lemma starGreedy_inv cl s k (r : R) :
  starGreedy cl s k = Some r ->
  exists w t, s = w ++ t /\ allInClass cl w /\ k t = Some r.
Proof.
  induction s as [| c s IH]; simpl; intros H.
  - exists [], []. repeat split; auto. constructor.
  - destruct (inClass cl c) eqn:Hc.
    + destruct (starGreedy cl s k) as [r' |] eqn:Hs; simpl in H.
      * inversion H; subst r'.
        destruct (IH eq_refl) as (w & t & -> & Hw & Hk).
        exists (c :: w), t. repeat split; auto. constructor; auto.
      * exists [], (c :: s). repeat split; auto. constructor.
    + exists [], (c :: s). repeat split; auto. constructor.
Qed.
End MatcherFacts.

Lemma inClass_any (c : N) : inClass ClassAny c = true.
Proof. simpl. destruct (isWhiteSpace c); reflexivity. Qed.

(** A match of the search is a match of the pattern at some position. *)
Lemma regexMatch_inv (r : regex) (s : jsstring) (m : option jsstring) :
  regexMatch r s = Some m ->
  exists before at_, s = before ++ at_
                     /\ rmatch r at_ None (fun _ cap => Some cap) = Some m.
Proof.
  induction s as [| c s IH]; cbn [regexMatch]; intros H.
  - destruct (rmatch r [] None (fun _ cap => Some cap)) eqn:Hm; [| discriminate].
    exists [], []. split; [reflexivity | congruence].
  - destruct (rmatch r (c :: s) None (fun _ cap => Some cap)) eqn:Hm.
    + exists [], (c :: s). split; [reflexivity | congruence].
    + destruct (IH H) as (before & at_ & -> & Hat).
      exists (c :: before), at_. split; [reflexivity | exact Hat].
Qed.

(** ** The fence pattern of [fetchTrendingNews] *)

Lemma startsWith_app (l s : jsstring) : startsWith (l ++ s) l = true.
Proof.
  induction l as [| c l IH]; simpl; [reflexivity |].
  rewrite N.eqb_refl. exact IH.
Qed.

Lemma startsWith_longer (u v p : jsstring) :
  List.length p <= List.length u ->
  startsWith (u ++ v) p = startsWith u p.
Proof.
  revert u. induction p as [| c p IH]; intros u Hlen; [reflexivity |].
  destruct u as [| x u]; simpl in *; [lia |].
  rewrite IH by lia. reflexivity.
Qed.

Lemma closing_ok (cap : option jsstring) (w post : jsstring) :
  whiteSpace w ->
  starGreedy ClassSpace (w ++ fence ++ post)
             (fun rest => rmatch (lit fence) rest cap (fun _ cap' => Some cap'))
  = Some cap.
Proof.
  intros Hw. apply starGreedy_skip; [exact Hw |].
  change (fence ++ post) with (backtick :: (js "``" ++ post)).
  rewrite starGreedy_stop by reflexivity.
  change (backtick :: (js "``" ++ post)) with (fence ++ post).
  rewrite rmatch_lit. reflexivity.
Qed.

Lemma closing_inv (cap r : option jsstring) (s : jsstring) :
  starGreedy ClassSpace s
             (fun rest => rmatch (lit fence) rest cap (fun _ cap' => Some cap'))
  = Some r ->
  exists w post, s = w ++ fence ++ post /\ whiteSpace w.
Proof.
  intros H.
  apply starGreedy_inv in H. destruct H as (w & t & -> & Hw & Hk).
  apply rmatch_lit_inv in Hk. destruct Hk as (post & -> & _).
  exists w, post. split; auto.
Qed.

Lemma suffix_after (c : N) (x t a b : jsstring) :
  x ++ c :: t = a ++ b -> ~ In c a -> exists x', b = x' ++ c :: t.
Proof.
  intros Heq Ha.
  destruct (app_eq_app _ _ _ _ Heq) as (l & [[Hx Hb] | [Ha' Ht]]).
  - exists l. exact Hb.
  - destruct l as [| y l]; simpl in Ht.
    + exists []. simpl. congruence.
    + inversion Ht; subst. exfalso. apply Ha. apply in_or_app. right. now left.
Qed.

Lemma whiteSpace_not_in (c : N) (w : jsstring) :
  isWhiteSpace c = false -> whiteSpace w -> ~ In c w.
Proof.
  intros Hc Hw Hin. unfold whiteSpace in Hw. rewrite Forall_forall in Hw.
  rewrite (Hw c Hin) in Hc. discriminate.
Qed.

(** At a fence that opens a block as described, the pattern matches and
    group 1 is the text from the bracket after the fence to the bracket
    before the closing fence. *)
Lemma newsFence_block (tag ws1 body ws2 post : jsstring) :
  tag = [] \/ tag = js "json" ->
  whiteSpace ws1 -> whiteSpace ws2 -> noLaterClosing post ->
  rmatch newsFenceRegex
         (fence ++ tag ++ ws1 ++ lbracket :: body ++ rbracket :: ws2 ++ fence ++ post)
         None (fun _ cap => Some cap)
  = Some (Some (lbracket :: body ++ [rbracket])).
Proof.
  intros Htag Hws1 Hws2 Hpost.
  unfold newsFenceRegex. cbn [rmatch]. rewrite rmatch_lit.
  set (rest := ws1 ++ lbracket :: body ++ rbracket :: ws2 ++ fence ++ post).
  assert (Hrest :
    starGreedy ClassSpace rest
      (fun rest0 => rmatch (Char lbracket) rest0 None
         (fun s1 cap1 => starGreedy ClassAny s1
            (fun rest1 => rmatch (Char rbracket) rest1 cap1
               (fun rest2 _ =>
                  starGreedy ClassSpace rest2
                    (fun rest3 => rmatch (lit fence) rest3
                       (Some (firstn (List.length rest0 - List.length rest2) rest0))
                       (fun _ cap => Some cap))))))
    = Some (Some (lbracket :: body ++ [rbracket]))).
  { subst rest. apply starGreedy_skip; [exact Hws1 |].
    rewrite starGreedy_stop by reflexivity.
    cbn [rmatch]. rewrite N.eqb_refl.
    set (Y := lbracket :: body ++ rbracket :: ws2 ++ fence ++ post).
    apply starGreedy_skip; [apply Forall_forall; intros; apply inClass_any |].
    rewrite starGreedy_back.
    - rewrite N.eqb_refl. rewrite closing_ok by exact Hws2.
      subst Y.
      replace (lbracket :: body ++ rbracket :: ws2 ++ fence ++ post)
        with ((lbracket :: body ++ [rbracket]) ++ ws2 ++ fence ++ post)
        by (simpl; rewrite <- app_assoc; reflexivity).
      rewrite length_app, Nat.add_sub, firstn_app, firstn_all, Nat.sub_diag.
      simpl firstn. rewrite app_nil_r. reflexivity.
    - intros x t Heq Hx.
      destruct t as [| c t]; [reflexivity |].
      destruct (N.eqb_spec c rbracket) as [-> | Hne]; [| reflexivity].
      match goal with
      | |- ?e = None => destruct e as [r |] eqn:Hclose; [exfalso | reflexivity]
      end.
      apply closing_inv in Hclose. destruct Hclose as (w & y & -> & Hw).
      destruct x as [| c x]; [contradiction |].
      assert (Htail : x ++ rbracket :: w ++ fence ++ y = (ws2 ++ fence) ++ post).
      { rewrite <- app_assoc.
        change ((c :: x) ++ rbracket :: w ++ fence ++ y)
          with (c :: (x ++ rbracket :: w ++ fence ++ y)) in Heq.
        congruence. }
      assert (Hpost' : exists x', post = x' ++ rbracket :: w ++ fence ++ y).
      { apply (suffix_after rbracket x (w ++ fence ++ y) (ws2 ++ fence) post Htail).
        intros Hin. apply in_app_or in Hin. destruct Hin as [Hin | Hin].
        - revert Hin. apply whiteSpace_not_in; [reflexivity | exact Hws2].
        - vm_compute in Hin. intuition discriminate. }
      destruct Hpost' as (x' & Hx').
      apply (Hpost x' w y Hw). exact Hx'. }
  cbn [rmatch] in Hrest.
  destruct Htag as [-> | ->].
  - simpl app. fold rest. unfold Opt. cbn [rmatch].
    replace (rmatch (lit (js "json")) rest None _) with (@None (option jsstring)).
    + simpl. exact Hrest.
    + symmetry.
      match goal with
      | |- ?e = None => destruct e as [r |] eqn:Hjson; [exfalso | reflexivity]
      end.
      apply rmatch_lit_inv in Hjson. destruct Hjson as (s' & Hs' & _).
      subst rest. destruct ws1 as [| c ws1].
      * simpl in Hs'. discriminate Hs'.
      * inversion Hws1; subst. simpl in Hs'. inversion Hs'; subst.
        discriminate.
  - fold rest. unfold Opt. cbn [rmatch].
    rewrite rmatch_lit. cbn [rmatch]. rewrite Hrest. reflexivity.
Qed.

(** What group 1 of the fence pattern captures starts with a bracket. *)
Lemma newsFence_group (s : jsstring) (m : option jsstring) :
  rmatch newsFenceRegex s None (fun _ cap => Some cap) = Some m ->
  exists body, m = Some (lbracket :: body).
Proof.
  unfold newsFenceRegex, Opt. cbn [rmatch]. intros H.
  apply rmatch_lit_inv in H. destruct H as (s1 & -> & H).
  assert (Hrest : forall rest,
    starGreedy ClassSpace rest
      (fun rest0 => rmatch (Char lbracket) rest0 None
         (fun s1 cap1 => starGreedy ClassAny s1
            (fun rest1 => rmatch (Char rbracket) rest1 cap1
               (fun rest2 _ =>
                  starGreedy ClassSpace rest2
                    (fun rest3 => rmatch (lit fence) rest3
                       (Some (firstn (List.length rest0 - List.length rest2) rest0))
                       (fun _ cap => Some cap))))))
    = Some m -> exists body, m = Some (lbracket :: body)).
  { clear. intros rest H.
    apply starGreedy_inv in H. destruct H as (w & t & -> & _ & H).
    cbn [rmatch] in H.
    destruct t as [| c t1]; [discriminate |].
    destruct (N.eqb_spec c lbracket) as [-> | Hne]; [| discriminate].
    apply starGreedy_inv in H. destruct H as (any & t2 & -> & _ & H).
    destruct t2 as [| d rest2]; [discriminate |].
    destruct (N.eqb_spec d rbracket) as [-> | Hd]; [| discriminate].
    apply starGreedy_inv in H. destruct H as (w2 & t3 & -> & _ & H).
    apply rmatch_lit_inv in H. destruct H as (post & -> & H).
    assert (Hpos : 1 <= List.length (lbracket :: any ++ rbracket :: w2 ++ fence ++ post)
                       - List.length (w2 ++ fence ++ post)).
    { cbn [List.length]. rewrite length_app. cbn [List.length]. lia. }
    destruct (firstn_cons _ lbracket (any ++ rbracket :: w2 ++ fence ++ post) Hpos)
      as (body & Hbody).
    exists body. rewrite <- Hbody. congruence. }
  cbn [rmatch] in Hrest.
  unfold orElse in H.
  match type of H with
  | match ?e with _ => _ end = _ => destruct e as [m' |] eqn:Hjson
  end.
  - inversion H; subst m'.
    apply rmatch_lit_inv in Hjson. destruct Hjson as (s2 & _ & Hjson).
    cbn [rmatch] in Hjson. apply (Hrest s2 Hjson).
  - apply (Hrest s1 H).
Qed.

(** ** Extraction of the array text *)

Lemma extractJsonText_span (p m q : jsstring) :
  matchedGroup (regexMatch newsFenceRegex (p ++ lbracket :: m ++ rbracket :: q))
  = None ->
  ~ In lbracket p -> ~ In rbracket q ->
  extractJsonText (p ++ lbracket :: m ++ rbracket :: q)
  = inr (lbracket :: m ++ [rbracket]).
Proof.
  intros Hno Hp Hq. unfold extractJsonText. rewrite Hno; simpl.
  rewrite (indexOf_first lbracket p (m ++ rbracket :: q) Hp).
  replace (p ++ lbracket :: m ++ rbracket :: q)
    with ((p ++ lbracket :: m) ++ rbracket :: q)
    by (rewrite <- app_assoc; reflexivity).
  rewrite (lastIndexOf_last rbracket (p ++ lbracket :: m) q Hq).
  rewrite length_app; simpl List.length.
  destruct (Z.eqb_spec (Z.of_nat (List.length p)) (-1)); [lia |].
  destruct (Z.eqb_spec (Z.of_nat (List.length p + S (List.length m))) (-1)); [lia |].
  destruct (Z.ltb_spec (Z.of_nat (List.length p + S (List.length m)))
                       (Z.of_nat (List.length p))); [lia |].
  simpl.
  replace ((p ++ lbracket :: m) ++ rbracket :: q)
    with (p ++ (lbracket :: m ++ [rbracket]) ++ q)
    by (simpl; rewrite <- !app_assoc; reflexivity).
  replace (Z.of_nat (List.length p + S (List.length m)) + 1)%Z
    with (Z.of_nat (List.length p)
          + Z.of_nat (List.length (lbracket :: m ++ [rbracket])))%Z
    by (simpl List.length; rewrite length_app; simpl List.length; lia).
  rewrite substring_middle. reflexivity.
Qed.

Lemma extractJsonText_no_span (u v : jsstring) :
  matchedGroup (regexMatch newsFenceRegex (u ++ v)) = None ->
  ~ In lbracket u -> ~ In rbracket v ->
  extractJsonText (u ++ v) = inl (Error msgNoArray).
Proof.
  intros Hno Hu Hv. unfold extractJsonText. rewrite Hno; simpl.
  pose proof (indexOf_after lbracket u v Hu) as Hstart.
  pose proof (lastIndexOf_before rbracket u v Hv) as Hend.
  destruct (Z.eqb_spec (indexOf lbracket (u ++ v)) (-1)); [reflexivity |].
  destruct (Z.eqb_spec (lastIndexOf rbracket (u ++ v)) (-1)); [reflexivity |].
  destruct (Z.ltb_spec (lastIndexOf rbracket (u ++ v)) (indexOf lbracket (u ++ v)));
    [reflexivity | lia].
Qed.

(** C5: when the fence pattern yields no group, a text with a ['['] and a
    later [']'] has a first ['['] and a last [']'] after it, and the
    extraction step yields the slice from the one to the other, both
    included; a text without ['['], without [']'], or whose every [']'] is
    before every ['['], makes the extraction step throw its error. *)
Theorem bracket_fallback (rawText : jsstring) :
  matchedGroup (regexMatch newsFenceRegex rawText) = None ->
  (forall p m q : jsstring,
      rawText = p ++ lbracket :: m ++ rbracket :: q ->
      ~ In lbracket p -> ~ In rbracket q ->
      extractJsonText rawText = inr (lbracket :: m ++ [rbracket]))
  /\ (forall a b e : jsstring,
         rawText = a ++ lbracket :: b ++ rbracket :: e ->
         exists p m q : jsstring,
           rawText = p ++ lbracket :: m ++ rbracket :: q
           /\ ~ In lbracket p /\ ~ In rbracket q)
  /\ (~ In lbracket rawText -> extractJsonText rawText = inl (Error msgNoArray))
  /\ (~ In rbracket rawText -> extractJsonText rawText = inl (Error msgNoArray))
  /\ (forall u v : jsstring,
         rawText = u ++ v -> ~ In lbracket u -> ~ In rbracket v ->
         extractJsonText rawText = inl (Error msgNoArray)).
Proof.
  intros Hno. repeat split.
  - intros p m q -> Hp Hq. apply extractJsonText_span; auto.
  - intros a b e ->. apply first_to_last.
  - intros Hnot. rewrite <- (app_nil_r rawText) in *.
    apply extractJsonText_no_span; auto.
    rewrite app_nil_r in Hnot; exact Hnot.
  - intros Hnot. change rawText with ([] ++ rawText) in *.
    apply extractJsonText_no_span; auto.
  - intros u v -> Hu Hv. apply extractJsonText_no_span; auto.
Qed.

Lemma bracket_fallback_witness :
  extractJsonText (js "Here you go: [1, [2]] and that is all]. Bye")
  = inr (js "[1, [2]] and that is all]")
  /\ extractJsonText (js "no array, sorry") = inl (Error msgNoArray)
  /\ extractJsonText (js "closing ] comes before [ opening") = inl (Error msgNoArray).
Proof.
  split; [| split].
  - destruct (bracket_fallback (js "Here you go: [1, [2]] and that is all]. Bye"))
      as (Hspan & _); [vm_compute; reflexivity |].
    apply (Hspan (js "Here you go: ") (js "1, [2]] and that is all") (js ". Bye")
                 eq_refl);
      vm_compute; intuition discriminate.
  - destruct (bracket_fallback (js "no array, sorry")) as (_ & _ & Habsent & _);
      [vm_compute; reflexivity |].
    apply Habsent. vm_compute. intuition discriminate.
  - destruct (bracket_fallback (js "closing ] comes before [ opening"))
      as (_ & _ & _ & _ & Hbefore); [vm_compute; reflexivity |].
    apply (Hbefore (js "closing ] comes before ") (js "[ opening") eq_refl);
      vm_compute; intuition discriminate.
Defined.

Lemma noFenceBefore_trimStart (pre : jsstring) :
  noFenceBefore pre -> noFenceBefore (trimStart pre).
Proof.
  intros Hpre a b Hab Hb. destruct (trimStart_suffix pre) as (w & Hw).
  apply (Hpre (w ++ a) b); [| exact Hb].
  rewrite <- app_assoc, <- Hab. exact Hw.
Qed.

Lemma noLaterClosing_trimEnd (post : jsstring) :
  noLaterClosing post -> noLaterClosing (trimEnd post).
Proof.
  intros Hpost x w y Hw Heq. destruct (trimEnd_prefix post) as (t & Ht).
  apply (Hpost x w (y ++ t) Hw).
  rewrite Ht, Heq. rewrite <- !app_assoc. reflexivity.
Qed.

Lemma noFenceBeforeb_sound (pre : jsstring) :
  noFenceBeforeb pre = true -> noFenceBefore pre.
Proof.
  induction pre as [| x pre IH]; intros Hb a b Hab Hne.
  - destruct a, b; try discriminate Hab. contradiction.
  - cbn [noFenceBeforeb] in Hb. apply andb_true_iff in Hb. destruct Hb as [Hx Hpre].
    destruct a as [| y a].
    + simpl in Hab. subst b. apply negb_true_iff. exact Hx.
    + inversion Hab; subst. apply (IH Hpre a b eq_refl Hne).
Qed.

Lemma noLaterClosing_no_backtick (post : jsstring) :
  ~ In backtick post -> noLaterClosing post.
Proof.
  intros Hnot x w y Hw Heq. apply Hnot. rewrite Heq.
  apply in_or_app. right. simpl. right.
  apply in_or_app. right. now left.
Qed.

Lemma trimStart_space_then (w s : jsstring) (c : N) :
  whiteSpace w -> isWhiteSpace c = false -> trimStart (w ++ c :: s) = c :: s.
Proof.
  intros Hw Hc. induction Hw as [| x w Hx Hw IH]; simpl.
  - rewrite Hc. reflexivity.
  - rewrite Hx. exact IH.
Qed.

(** The test finds every such beginning. *)
Lemma opensArrayb_complete (s : jsstring) : opensArray s -> opensArrayb s = true.
Proof.
  intros (tag & ws & t & Htag & Hws & ->).
  unfold opensArrayb. rewrite startsWith_app. cbn [andb].
  change (skipn 3 (fence ++ tag ++ ws ++ lbracket :: t))
    with (tag ++ ws ++ lbracket :: t).
  cbv zeta. apply orb_true_iff.
  destruct Htag as [-> | ->].
  - left. rewrite app_nil_l, trimStart_space_then by (auto; reflexivity).
    reflexivity.
  - right. rewrite startsWith_app. cbn [andb].
    change (skipn 4 (js "json" ++ ws ++ lbracket :: t)) with (ws ++ lbracket :: t).
    rewrite trimStart_space_then by (auto; reflexivity). reflexivity.
Qed.

Lemma opensArray_app (s w : jsstring) : opensArray s -> opensArray (s ++ w).
Proof.
  intros (tag & ws & t & Htag & Hws & ->).
  exists tag, ws, (t ++ w). repeat split; auto.
  repeat (rewrite <- app_assoc; simpl app). reflexivity.
Qed.

Lemma noOpeningBeforeb_sound (pre rest : jsstring) :
  noOpeningBeforeb pre rest = true -> noOpeningBefore pre rest.
Proof.
  induction pre as [| x pre IH]; intros Hb a b Hab Hne Hopen.
  - destruct a, b; try discriminate Hab. contradiction.
  - cbn [noOpeningBeforeb] in Hb. apply andb_true_iff in Hb. destruct Hb as [Hx Hpre].
    destruct a as [| y a].
    + simpl in Hab. subst b. apply opensArrayb_complete in Hopen.
      rewrite Hopen in Hx. discriminate.
    + inversion Hab; subst. apply (IH Hpre a b eq_refl Hne Hopen).
Qed.

(** Where the news pattern matches, the text begins as described. *)
Lemma newsFence_opening (s : jsstring) (m : option jsstring) :
  rmatch newsFenceRegex s None (fun _ cap => Some cap) = Some m -> opensArray s.
Proof.
  unfold newsFenceRegex, Opt. cbn [rmatch]. intros H.
  apply rmatch_lit_inv in H. destruct H as (s1 & -> & H).
  assert (Hrest : forall rest,
    starGreedy ClassSpace rest
      (fun rest0 => rmatch (Char lbracket) rest0 None
         (fun s1 cap1 => starGreedy ClassAny s1
            (fun rest1 => rmatch (Char rbracket) rest1 cap1
               (fun rest2 _ =>
                  starGreedy ClassSpace rest2
                    (fun rest3 => rmatch (lit fence) rest3
                       (Some (firstn (List.length rest0 - List.length rest2) rest0))
                       (fun _ cap => Some cap))))))
    = Some m -> exists ws t, whiteSpace ws /\ rest = ws ++ lbracket :: t).
  { clear. intros rest H.
    apply starGreedy_inv in H. destruct H as (w & t & -> & Hw & H).
    cbn [rmatch] in H.
    destruct t as [| c t1]; [discriminate |].
    destruct (N.eqb_spec c lbracket) as [-> | Hne]; [| discriminate].
    exists w, t1. split; [exact Hw | reflexivity]. }
  cbn [rmatch] in Hrest.
  unfold orElse in H.
  match type of H with
  | match ?e with _ => _ end = _ => destruct e as [m' |] eqn:Hjson
  end.
  - inversion H; subst m'.
    apply rmatch_lit_inv in Hjson. destruct Hjson as (s2 & -> & Hjson).
    cbn [rmatch] in Hjson. destruct (Hrest s2 Hjson) as (ws & t & Hws & ->).
    exists (js "json"), ws, t. auto.
  - destruct (Hrest s1 H) as (ws & t & Hws & ->).
    exists [], ws, t. auto.
Qed.

(** The search passes over a prefix in which no such beginning is. *)
Lemma newsFence_skip_openings (pre rest : jsstring) :
  noOpeningBefore pre rest ->
  regexMatch newsFenceRegex (pre ++ rest) = regexMatch newsFenceRegex rest.
Proof.
  induction pre as [| x pre IH]; intros Hpre; [reflexivity |].
  change ((x :: pre) ++ rest) with (x :: (pre ++ rest)).
  cbn [regexMatch].
  destruct (rmatch newsFenceRegex (x :: pre ++ rest) None (fun _ cap => Some cap))
    as [m |] eqn:Hm.
  - exfalso. apply newsFence_opening in Hm.
    apply (Hpre [] (x :: pre) eq_refl); [discriminate | exact Hm].
  - apply IH. intros a b -> Hb. apply (Hpre (x :: a) b eq_refl Hb).
Qed.

Lemma noOpeningBefore_trim (pre rest post : jsstring) :
  noOpeningBefore pre (rest ++ post) ->
  noOpeningBefore (trimStart pre) (rest ++ trimEnd post).
Proof.
  intros Hpre a b Hab Hb Hopen.
  destruct (trimStart_suffix pre) as (w & Hw).
  destruct (trimEnd_prefix post) as (t & Ht).
  apply (Hpre (w ++ a) b); [rewrite <- app_assoc, <- Hab; exact Hw | exact Hb |].
  apply (opensArray_app _ t) in Hopen.
  rewrite <- !app_assoc in Hopen. rewrite <- Ht in Hopen. exact Hopen.
Qed.

(** C4 (as the code has it): a text made of a prose, a fence, an optional
    [json] tag, optional white space, a text from a ['['] to a [']'],
    optional white space, a fence, and a prose again, where at no position
    of the first prose the text begins with a fence, an optional [json],
    optional white space and a ['['], and where in the last prose no [']'] is
    followed by optional white space and a fence: the extraction step yields
    exactly the bracketed text.  Other fences in the first prose, such as a
    fenced block that is no array, do no harm. *)
Theorem fenced_array_extracted (pre tag ws1 body ws2 post : jsstring) :
  noOpeningBefore pre (fence ++ tag ++ ws1
                         ++ lbracket :: body ++ rbracket :: ws2 ++ fence ++ post) ->
  tag = [] \/ tag = js "json" ->
  whiteSpace ws1 -> whiteSpace ws2 ->
  noLaterClosing post ->
  extractJsonText
    (trim (pre ++ fence ++ tag ++ ws1
               ++ lbracket :: body ++ rbracket :: ws2 ++ fence ++ post))
  = inr (lbracket :: body ++ [rbracket]).
Proof.
  intros Hpre Htag Hws1 Hws2 Hpost.
  assert (Htrim :
    trim (pre ++ fence ++ tag ++ ws1
              ++ lbracket :: body ++ rbracket :: ws2 ++ fence ++ post)
    = trimStart pre ++ fence ++ tag ++ ws1
        ++ lbracket :: body ++ rbracket :: ws2 ++ fence ++ trimEnd post).
  { unfold trim.
    change (fence ++ tag ++ ws1 ++ lbracket :: body ++ rbracket :: ws2 ++ fence ++ post)
      with (backtick :: js "``" ++ tag ++ ws1
              ++ lbracket :: body ++ rbracket :: ws2 ++ fence ++ post).
    rewrite trimStart_app by reflexivity.
    change (backtick :: js "``" ++ tag ++ ws1
              ++ lbracket :: body ++ rbracket :: ws2 ++ fence ++ post)
      with (fence ++ tag ++ ws1
              ++ lbracket :: body ++ rbracket :: ws2 ++ fence ++ post).
    replace (trimStart pre ++ fence ++ tag ++ ws1
               ++ lbracket :: body ++ rbracket :: ws2 ++ fence ++ post)
      with ((trimStart pre ++ fence ++ tag ++ ws1
               ++ lbracket :: body ++ rbracket :: ws2 ++ js "``")
              ++ backtick :: post).
    - rewrite trimEnd_app by reflexivity.
      repeat (rewrite <- app_assoc; simpl app). reflexivity.
    - repeat (rewrite <- app_assoc; simpl app). reflexivity. }
  rewrite Htrim. unfold extractJsonText.
  rewrite newsFence_skip_openings.
  2:{ replace (fence ++ tag ++ ws1 ++ lbracket :: body ++ rbracket :: ws2
                 ++ fence ++ trimEnd post)
        with ((fence ++ tag ++ ws1 ++ lbracket :: body ++ rbracket :: ws2 ++ fence)
                ++ trimEnd post)
        by (repeat (rewrite <- app_assoc; simpl app); reflexivity).
      apply noOpeningBefore_trim.
      replace ((fence ++ tag ++ ws1 ++ lbracket :: body ++ rbracket :: ws2 ++ fence)
                 ++ post)
        with (fence ++ tag ++ ws1 ++ lbracket :: body ++ rbracket :: ws2
                ++ fence ++ post)
        by (repeat (rewrite <- app_assoc; simpl app); reflexivity).
      exact Hpre. }
  assert (Hmatch :
    regexMatch newsFenceRegex
      (fence ++ tag ++ ws1 ++ lbracket :: body ++ rbracket :: ws2
         ++ fence ++ trimEnd post)
    = Some (Some (lbracket :: body ++ [rbracket]))).
  { change (fence ++ tag ++ ws1 ++ lbracket :: body ++ rbracket :: ws2
              ++ fence ++ trimEnd post)
      with (backtick :: js "``" ++ tag ++ ws1 ++ lbracket :: body ++ rbracket :: ws2
              ++ fence ++ trimEnd post).
    cbn [regexMatch].
    change (backtick :: js "``" ++ tag ++ ws1 ++ lbracket :: body ++ rbracket :: ws2
              ++ fence ++ trimEnd post)
      with (fence ++ tag ++ ws1 ++ lbracket :: body ++ rbracket :: ws2
              ++ fence ++ trimEnd post).
    rewrite newsFence_block; auto using noLaterClosing_trimEnd. }
  rewrite Hmatch. reflexivity.
Qed.

Lemma fenced_array_extracted_witness :
  extractJsonText
    (trim (samplePythonThenJson
             ++ fence ++ js "json" ++ nl
             ++ lbracket :: js "1, 2" ++ rbracket :: nl ++ fence
             ++ nl ++ js "Let me know if you need more [sources]."))
  = inr (js "[1, 2]").
Proof.
  apply (fenced_array_extracted
           samplePythonThenJson (js "json") nl
           (js "1, 2") nl (nl ++ js "Let me know if you need more [sources].")).
  - apply noOpeningBeforeb_sound. vm_compute. reflexivity.
  - right; reflexivity.
  - repeat constructor.
  - repeat constructor.
  - apply noLaterClosing_no_backtick. vm_compute. intuition discriminate.
Defined.

(** C4 as the specification states it does not hold: with a second fenced
    block after the first, or with an opening fence and a bracket in the
    prose before, the pattern matches from the first fence to the last, and
    what is extracted is more than the array of either block. *)
Lemma fenced_array_not_exact :
  extractJsonText (trim (js "```json [1] ``` or, with sources: ```json [2] ```"))
  = inr (js "[1] ``` or, with sources: ```json [2]")
  /\ extractJsonText (trim (js "```json [1] ``` or, with sources: ```json [2] ```"))
     <> inr (js "[1]")
  /\ extractJsonText (trim (js "Fences look like ``` [ here. ```json [1] ```"))
     = inr (js "[ here. ```json [1]")
  /\ extractJsonText (trim (js "Fences look like ``` [ here. ```json [1] ```"))
     <> inr (js "[1]").
Proof.
  repeat split; try (vm_compute; reflexivity);
    vm_compute; intro H; discriminate H.
Qed.

(** The text handed to [JSON.parse] starts with a bracket. *)
Lemma extractJsonText_bracket (rawText jsonText : jsstring) :
  extractJsonText rawText = inr jsonText ->
  exists body, jsonText = lbracket :: body.
Proof.
  unfold extractJsonText.
  destruct (regexMatch newsFenceRegex rawText) as [m |] eqn:Hm.
  - apply regexMatch_inv in Hm. destruct Hm as (before & at_ & _ & Hat).
    apply newsFence_group in Hat. destruct Hat as (body & ->). simpl.
    intros H; inversion H; subst. exists body. reflexivity.
  - simpl.
    destruct (in_dec N.eq_dec lbracket rawText) as [Hin | Hnot].
    + destruct (first_occurrence lbracket rawText Hin) as (p & r & -> & Hp).
      rewrite (indexOf_first lbracket p r Hp).
      destruct ((Z.of_nat (List.length p) =? -1)%Z
                || (lastIndexOf rbracket (p ++ lbracket :: r) =? -1)%Z
                || (lastIndexOf rbracket (p ++ lbracket :: r)
                    <? Z.of_nat (List.length p))%Z) eqn:Hcond;
        [discriminate |].
      apply orb_false_iff in Hcond. destruct Hcond as [_ Hcond].
      apply Z.ltb_ge in Hcond.
      intros H; inversion H; subst. clear H.
      unfold substring.
      set (e := lastIndexOf rbracket (p ++ lbracket :: r)) in *.
      rewrite length_app. cbn [List.length].
      assert (He : (e < Z.of_nat (List.length p + S (List.length r)))%Z).
      { subst e. rewrite <- (app_nil_r (p ++ lbracket :: r)).
        pose proof (lastIndexOf_before rbracket (p ++ lbracket :: r) []
                      (fun H => H)) as Hb.
        rewrite length_app in Hb. cbn [List.length] in Hb. exact Hb. }
      replace (Z.min (Z.max (Z.of_nat (List.length p)) 0) _)
        with (Z.of_nat (List.length p)) by lia.
      replace (Z.min (Z.max (e + 1) 0) _) with (e + 1)%Z by lia.
      rewrite Z.min_l, Z.max_r by lia.
      rewrite Nat2Z.id, skipn_app, skipn_all, Nat.sub_diag. simpl skipn. simpl app.
      replace (Z.to_nat (e + 1 - Z.of_nat (List.length p)))
        with (S (Z.to_nat (e - Z.of_nat (List.length p)))) by lia.
      cbn [firstn]. eexists. reflexivity.
    + rewrite (indexOf_absent lbracket rawText Hnot). simpl. discriminate.
Qed.

(** ** JSON.parse *)

Lemma skipWhiteSpace_length (s : jsstring) :
  List.length (skipWhiteSpace s) <= List.length s.
Proof.
  induction s as [| c s IH]; simpl; [lia |].
  destruct (isJsonWhiteSpace c); simpl; lia.
Qed.

Lemma parseStringTail_length (s acc str r : jsstring) :
  parseStringTail s acc = Some (str, r) -> List.length r < List.length s.
Proof.
  remember (List.length s) as n eqn:Hn.
  revert s acc Hn. induction n as [n IH] using lt_wf_ind. intros s acc Hn H.
  destruct s as [| c rest]; [discriminate |]. simpl in Hn.
  cbn [parseStringTail] in H.
  destruct (c =? 34)%N.
  { inversion H; subst. lia. }
  destruct (c =? 92)%N.
  { destruct rest as [| e rest1]; [discriminate |].
    destruct (e =? 117)%N.
    - destruct rest1 as [| h1 [| h2 [| h3 [| h4 rest2]]]]; try discriminate.
      destruct (hexValue h1), (hexValue h2), (hexValue h3), (hexValue h4);
        try discriminate.
      apply (IH (List.length rest2)) in H; simpl in *; lia.
    - destruct (escapeChar e); [| discriminate].
      apply (IH (List.length rest1)) in H; simpl in *; lia. }
  destruct (c <? 32)%N; [discriminate |].
  apply (IH (List.length rest)) in H; simpl in *; lia.
Qed.

Lemma readDigits_length (s : jsstring) (acc : N) (count : nat) :
  let '(_, count', r) := readDigits s acc count in
  List.length r + count' = List.length s + count
  /\ List.length r <= List.length s.
Proof.
  revert acc count. induction s as [| c s IH]; intros acc count; simpl; [lia |].
  destruct (isDigit c); simpl; [| lia].
  specialize (IH (acc * 10 + (c - 48))%N (S count)).
  destruct (readDigits s (acc * 10 + (c - 48))%N (S count)) as [[m c'] r]. lia.
Qed.

Lemma parseInt_length (s r : jsstring) (m : N) :
  parseInt s = Some (m, r) -> List.length r < List.length s.
Proof.
  unfold parseInt. destruct s as [| c s]; [discriminate |].
  destruct (c =? 48)%N; [intros H; invert_some; simpl; lia |].
  destruct (isDigit c) eqn:Hc; [| discriminate].
  simpl readDigits. rewrite Hc. intros H. read_digits readDigits_length. invert_some. simpl. lia.
Qed.

Lemma parseFraction_length (s r : jsstring) (m m' : N) (scale : Z) :
  parseFraction m s = Some (m', scale, r) -> List.length r <= List.length s.
Proof.
  unfold parseFraction. destruct s as [| c s]; [intros H; invert_some; lia |].
  destruct (c =? 46)%N; [| intros H; invert_some; lia].
  intros H. read_digits readDigits_length. destruct n0; invert_some. simpl. lia.
Qed.

Lemma parseExponent_length (s r : jsstring) (e : Z) :
  parseExponent s = Some (e, r) -> List.length r <= List.length s.
Proof.
  unfold parseExponent. destruct s as [| c s]; [intros H; invert_some; lia |].
  destruct ((c =? 101)%N || (c =? 69)%N); [| intros H; invert_some; lia].
  destruct s as [| d s]; [discriminate |].
  destruct (d =? 43)%N; [| destruct (d =? 45)%N];
    intros H; read_digits readDigits_length; destruct n0; invert_some;
    simpl in *; lia.
Qed.

Lemma parseNumber_length (s r : jsstring) (n : number) :
  parseNumber s = Some (n, r) -> List.length r < List.length s.
Proof.
  unfold parseNumber. intros H.
  destruct (match s with
            | [] => (false, s)
            | c :: r0 => if (c =? 45)%N then (true, r0) else (false, s)
            end) as [neg s1] eqn:Hsign.
  assert (Hs1 : List.length s1 <= List.length s).
  { destruct s as [| c s]; [inversion Hsign; subst; lia |].
    destruct (c =? 45)%N; inversion Hsign; subst; simpl; lia. }
  destruct (parseInt s1) as [[m s2] |] eqn:Hint; [| discriminate].
  destruct (parseFraction m s2) as [[[m' scale] s3] |] eqn:Hfrac; [| discriminate].
  destruct (parseExponent s3) as [[e s4] |] eqn:Hexp; [| discriminate].
  invert_some.
  apply parseInt_length in Hint. apply parseFraction_length in Hfrac.
  apply parseExponent_length in Hexp. lia.
Qed.

Lemma expectLiteral_length (word s r : jsstring) (v v' : JSON) :
  word <> [] -> s <> [] ->
  expectLiteral word v s = Some (v', r) -> List.length r < List.length s.
Proof.
  unfold expectLiteral. intros Hw Hs H.
  destruct (startsWith s word); invert_some.
  destruct word as [| a word]; [contradiction |].
  destruct s as [| b s]; [contradiction |].
  simpl. pose proof (length_skipn (List.length word) s). lia.
Qed.

Lemma parse_fuel (F : nat) :
  (forall s v r,
      parseValue F s = Some (v, r) ->
      List.length r < List.length s
      /\ forall f, List.length s - List.length r <= f -> parseValue f s = Some (v, r))
  /\ (forall s l r,
         parseElements F s = Some (l, r) ->
         List.length r < List.length s
         /\ forall f, List.length s - List.length r <= f ->
                      parseElements f s = Some (l, r))
  /\ (forall s m r,
         parseMembers F s = Some (m, r) ->
         List.length r < List.length s
         /\ forall f, List.length s - List.length r <= f ->
                      parseMembers f s = Some (m, r)).
Proof.
  induction F as [| F (IHv & IHe & IHm)]; [repeat split; discriminate |].
  split; [| split].
  - intros s v r H. cbn [parseValue] in H.
    pose proof (skipWhiteSpace_length s) as Hs.
    destruct (skipWhiteSpace s) as [| c r0] eqn:Es; [discriminate |].
    destruct (c =? 123)%N eqn:E1.
    { pose proof (skipWhiteSpace_length r0) as Hr0.
      destruct (skipWhiteSpace r0) as [| d r'] eqn:Er0; [discriminate |].
      destruct (d =? 125)%N eqn:E2; [invert_some; enough_fuel |].
      destruct (parseMembers F (d :: r')) as [[m r''] |] eqn:Em; [| discriminate].
      invert_some. destruct (IHm _ _ _ Em) as [Hlen Hfuel]. enough_fuel. }
    destruct (c =? 91)%N eqn:E2.
    { pose proof (skipWhiteSpace_length r0) as Hr0.
      destruct (skipWhiteSpace r0) as [| d r'] eqn:Er0; [discriminate |].
      destruct (d =? 93)%N eqn:E3; [invert_some; enough_fuel |].
      destruct (parseElements F (d :: r')) as [[l r''] |] eqn:Ee; [| discriminate].
      invert_some. destruct (IHe _ _ _ Ee) as [Hlen Hfuel]. enough_fuel. }
    destruct (c =? 34)%N eqn:E3.
    { destruct (parseStringTail r0 []) as [[str r'] |] eqn:Estr; [| discriminate].
      invert_some. apply parseStringTail_length in Estr as Hlen. enough_fuel. }
    destruct (c =? 116)%N eqn:E4.
    { apply expectLiteral_length in H as Hlen; try discriminate. enough_fuel. }
    destruct (c =? 102)%N eqn:E5.
    { apply expectLiteral_length in H as Hlen; try discriminate. enough_fuel. }
    destruct (c =? 110)%N eqn:E6.
    { apply expectLiteral_length in H as Hlen; try discriminate. enough_fuel. }
    destruct (parseNumber (c :: r0)) as [[n r'] |] eqn:En; [| discriminate].
    invert_some. apply parseNumber_length in En as Hlen. enough_fuel.
  - intros s l r H. cbn [parseElements] in H.
    destruct (parseValue F s) as [[v r0] |] eqn:Ev; [| discriminate].
    destruct (IHv _ _ _ Ev) as [Hlen Hfuel].
    pose proof (skipWhiteSpace_length r0) as Hr0.
    destruct (skipWhiteSpace r0) as [| c r'] eqn:Er0; [discriminate |].
    destruct (c =? 93)%N eqn:E1; [invert_some; enough_fuel |].
    destruct (c =? 44)%N eqn:E2; [| discriminate].
    destruct (parseElements F r') as [[l' r''] |] eqn:Ee; [| discriminate].
    invert_some. destruct (IHe _ _ _ Ee) as [Hlen' Hfuel']. enough_fuel.
  - intros s m r H. cbn [parseMembers] in H.
    pose proof (skipWhiteSpace_length s) as Hs.
    destruct (skipWhiteSpace s) as [| q r0] eqn:Es; [discriminate |].
    destruct (q =? 34)%N eqn:E1; [| discriminate].
    destruct (parseStringTail r0 []) as [[key r1] |] eqn:Ekey; [| discriminate].
    apply parseStringTail_length in Ekey as Hkey.
    pose proof (skipWhiteSpace_length r1) as Hr1.
    destruct (skipWhiteSpace r1) as [| colon r2] eqn:Er1; [discriminate |].
    destruct (colon =? 58)%N eqn:E2; [| discriminate].
    destruct (parseValue F r2) as [[v r3] |] eqn:Ev; [| discriminate].
    destruct (IHv _ _ _ Ev) as [Hlen Hfuel].
    pose proof (skipWhiteSpace_length r3) as Hr3.
    destruct (skipWhiteSpace r3) as [| c r4] eqn:Er3; [discriminate |].
    destruct (c =? 125)%N eqn:E3; [invert_some; enough_fuel |].
    destruct (c =? 44)%N eqn:E4; [| discriminate].
    destruct (parseMembers F r4) as [[m' r5] |] eqn:Em; [| discriminate].
    invert_some. destruct (IHm _ _ _ Em) as [Hlen' Hfuel']. enough_fuel.
Qed.

(** More fuel than the entry point gives changes nothing: no text is
    rejected for lack of fuel. *)
Lemma parseValue_fuel (f : nat) (s : jsstring) :
  List.length s < f -> parseValue f s = parseValue (S (List.length s)) s.
Proof.
  intros Hf.
  destruct (parseValue (S (List.length s)) s) as [[v r] |] eqn:Hsmall.
  - destruct (parse_fuel (S (List.length s))) as (Hv & _ & _).
    destruct (Hv s v r Hsmall) as [_ Hfuel]. apply Hfuel. lia.
  - destruct (parseValue f s) as [[v r] |] eqn:Hbig; [| reflexivity].
    destruct (parse_fuel f) as (Hv & _ & _).
    destruct (Hv s v r Hbig) as [_ Hfuel].
    rewrite Hfuel in Hsmall by lia. discriminate.
Qed.

(** [JSON.parse] with any larger amount of fuel gives the same answer. *)
Lemma JSON_parse_fuel (f : nat) (text : jsstring) :
  List.length text < f ->
  match parseValue f text with
  | Some (v, rest) =>
      match skipWhiteSpace rest with
      | [] => Some v
      | _ :: _ => None
      end
  | None => None
  end = JSON_parse text.
Proof.
  intros Hf. unfold JSON_parse. rewrite (parseValue_fuel f text Hf). reflexivity.
Qed.

(** A text that starts with a bracket parses to an array or not at all. *)
Lemma JSON_parse_bracket (body : jsstring) (v : JSON) :
  JSON_parse (lbracket :: body) = Some v -> exists l, v = JArray l.
Proof.
  unfold JSON_parse. intros H.
  destruct (parseValue (S (List.length (lbracket :: body))) (lbracket :: body))
    as [[v' rest] |] eqn:Hp; [| discriminate].
  assert (Hv : exists l, v' = JArray l).
  { cbn [parseValue] in Hp.
    change (skipWhiteSpace (lbracket :: body)) with (lbracket :: body) in Hp.
    change ((lbracket =? 123)%N) with false in Hp.
    change ((lbracket =? 91)%N) with true in Hp.
    cbv iota in Hp.
    destruct (skipWhiteSpace body) as [| d r']; [discriminate |].
    destruct (d =? 93)%N; [inversion Hp; eauto |].
    destruct (parseElements (List.length (lbracket :: body)) (d :: r'))
      as [[l r''] |]; [| discriminate].
    inversion Hp; eauto. }
  destruct Hv as (l & ->).
  destruct (skipWhiteSpace rest); [| discriminate].
  inversion H; eauto.
Qed.

(** ** The service functions *)

(** [JSON.stringify] either lets the value through or throws. *)
Lemma JSON_stringify_returns (engine : Engine) (value : JSON) :
  stringifyThrows engine value = None -> JSON_stringify engine value = inr value.
Proof. intros H. unfold JSON_stringify. rewrite H. reflexivity. Qed.

Lemma JSON_stringify_throws (engine : Engine) (value : JSON) (e : exn) :
  stringifyThrows engine value = Some e -> JSON_stringify engine value = inl e.
Proof. intros H. unfold JSON_stringify. rewrite H. reflexivity. Qed.

(** A service function issues one request, whatever comes back, unless it
    fails to build its prompt; then it issues none. *)
Lemma fetchTrendingNews_trace (ai : AI) (ts : list jsstring) (n : Z)
      (trace : list Request) :
  snd (fetchTrendingNews ai ts n trace)
  = trace ++ [GenerateContent (NewsPrompt ts n) true].
Proof.
  unfold fetchTrendingNews, tryCatch, bind, callGenerateContent, liftExn,
    throw, ret; simpl.
  repeat break_match; reflexivity.
Qed.

Lemma generateNewsletter_trace (engine : Engine) (ai : AI) (a : JSON)
      (o : GenerationOptions) (trace : list Request) :
  snd (generateNewsletter engine ai a o trace)
  = match stringifyThrows engine a with
    | Some _ => trace
    | None => trace ++ [GenerateContent (NewsletterPrompt a o) false]
    end.
Proof.
  unfold generateNewsletter, JSON_stringify, tryCatch, bind, callGenerateContent,
    liftExn, throw, ret; simpl.
  destruct (stringifyThrows engine a); simpl; [reflexivity |].
  repeat break_match; reflexivity.
Qed.

(** The prompt cannot be built: what [JSON.stringify] threw is thrown on and
    no request is issued. *)
Lemma generateNewsletter_unbuilt (engine : Engine) (ai : AI) (a : JSON)
      (o : GenerationOptions) (trace : list Request) (e : exn) :
  stringifyThrows engine a = Some e ->
  generateNewsletter engine ai a o trace = (inl e, trace).
Proof.
  intros H. unfold generateNewsletter, JSON_stringify, bind, liftExn.
  rewrite H. reflexivity.
Qed.

(** A call that returned has built its prompt and issued its request. *)
Lemma generateNewsletter_returned (engine : Engine) (ai : AI) (a : JSON)
      (o : GenerationOptions) (trace : list Request) (html : jsstring) :
  fst (generateNewsletter engine ai a o trace) = inr html ->
  stringifyThrows engine a = None
  /\ snd (generateNewsletter engine ai a o trace)
     = trace ++ [GenerateContent (NewsletterPrompt a o) false].
Proof.
  intros H. rewrite generateNewsletter_trace.
  destruct (stringifyThrows engine a) as [e |] eqn:He; [| split; reflexivity].
  rewrite (generateNewsletter_unbuilt engine ai a o trace e He) in H.
  discriminate H.
Qed.

Lemma generateHeaderImage_trace (ai : AI) (p : ImagePrompt) (trace : list Request) :
  snd (generateHeaderImage ai p trace) = trace ++ [GenerateImages p].
Proof.
  unfold generateHeaderImage, tryCatch, bind, callGenerateImages, throw, ret; simpl.
  repeat break_match; reflexivity.
Qed.

Lemma refineNewsletter_trace (engine : Engine) (ai : AI) (h : jsstring) (a : JSON)
      (p : jsstring) (trace : list Request) :
  snd (refineNewsletter engine ai h a p trace)
  = match stringifyThrows engine a with
    | Some _ => trace
    | None => trace ++ [GenerateContent (RefinementPrompt h a p) false]
    end.
Proof.
  unfold refineNewsletter, JSON_stringify, tryCatch, bind, callGenerateContent,
    liftExn, throw, ret; simpl.
  destruct (stringifyThrows engine a); simpl; [reflexivity |].
  repeat break_match; reflexivity.
Qed.

Lemma refineNewsletter_unbuilt (engine : Engine) (ai : AI) (h : jsstring) (a : JSON)
      (p : jsstring) (trace : list Request) (e : exn) :
  stringifyThrows engine a = Some e ->
  refineNewsletter engine ai h a p trace = (inl e, trace).
Proof.
  intros H. unfold refineNewsletter, JSON_stringify, bind, liftExn.
  rewrite H. reflexivity.
Qed.

Lemma refineNewsletter_returned (engine : Engine) (ai : AI) (h : jsstring) (a : JSON)
      (p : jsstring) (trace : list Request) (result : jsstring) :
  fst (refineNewsletter engine ai h a p trace) = inr result ->
  stringifyThrows engine a = None
  /\ snd (refineNewsletter engine ai h a p trace)
     = trace ++ [GenerateContent (RefinementPrompt h a p) false].
Proof.
  intros H. rewrite refineNewsletter_trace.
  destruct (stringifyThrows engine a) as [e |] eqn:He; [| split; reflexivity].
  rewrite (refineNewsletter_unbuilt engine ai h a p trace e He) in H.
  discriminate H.
Qed.

(** What the service functions can throw. *)
Lemma fetchTrendingNews_error (ai : AI) (ts : list jsstring) (n : Z)
      (trace : list Request) (e : exn) :
  fst (fetchTrendingNews ai ts n trace) = inl e ->
  e = Error msgParseFailed \/ e = Error msgFetchFailed.
Proof.
  unfold fetchTrendingNews, tryCatch, bind, callGenerateContent, liftExn,
    throw, ret; cbn [fst snd].
  repeat break_match; intros H; inversion H; auto.
Qed.

Lemma generateNewsletter_error (engine : Engine) (ai : AI) (a : JSON)
      (o : GenerationOptions) (trace : list Request) (e : exn) :
  fst (generateNewsletter engine ai a o trace) = inl e ->
  e = Error msgNewsletterFailed \/ stringifyThrows engine a = Some e.
Proof.
  unfold generateNewsletter, JSON_stringify, tryCatch, bind, callGenerateContent,
    liftExn, throw, ret; cbn [fst snd].
  destruct (stringifyThrows engine a) as [e0 |]; cbn [fst snd].
  - intros H; inversion H; auto.
  - repeat break_match; intros H; inversion H; auto.
Qed.

Lemma generateHeaderImage_error (ai : AI) (p : ImagePrompt)
      (trace : list Request) (e : exn) :
  fst (generateHeaderImage ai p trace) = inl e -> e = Error msgImageFailed.
Proof.
  unfold generateHeaderImage, tryCatch, bind, callGenerateImages, throw, ret;
    cbn [fst snd].
  repeat break_match; intros H; inversion H; auto.
Qed.

Lemma refineNewsletter_error (engine : Engine) (ai : AI) (h : jsstring) (a : JSON)
      (p : jsstring) (trace : list Request) (e : exn) :
  fst (refineNewsletter engine ai h a p trace) = inl e ->
  e = Error msgRefinementFailed \/ stringifyThrows engine a = Some e.
Proof.
  unfold refineNewsletter, JSON_stringify, tryCatch, bind, callGenerateContent,
    liftExn, throw, ret; cbn [fst snd].
  destruct (stringifyThrows engine a) as [e0 |]; cbn [fst snd].
  - intros H; inversion H; auto.
  - repeat break_match; intros H; inversion H; auto.
Qed.

(** What [fetchTrendingNews] makes of each answer of the service.  When the
    client throws, the message is chosen by the class of what was thrown: a
    [SyntaxError] of the client is reported as a parse failure of the news
    data. *)
Lemma fetchTrendingNews_throws (ai : AI) (ts : list jsstring) (n : Z)
      (trace : list Request) (e : exn) :
  generateContent ai trace (NewsPrompt ts n) true = inl e ->
  fst (fetchTrendingNews ai ts n trace)
  = inl (Error (if instanceofSyntaxError e then msgParseFailed else msgFetchFailed)).
Proof.
  intros H.
  unfold fetchTrendingNews, tryCatch, bind, callGenerateContent; simpl.
  rewrite H. destruct (instanceofSyntaxError e); reflexivity.
Qed.

Lemma fetchTrendingNews_throws_witness :
  fst (fetchTrendingNews garbledAI [js "Quantum Computing"] 1 [])
  = inl (Error msgParseFailed)
  /\ fst (fetchTrendingNews offlineAI [js "Quantum Computing"] 1 [])
     = inl (Error msgFetchFailed).
Proof.
  split.
  - apply (fetchTrendingNews_throws garbledAI [js "Quantum Computing"] 1 []
             (SyntaxError (js "Unexpected end of JSON input"))).
    reflexivity.
  - apply (fetchTrendingNews_throws offlineAI [js "Quantum Computing"] 1 []
             (Error (js "fetch failed"))).
    reflexivity.
Defined.

Lemma fetchTrendingNews_no_array (ai : AI) (ts : list jsstring) (n : Z)
      (trace : list Request) (text : jsstring) (e : jsstring) :
  generateContent ai trace (NewsPrompt ts n) true = inr (Some text) ->
  extractJsonText (trim text) = inl (Error e) ->
  fst (fetchTrendingNews ai ts n trace) = inl (Error msgFetchFailed).
Proof.
  intros H He.
  unfold fetchTrendingNews, tryCatch, bind, callGenerateContent, liftExn; simpl.
  rewrite H; simpl. rewrite He; reflexivity.
Qed.

Lemma fetchTrendingNews_syntax_error (ai : AI) (ts : list jsstring) (n : Z)
      (trace : list Request) (text jsonText : jsstring) :
  generateContent ai trace (NewsPrompt ts n) true = inr (Some text) ->
  extractJsonText (trim text) = inr jsonText ->
  JSON_parse jsonText = None ->
  fst (fetchTrendingNews ai ts n trace) = inl (Error msgParseFailed).
Proof.
  intros H He Hp.
  unfold fetchTrendingNews, tryCatch, bind, callGenerateContent, liftExn,
    parseJson; simpl.
  rewrite H; simpl. rewrite He; simpl. rewrite Hp; reflexivity.
Qed.

Lemma fetchTrendingNews_empty_array (ai : AI) (ts : list jsstring) (n : Z)
      (trace : list Request) (text jsonText : jsstring) :
  generateContent ai trace (NewsPrompt ts n) true = inr (Some text) ->
  extractJsonText (trim text) = inr jsonText ->
  JSON_parse jsonText = Some (JArray []) ->
  fst (fetchTrendingNews ai ts n trace) = inl (Error msgFetchFailed).
Proof.
  intros H He Hp.
  unfold fetchTrendingNews, tryCatch, bind, callGenerateContent, liftExn,
    parseJson; simpl.
  rewrite H; simpl. rewrite He; simpl. rewrite Hp; reflexivity.
Qed.

Lemma fetchTrendingNews_array (ai : AI) (ts : list jsstring) (n : Z)
      (trace : list Request) (text jsonText : jsstring) (a : JSON) (l : list JSON) :
  generateContent ai trace (NewsPrompt ts n) true = inr (Some text) ->
  extractJsonText (trim text) = inr jsonText ->
  JSON_parse jsonText = Some (JArray (a :: l)) ->
  fetchTrendingNews ai ts n trace
  = (inr (JArray (a :: l)), trace ++ [GenerateContent (NewsPrompt ts n) true]).
Proof.
  intros H He Hp.
  unfold fetchTrendingNews, tryCatch, bind, callGenerateContent, liftExn,
    parseJson; simpl.
  rewrite H; simpl. rewrite He; simpl. rewrite Hp; reflexivity.
Qed.

(** Whatever [fetchTrendingNews] returns has a non-zero [length]: the
    empty-result branch of [handleGenerateNewsletter] is never taken. *)
Lemma fetchTrendingNews_returns_nonempty (ai : AI) (ts : list jsstring) (n : Z)
      (trace : list Request) (v : JSON) :
  fst (fetchTrendingNews ai ts n trace) = inr v ->
  lengthIsZero v = inr false.
Proof.
  unfold fetchTrendingNews, tryCatch, bind, callGenerateContent, liftExn,
    throw, ret, noArticles; simpl.
  repeat break_match; intros H; try discriminate H;
    repeat match goal with
           | E : (_, _) = (_, _) |- _ => inversion E; clear E; subst
           end;
    try discriminate; inversion H; subst; assumption.
Qed.

(** What [fetchTrendingNews] returns is a non-empty array. *)
Lemma fetchTrendingNews_returns_array (ai : AI) (ts : list jsstring) (n : Z)
      (trace : list Request) (v : JSON) :
  fst (fetchTrendingNews ai ts n trace) = inr v ->
  exists a l, v = JArray (a :: l).
Proof.
  unfold fetchTrendingNews, tryCatch, bind, callGenerateContent, liftExn,
    throw, ret, parseJson, noArticles; simpl.
  destruct (generateContent ai trace (NewsPrompt ts n) true) as [e | text]; simpl.
  { destruct (instanceofSyntaxError e); discriminate. }
  destruct (textTrim text) as [e | rawText]; simpl.
  { destruct (instanceofSyntaxError e); discriminate. }
  destruct (extractJsonText rawText) as [e | jsonText] eqn:Hextract; simpl.
  { destruct (instanceofSyntaxError e); discriminate. }
  apply extractJsonText_bracket in Hextract. destruct Hextract as (body & ->).
  destruct (JSON_parse (lbracket :: body)) as [v' |] eqn:Hparse; simpl;
    [| discriminate].
  apply JSON_parse_bracket in Hparse. destruct Hparse as ([| a l] & ->); simpl;
    [discriminate |].
  intros H; inversion H. eauto.
Qed.

(** ** News fetch *)

(** C10: [fetchTrendingNews] returns any non-empty array that [JSON.parse]
    yields, whatever its elements are; [handleGenerateNewsletter] stores it
    and hands it to [generateNewsletter]: the document is what that call
    returns for this array, and when the prompt can be built the draft
    request carries the array. *)
Theorem news_array_not_validated
        (engine : Engine) (ai : AI) (s : State) (trace : list Request)
        (text jsonText : jsstring) (a : JSON) (l : list JSON) :
  let ts := topics (form s) in
  let n := minArticles (form s) in
  let news := GenerateContent (NewsPrompt ts n) true in
  let s' := fst (run (handleGenerateNewsletter engine ai) s trace) in
  ts <> [] ->
  generateContent ai trace (NewsPrompt ts n) true = inr (Some text) ->
  extractJsonText (trim text) = inr jsonText ->
  JSON_parse jsonText = Some (JArray (a :: l)) ->
  fst (fetchTrendingNews ai ts n trace) = inr (JArray (a :: l))
  /\ articles s' = JArray (a :: l)
  /\ newsletterHtml s'
     = match fst (generateNewsletter engine ai (JArray (a :: l))
                                     (newsletterOptions (form s)) (trace ++ [news])) with
       | inr html => Some html
       | inl _ => None
       end
  /\ (stringifyThrows engine (JArray (a :: l)) = None ->
      exists rest,
        snd (run (handleGenerateNewsletter engine ai) s trace)
        = trace
          ++ [news;
              GenerateContent (NewsletterPrompt (JArray (a :: l))
                                                (newsletterOptions (form s))) false]
          ++ rest).
Proof.
  intros ts n news s' Hts Hreply Hextract Hparse.
  pose proof (fetchTrendingNews_array ai ts n trace text jsonText a l
                Hreply Hextract Hparse) as Hfetch.
  split; [rewrite Hfetch; reflexivity |].
  subst s' news. unfold_handler. fold ts n.
  destruct ts as [| t ts'] eqn:Ets; [contradiction |]. simpl.
  rewrite Hfetch; simpl.
  pose proof (generateNewsletter_trace engine ai (JArray (a :: l))
                (newsletterOptions (form s))
                (trace ++ [GenerateContent (NewsPrompt (t :: ts') n) true])) as Hdraft.
  destruct (generateNewsletter engine ai (JArray (a :: l)) (newsletterOptions (form s))
              (trace ++ [GenerateContent (NewsPrompt (t :: ts') n) true]))
    as [[e | html] trace1]; simpl in *; subst trace1.
  - split; [reflexivity |]. split; [reflexivity |].
    intros Hbuilt. rewrite Hbuilt. exists []. rewrite <- app_assoc. reflexivity.
  - destruct (shouldGenerateImage (form s)); simpl.
    + match goal with
      | |- context [generateHeaderImage ai ?p ?t] =>
          pose proof (generateHeaderImage_trace ai p t) as Himg;
          destruct (generateHeaderImage ai p t) as [[e | bytes] trace2]
      end; simpl in *; subst trace2;
        (split; [reflexivity |]); (split; [reflexivity |]);
        intros Hbuilt; rewrite Hbuilt;
        exists [GenerateImages (imagePromptOf (form s))];
        rewrite <- !app_assoc; reflexivity.
    + split; [reflexivity |]. split; [reflexivity |].
      intros Hbuilt. rewrite Hbuilt. exists []. rewrite <- app_assoc. reflexivity.
Qed.

Lemma news_array_not_validated_witness :
  fst (fetchTrendingNews (cannedAI (js "[{}]") (js "AAAA")) [js "Quantum Computing"] 1 [])
  = inr (JArray [JObject []])
  /\ articles (fst (run (handleGenerateNewsletter roomyEngine
                                                  (cannedAI (js "[{}]") (js "AAAA")))
                        (initialState sampleForm) []))
     = JArray [JObject []]
  /\ newsletterHtml (fst (run (handleGenerateNewsletter roomyEngine
                                                        (cannedAI (js "[{}]") (js "AAAA")))
                              (initialState sampleForm) []))
     = Some (js "[{}]")
  /\ snd (run (handleGenerateNewsletter roomyEngine (cannedAI (js "[{}]") (js "AAAA")))
              (initialState sampleForm) [])
     = [GenerateContent (NewsPrompt [js "Quantum Computing"] 1) true;
        GenerateContent (NewsletterPrompt (JArray [JObject []])
                                          (newsletterOptions sampleForm)) false;
        GenerateImages (imagePromptOf sampleForm)].
Proof.
  destruct (news_array_not_validated roomyEngine (cannedAI (js "[{}]") (js "AAAA"))
              (initialState sampleForm) [] (js "[{}]") (js "[{}]")
              (JObject []) [])
    as (Hfetch & Harticles & Hhtml & Hrequests);
    [simpl; discriminate | reflexivity | vm_compute; reflexivity
     | vm_compute; reflexivity |].
  split; [exact Hfetch |]. split; [exact Harticles |].
  split; [rewrite Hhtml; vm_compute; reflexivity |].
  vm_compute. reflexivity.
Defined.

(** C2 (the code at a failing input): an answer without any bracket makes
    the extraction step throw its own message, but the [catch] of
    [fetchTrendingNews] replaces it: what the caller gets is the message of a
    failed call, the same as when the service is unreachable.  Only a
    [SyntaxError] keeps a message of its own. *)
Theorem extraction_error_reported_as_fetch_failure :
  extractJsonText (trim (js "I could not find any news today."))
  = inl (Error msgNoArray)
  /\ fst (fetchTrendingNews (cannedAI (js "I could not find any news today.") [])
                            [js "Quantum Computing"] 1 [])
     = inl (Error msgFetchFailed)
  /\ fst (fetchTrendingNews offlineAI [js "Quantum Computing"] 1 [])
     = inl (Error msgFetchFailed)
  /\ fst (fetchTrendingNews (cannedAI (js "[1, 2") []) [js "Quantum Computing"] 1 [])
     = inl (Error msgFetchFailed)
  /\ fst (fetchTrendingNews (cannedAI (js "[1, 2,]") []) [js "Quantum Computing"] 1 [])
     = inl (Error msgParseFailed)
  /\ msgNoArray <> msgFetchFailed
  /\ msgParseFailed <> msgFetchFailed.
Proof.
  repeat split; try (vm_compute; reflexivity);
    vm_compute; intro H; discriminate H.
Qed.

(** C3 (the code at a failing input): an answer that is the empty array is
    rejected and the cycle stops after the news request, but the message
    recorded is the one of a failed call, not one of the two messages the
    code has for an empty result. *)
Theorem empty_array_reported_as_fetch_failure :
  extractJsonText (trim (js "[]")) = inr (js "[]")
  /\ JSON_parse (js "[]") = Some (JArray [])
  /\ fst (fetchTrendingNews (cannedAI (js "[]") []) [js "Quantum Computing"] 1 [])
     = inl (Error msgFetchFailed)
  /\ run (handleGenerateNewsletter roomyEngine (cannedAI (js "[]") [])) (initialState sampleForm) []
     = (setError (Some msgFetchFailed) (initialState sampleForm),
        [GenerateContent (NewsPrompt [js "Quantum Computing"] 1) true])
  /\ run (handleGenerateNewsletter roomyEngine offlineAI) (initialState sampleForm) []
     = (setError (Some msgFetchFailed) (initialState sampleForm),
        [GenerateContent (NewsPrompt [js "Quantum Computing"] 1) true])
  /\ msgFetchFailed <> msgNoArticles
  /\ msgFetchFailed <> msgNoNews.
Proof.
  repeat split; try (vm_compute; reflexivity);
    vm_compute; intro H; discriminate H.
Qed.

(** ** Entry guards *)

(** C7: with an empty topic list, [handleGenerateNewsletter] issues no
    request and records the validation message in [error]; every other
    field of the state is as before. *)
Theorem generate_without_topic
        (engine : Engine) (ai : AI) (s : State) (trace : list Request) :
  let s' := fst (run (handleGenerateNewsletter engine ai) s trace) in
  topics (form s) = [] ->
  snd (run (handleGenerateNewsletter engine ai) s trace) = trace
  /\ error s' = Some msgNoTopic
  /\ form s' = form s
  /\ newsletterHtml s' = newsletterHtml s
  /\ headerImageUrl s' = headerImageUrl s
  /\ articles s' = articles s
  /\ refinementPrompt s' = refinementPrompt s
  /\ loadingAction s' = loadingAction s
  /\ loadingMessage s' = loadingMessage s.
Proof.
  intros s' Htopics. subst s'.
  unfold run, handleGenerateNewsletter, bind, getState, set; simpl.
  rewrite Htopics; simpl. repeat split; reflexivity.
Qed.

Lemma generate_without_topic_witness :
  snd (run (handleGenerateNewsletter roomyEngine offlineAI) sampleDocumentNoTopic []) = []
  /\ error (fst (run (handleGenerateNewsletter roomyEngine offlineAI)
                     sampleDocumentNoTopic []))
     = Some (js "Please add at least one topic.")
  /\ newsletterHtml (fst (run (handleGenerateNewsletter roomyEngine offlineAI)
                              sampleDocumentNoTopic []))
     = Some (js "<h1>Title</h1><p>Body</p>")
  /\ headerImageUrl (fst (run (handleGenerateNewsletter roomyEngine offlineAI)
                              sampleDocumentNoTopic []))
     = Some (js "data:image/png;base64,AAAA")
  /\ refinementPrompt (fst (run (handleGenerateNewsletter roomyEngine offlineAI)
                                sampleDocumentNoTopic []))
     = js "make the intro more exciting".
Proof.
  destruct (generate_without_topic roomyEngine offlineAI sampleDocumentNoTopic []
              eq_refl)
    as (Hrequests & Herror & _ & Hhtml & Himage & _ & Hprompt & _).
  split; [exact Hrequests |]. split; [exact Herror |].
  split; [exact Hhtml |]. split; [exact Himage | exact Hprompt].
Defined.

(** C1 (as the code has it): while a cycle is active both buttons are
    disabled, so a click starts nothing: no request is issued and the state
    is unchanged.  The guard is the [disabled] attribute of the buttons; the
    handlers themselves do not look at [loadingAction]. *)
Theorem click_while_loading_is_noop
        (engine : Engine) (ai : AI) (s : State) (trace : list Request) :
  loadingAction s <> None ->
  run (clickGenerate engine ai) s trace = (s, trace)
  /\ run (clickRefine engine ai) s trace = (s, trace).
Proof.
  intros Hbusy.
  assert (Hl : isLoading s = true).
  { unfold isLoading. destruct (loadingAction s); [reflexivity | contradiction]. }
  unfold run, clickGenerate, clickRefine, generateDisabled, refineDisabled,
    bind, getState; simpl.
  rewrite Hl; simpl.
  rewrite orb_true_r. split; reflexivity.
Qed.

Lemma click_while_loading_is_noop_witness :
  run (clickGenerate roomyEngine offlineAI) sampleRefining [] = (sampleRefining, [])
  /\ run (clickRefine roomyEngine offlineAI) sampleRefining [] = (sampleRefining, []).
Proof.
  apply (click_while_loading_is_noop roomyEngine offlineAI sampleRefining []).
  simpl. discriminate.
Defined.

(** C1 as the specification states it does not hold: called while a
    refinement is in flight, [handleGenerateNewsletter] starts a cycle (it
    issues the news request and clears the document), and
    [handleRefineNewsletter] issues a refinement request. *)
Lemma handlers_not_guarded :
  loadingAction sampleRefining <> None
  /\ snd (run (handleGenerateNewsletter roomyEngine offlineAI) sampleRefining [])
     = [GenerateContent (NewsPrompt [js "Quantum Computing"] 1) true]
  /\ newsletterHtml (fst (run (handleGenerateNewsletter roomyEngine offlineAI) sampleRefining []))
     = None
  /\ run (handleGenerateNewsletter roomyEngine offlineAI) sampleRefining [] <> (sampleRefining, [])
  /\ run (handleRefineNewsletter roomyEngine offlineAI) sampleRefining [] <> (sampleRefining, []).
Proof.
  split; [simpl; discriminate |].
  split; [vm_compute; reflexivity |].
  split; [vm_compute; reflexivity |].
  split; vm_compute; intro H; discriminate H.
Qed.

(** ** Generation *)

(** Past the topic check, nothing of the previous document, image, article
    list, error or loading flags has any influence on the outcome. *)
Lemma generate_ignores_previous_document
      (engine : Engine) (ai : AI) (s s2 : State) (trace : list Request) :
  topics (form s) <> [] ->
  form s2 = form s ->
  refinementPrompt s2 = refinementPrompt s ->
  run (handleGenerateNewsletter engine ai) s2 trace
  = run (handleGenerateNewsletter engine ai) s trace.
Proof.
  intros Hts Hform Hprompt.
  destruct s as [f h i a p la lm er], s2 as [f2 h2 i2 a2 p2 la2 lm2 er2].
  simpl in *; subst f2 p2.
  unfold_handler.
  destruct (topics f); [contradiction |]. reflexivity.
Qed.

(** C9: when [handleGenerateNewsletter] gets past the topic check and ends
    with an error, the header image is empty; the article list is empty or
    the one just fetched; the document is empty, or the draft just produced
    when only the image request failed.  The previous document is lost in
    every case: the outcome is the same as from a state without it. *)
Theorem failed_generation_loses_document
        (engine : Engine) (ai : AI) (s : State) (trace : list Request) :
  let f := form s in
  let s' := fst (run (handleGenerateNewsletter engine ai) s trace) in
  topics f <> [] ->
  error s' <> None ->
  headerImageUrl s' = None
  /\ match fetchTrendingNews ai (topics f) (minArticles f) trace with
     | (inl _, _) => newsletterHtml s' = None /\ articles s' = JArray []
     | (inr fetched, trace1) =>
         articles s' = fetched
         /\ match generateNewsletter engine ai fetched (newsletterOptions f) trace1 with
            | (inl _, _) => newsletterHtml s' = None
            | (inr draft, _) => newsletterHtml s' = Some draft
            end
     end
  /\ run (handleGenerateNewsletter engine ai) s trace
     = run (handleGenerateNewsletter engine ai)
           (setArticles (JArray []) (setHeaderImageUrl None (setNewsletterHtml None s)))
           trace.
Proof.
  intros f s' Hts Herr.
  assert (Hsame : run (handleGenerateNewsletter engine ai) s trace
                  = run (handleGenerateNewsletter engine ai)
                        (setArticles (JArray [])
                           (setHeaderImageUrl None (setNewsletterHtml None s))) trace).
  { symmetry. apply generate_ignores_previous_document; auto. }
  split; [| split; [| exact Hsame]]; clear Hsame;
    revert Herr; subst s'; unfold_handler; fold f;
    (destruct (topics f) as [| t ts] eqn:Et; [contradiction |]); simpl;
    pose proof (fetchTrendingNews_returns_nonempty ai (t :: ts) (minArticles f) trace)
      as Hnonempty;
    (destruct (fetchTrendingNews ai (t :: ts) (minArticles f) trace)
      as [[e | fetched] trace1]); simpl; auto;
    rewrite (Hnonempty fetched eq_refl); simpl;
    (destruct (generateNewsletter engine ai fetched (newsletterOptions f) trace1)
      as [[e | draft] trace2]); simpl; auto;
    destruct (shouldGenerateImage f); simpl;
    try (destruct (generateHeaderImage ai (imagePromptOf f) trace2)
          as [[e | bytes] trace3]; simpl);
    auto; intros Herr; exfalso; apply Herr; reflexivity.
Qed.

Lemma failed_generation_loses_document_witness :
  headerImageUrl (fst (run (handleGenerateNewsletter roomyEngine
                              (scriptedAI [js "[1]"; js "<h1>Draft</h1>"]))
                           sampleDocument []))
  = None
  /\ newsletterHtml (fst (run (handleGenerateNewsletter roomyEngine
                                (scriptedAI [js "[1]"; js "<h1>Draft</h1>"]))
                             sampleDocument []))
     = Some (js "<h1>Draft</h1>")
  /\ newsletterHtml (fst (run (handleGenerateNewsletter roomyEngine offlineAI) sampleDocument []))
     = None.
Proof.
  pose proof (failed_generation_loses_document roomyEngine
                (scriptedAI [js "[1]"; js "<h1>Draft</h1>"]) sampleDocument []) as H1.
  pose proof (failed_generation_loses_document roomyEngine offlineAI sampleDocument []) as H2.
  simpl in H1, H2.
  destruct H1 as (Himg & Hdoc & _);
    [discriminate | vm_compute; discriminate |].
  destruct H2 as (_ & Hdoc2 & _);
    [discriminate | vm_compute; discriminate |].
  split; [exact Himg |].
  split; [exact (proj2 Hdoc) | exact (proj1 Hdoc2)].
Defined.

(** ** Refinement *)

(** C6: after a refinement that ends without an error, either the answer
    was object-shaped, and then it parsed to an image directive, the image
    request for its prompt succeeded, the header image is the new one and
    the document body and the articles are the previous ones; or the answer
    was not object-shaped, and then it is the new document body, verbatim,
    and the header image and the articles are the previous ones. *)
Theorem refinement_replaces_one_field
        (engine : Engine) (ai : AI) (s : State) (trace : list Request)
        (c : N) (html result : jsstring) :
  let s' := fst (run (handleRefineNewsletter engine ai) s trace) in
  let trace1 := trace ++ [GenerateContent
                            (RefinementPrompt (c :: html) (articles s)
                                              (refinementPrompt s)) false] in
  trim (refinementPrompt s) <> [] ->
  newsletterHtml s = Some (c :: html) ->
  fst (refineNewsletter engine ai (c :: html) (articles s) (refinementPrompt s) trace)
  = inr result ->
  error s' = None ->
  articles s' = articles s
  /\ if isJsonLike result
     then newsletterHtml s' = newsletterHtml s
          /\ exists (members : list (jsstring * JSON)) (prompt : JSON)
                    (bytes : option jsstring),
              JSON_parse result = Some (JObject members)
              /\ lookupLast (js "requestType") members = Some (JString (js "image"))
              /\ lookupLast (js "newImagePrompt") members = Some prompt
              /\ fst (generateHeaderImage ai (DirectiveImagePrompt prompt) trace1)
                 = inr bytes
              /\ headerImageUrl s' = Some (dataUri bytes)
     else newsletterHtml s' = Some result
          /\ headerImageUrl s' = headerImageUrl s.
Proof.
  intros s' trace1 Hprompt Hhtml Hresult.
  subst s'. unfold_handler.
  destruct (trim (refinementPrompt s)) as [| p ps]; [contradiction |].
  rewrite Hhtml; simpl.
  pose proof (refineNewsletter_returned engine ai (c :: html) (articles s)
                (refinementPrompt s) trace result Hresult) as [_ Htrace].
  destruct (refineNewsletter engine ai (c :: html) (articles s) (refinementPrompt s) trace)
    as [r trace1']; simpl in *. subst r trace1'. fold trace1.
  destruct (isJsonLike result); simpl;
    [| intros _; split; [reflexivity | split; reflexivity]].
  unfold parseJson.
  destruct (JSON_parse result) as [v |]; simpl; [| discriminate].
  destruct v as [| b | n | str | l | members]; simpl; try discriminate.
  unfold imageDirective; simpl.
  destruct (lookupLast (js "requestType") members) as [[| b | n | t | l | m] |] eqn:Ert;
    simpl; try discriminate.
  destruct (jsstring_eqb t (js "image")) eqn:Et; simpl; [| discriminate].
  destruct (lookupLast (js "newImagePrompt") members) as [prompt |] eqn:Ep;
    simpl; [| discriminate].
  destruct (truthy prompt); simpl; [| discriminate].
  destruct (generateHeaderImage ai (DirectiveImagePrompt prompt) trace1)
    as [[e | bytes] trace2] eqn:Eimg; simpl; [discriminate |].
  intros _. split; [reflexivity |]. split; [congruence |].
  exists members, prompt, bytes.
  unfold jsstring_eqb in Et.
  destruct (list_eq_dec N.eq_dec t (js "image")); [subst t | discriminate].
  repeat split; auto.
  rewrite Eimg; reflexivity.
Qed.

Lemma refinement_replaces_one_field_witness :
  (newsletterHtml (fst (run (handleRefineNewsletter roomyEngine (cannedAI sampleDirective (js "BBBB")))
                            sampleDocument []))
   = Some (js "<h1>Title</h1><p>Body</p>")
   /\ headerImageUrl (fst (run (handleRefineNewsletter roomyEngine
                                  (cannedAI sampleDirective (js "BBBB")))
                               sampleDocument []))
      = Some (js "data:image/png;base64,BBBB"))
  /\ (newsletterHtml (fst (run (handleRefineNewsletter roomyEngine
                                  (cannedAI (js "<h1>New</h1>") (js "BBBB")))
                               sampleDocument []))
      = Some (js "<h1>New</h1>")
      /\ headerImageUrl (fst (run (handleRefineNewsletter roomyEngine
                                     (cannedAI (js "<h1>New</h1>") (js "BBBB")))
                                  sampleDocument []))
         = Some (js "data:image/png;base64,AAAA")).
Proof.
  split.
  - destruct (refinement_replaces_one_field roomyEngine
                (cannedAI sampleDirective (js "BBBB")) sampleDocument []
                60%N (js "h1>Title</h1><p>Body</p>") sampleDirective)
      as (_ & Hdoc & members & prompt & bytes & _ & _ & _ & Himg & Hurl);
      [vm_compute; discriminate | reflexivity | vm_compute; reflexivity
       | vm_compute; reflexivity |].
    split; [exact Hdoc |].
    rewrite Hurl. vm_compute in Himg. inversion Himg. reflexivity.
  - destruct (refinement_replaces_one_field roomyEngine
                (cannedAI (js "<h1>New</h1>") (js "BBBB")) sampleDocument []
                60%N (js "h1>Title</h1><p>Body</p>") (js "<h1>New</h1>"))
      as (_ & Hdoc & Himg);
      [vm_compute; discriminate | reflexivity | vm_compute; reflexivity
       | vm_compute; reflexivity |].
    split; [exact Hdoc | exact Himg].
Defined.

(** C8: when [handleRefineNewsletter] gets past its entry check and ends
    with an error, the document body, the header image, the articles and the
    form are the previous ones, the directive input is empty and the loading
    flag and message are those of the idle state.  The error is the message
    of [refineNewsletter], the message about the format of the answer, or
    the message of what [JSON.stringify] threw on the articles. *)
Theorem failed_refinement_keeps_document
        (engine : Engine) (ai : AI) (s : State) (trace : list Request)
        (c : N) (html : jsstring) :
  let s' := fst (run (handleRefineNewsletter engine ai) s trace) in
  trim (refinementPrompt s) <> [] ->
  newsletterHtml s = Some (c :: html) ->
  error s' <> None ->
  newsletterHtml s' = newsletterHtml s
  /\ headerImageUrl s' = headerImageUrl s
  /\ articles s' = articles s
  /\ form s' = form s
  /\ refinementPrompt s' = []
  /\ loadingAction s' = None
  /\ loadingMessage s' = []
  /\ (error s' = Some msgRefinementFailed
      \/ error s' = Some msgNotExpectedFormat
      \/ exists e, stringifyThrows engine (articles s) = Some e
                   /\ error s' = Some (errorMessage e)).
Proof.
  intros s' Hprompt Hhtml.
  subst s'. unfold_handler.
  destruct (trim (refinementPrompt s)) as [| p ps]; [contradiction |].
  rewrite Hhtml; simpl.
  pose proof (refineNewsletter_error engine ai (c :: html) (articles s)
                (refinementPrompt s) trace) as Herr.
  destruct (refineNewsletter engine ai (c :: html) (articles s) (refinementPrompt s) trace)
    as [[e | result] trace1]; simpl in *.
  { intros _. repeat split; auto.
    destruct (Herr e eq_refl) as [-> | He]; [left; reflexivity |].
    right. right. exists e. split; [exact He | reflexivity]. }
  destruct (isJsonLike result); simpl.
  - destruct (parseJson result) as [e | v]; simpl;
      [intros _; repeat split; auto |].
    destruct (imageDirective v) as [e | [prompt |]]; simpl;
      [intros _; repeat split; auto | | intros _; repeat split; auto].
    destruct (generateHeaderImage ai (DirectiveImagePrompt prompt) trace1)
      as [[e | bytes] trace2]; simpl; [intros _; repeat split; auto |].
    intros Herror; exfalso; apply Herror; reflexivity.
  - intros Herror; exfalso; apply Herror; reflexivity.
Qed.

Lemma failed_refinement_keeps_document_witness :
  newsletterHtml (fst (run (handleRefineNewsletter roomyEngine offlineAI)
                           sampleDocument []))
  = Some (js "<h1>Title</h1><p>Body</p>")
  /\ headerImageUrl (fst (run (handleRefineNewsletter roomyEngine offlineAI)
                              sampleDocument []))
     = Some (js "data:image/png;base64,AAAA")
  /\ refinementPrompt (fst (run (handleRefineNewsletter roomyEngine offlineAI)
                                sampleDocument []))
     = []
  /\ error (fst (run (handleRefineNewsletter roomyEngine offlineAI) sampleDocument []))
     = Some msgRefinementFailed.
Proof.
  destruct (failed_refinement_keeps_document roomyEngine offlineAI sampleDocument []
              60%N (js "h1>Title</h1><p>Body</p>"))
    as (Hdoc & Himg & _ & _ & Hprompt & _ & _ & [Herror | [Herror | Herror]]);
    [vm_compute; discriminate | reflexivity | vm_compute; discriminate | | |].
  - split; [exact Hdoc |]. split; [exact Himg |]. split; [exact Hprompt | exact Herror].
  - vm_compute in Herror. discriminate Herror.
  - destruct Herror as (e & He & _). discriminate He.
Defined.

(** ** The handlers as a whole *)

(** Nothing thrown leaves a handler. *)
Lemma handlers_catch_everything (engine : Engine) (ai : AI) (w : World) :
  fst (handleGenerateNewsletter engine ai w) = inr tt
  /\ fst (handleRefineNewsletter engine ai w) = inr tt.
Proof.
  destruct w as [s trace]. split.
  - unfold_handler. repeat break_match; reflexivity.
  - unfold_handler. repeat break_match; reflexivity.
Qed.

(** A cycle that was started ends in the idle state. *)
Lemma generation_returns_to_idle
      (engine : Engine) (ai : AI) (s : State) (trace : list Request) :
  topics (form s) <> [] ->
  loadingAction (fst (run (handleGenerateNewsletter engine ai) s trace)) = None
  /\ loadingMessage (fst (run (handleGenerateNewsletter engine ai) s trace)) = [].
Proof.
  intros Hts. unfold_handler.
  destruct (topics (form s)); [contradiction |]. simpl.
  repeat break_match; split; reflexivity.
Qed.

Lemma generation_returns_to_idle_witness :
  loadingAction (fst (run (handleGenerateNewsletter roomyEngine offlineAI) sampleRefining [])) = None
  /\ loadingMessage (fst (run (handleGenerateNewsletter roomyEngine offlineAI) sampleRefining [])) = [].
Proof.
  apply (generation_returns_to_idle roomyEngine offlineAI sampleRefining []). discriminate.
Defined.

(** A refinement that was started ends in the idle state, with the directive
    input cleared, whatever the service answered. *)
Lemma refinement_returns_to_idle
      (engine : Engine) (ai : AI) (s : State) (trace : list Request)
      (c : N) (html : jsstring) :
  trim (refinementPrompt s) <> [] ->
  newsletterHtml s = Some (c :: html) ->
  loadingAction (fst (run (handleRefineNewsletter engine ai) s trace)) = None
  /\ loadingMessage (fst (run (handleRefineNewsletter engine ai) s trace)) = []
  /\ refinementPrompt (fst (run (handleRefineNewsletter engine ai) s trace)) = [].
Proof.
  intros Hprompt Hhtml. unfold_handler.
  destruct (trim (refinementPrompt s)); [contradiction |].
  rewrite Hhtml. simpl.
  repeat break_match; repeat split; reflexivity.
Qed.

Lemma refinement_returns_to_idle_witness :
  loadingAction (fst (run (handleRefineNewsletter roomyEngine offlineAI) sampleRefining [])) = None
  /\ loadingMessage (fst (run (handleRefineNewsletter roomyEngine offlineAI) sampleRefining [])) = []
  /\ refinementPrompt (fst (run (handleRefineNewsletter roomyEngine offlineAI) sampleRefining [])) = [].
Proof.
  apply (refinement_returns_to_idle roomyEngine offlineAI sampleRefining []
           60%N (js "h1>Title</h1><p>Body</p>")).
  - vm_compute. discriminate.
  - reflexivity.
Defined.

(** Without a directive or without a document, [handleRefineNewsletter] does
    nothing. *)
Lemma refine_without_input
      (engine : Engine) (ai : AI) (s : State) (trace : list Request) :
  trim (refinementPrompt s) = []
  \/ newsletterHtml s = None \/ newsletterHtml s = Some [] ->
  run (handleRefineNewsletter engine ai) s trace = (s, trace).
Proof.
  intros H. unfold run, handleRefineNewsletter, bind, getState; simpl.
  destruct H as [H | [H | H]]; rewrite H.
  - reflexivity.
  - destruct (trim (refinementPrompt s)); reflexivity.
  - destruct (trim (refinementPrompt s)); reflexivity.
Qed.

(** ** The scenarios of the specification *)

(** A fenced block with one article: the article comes back with its five
    fields. *)
Example scenario_fenced_news :
  fst (fetchTrendingNews
         (cannedAI (fence ++ js "json" ++ nl ++ sampleArticleArray ++ nl ++ fence) [])
         [js "Quantum Computing"] 1 [])
  = inr (JArray [JObject [(js "title", JString (js "T"));
                          (js "summary", JString (js "S"));
                          (js "source", JString (js "Src"));
                          (js "link", JString (js "http://x"));
                          (js "date", JString (js "2024-01-01"))]]).
Proof. vm_compute. reflexivity. Qed.

(** A draft wrapped in a fence tagged [html]: the fence and the white space
    around the draft are removed. *)
Example scenario_fenced_draft :
  fst (generateNewsletter roomyEngine
         (cannedAI (fence ++ js "html" ++ nl ++ js "<h1>Title</h1><p>Body</p>"
                          ++ nl ++ fence) [])
         (JArray [JNull]) (newsletterOptions sampleForm) [])
  = inr (js "<h1>Title</h1><p>Body</p>").
Proof. vm_compute. reflexivity. Qed.

(** An image directive: the image request carries the prompt of the
    directive and the document body is the previous one. *)
Example scenario_image_directive :
  snd (run (handleRefineNewsletter roomyEngine (cannedAI sampleDirective (js "BBBB")))
           sampleDocument [])
  = [GenerateContent
       (RefinementPrompt (js "<h1>Title</h1><p>Body</p>") (articles sampleDocument)
                         (js "make the intro more exciting")) false;
     GenerateImages (DirectiveImagePrompt (JString (js "mountains at dawn")))]
  /\ newsletterHtml (fst (run (handleRefineNewsletter roomyEngine
                                (cannedAI sampleDirective (js "BBBB")))
                             sampleDocument []))
     = Some (js "<h1>Title</h1><p>Body</p>").
Proof. split; vm_compute; reflexivity. Qed.

(** * Further properties *)

(** ** Trimming, continued *)

Lemma trimStart_whiteSpace (w : jsstring) : whiteSpace w -> trimStart w = [].
Proof.
  induction 1 as [| c w Hc Hw IH]; simpl; [reflexivity |].
  rewrite Hc. exact IH.
Qed.

Lemma trim_whiteSpace (w : jsstring) : whiteSpace w -> trim w = [].
Proof.
  intros Hw. unfold trim. rewrite (trimStart_whiteSpace w Hw). reflexivity.
Qed.

(** What [trimStart] leaves is empty or starts with a character that is not
    white space. *)
Lemma trimStart_head (s : jsstring) :
  trimStart s = [] \/ exists c r, trimStart s = c :: r /\ isWhiteSpace c = false.
Proof.
  induction s as [| x s IH]; simpl; [now left |].
  destruct (isWhiteSpace x) eqn:Hx; [exact IH |].
  right. exists x, s. auto.
Qed.

Lemma trimEnd_cons (c : N) (r : jsstring) :
  isWhiteSpace c = false -> trimEnd (c :: r) = c :: trimEnd r.
Proof. intros Hc. apply (trimEnd_app [] r c Hc). Qed.

Lemma trimStart_idempotent (s : jsstring) : trimStart (trimStart s) = trimStart s.
Proof.
  destruct (trimStart_head s) as [-> | (c & r & -> & Hc)]; [reflexivity |].
  simpl. rewrite Hc. reflexivity.
Qed.

Lemma trimEnd_idempotent (s : jsstring) : trimEnd (trimEnd s) = trimEnd s.
Proof.
  unfold trimEnd. rewrite rev_involutive, trimStart_idempotent. reflexivity.
Qed.

(** What [trim] leaves is empty or starts with a character that is not white
    space. *)
Lemma trim_head (s : jsstring) :
  trim s = [] \/ exists c r, trim s = c :: r /\ isWhiteSpace c = false.
Proof.
  unfold trim.
  destruct (trimStart_head s) as [-> | (c & r & -> & Hc)]; [now left |].
  right. exists c, (trimEnd r). split; [apply trimEnd_cons; exact Hc | exact Hc].
Qed.

Lemma trim_idempotent (s : jsstring) : trim (trim s) = trim s.
Proof.
  destruct (trim_head s) as [H | (c & r & H & Hc)].
  - rewrite H. reflexivity.
  - unfold trim at 1. rewrite H. simpl trimStart. rewrite Hc.
    rewrite <- H. unfold trim. apply trimEnd_idempotent.
Qed.

(** A text that starts and ends with characters that are not white space is
    left as it is. *)
Lemma trim_fixed (c d : N) (s : jsstring) :
  isWhiteSpace c = false -> isWhiteSpace d = false ->
  trim (c :: s ++ [d]) = c :: s ++ [d] /\ trim [c] = [c].
Proof.
  intros Hc Hd. split.
  - unfold trim. simpl trimStart. rewrite Hc.
    change (c :: s ++ [d]) with ((c :: s) ++ d :: []).
    rewrite (trimEnd_app (c :: s) [] d Hd). reflexivity.
  - unfold trim. simpl trimStart. rewrite Hc.
    apply (trimEnd_app [] [] c Hc).
Qed.

(** [trim] only removes characters. *)
Lemma trimStart_incl (x : N) (s : jsstring) : In x (trimStart s) -> In x s.
Proof.
  destruct (trimStart_suffix s) as (w & Hw). intros Hin.
  rewrite Hw. apply in_or_app. now right.
Qed.

Lemma trim_incl (x : N) (s : jsstring) : In x (trim s) -> In x s.
Proof.
  unfold trim. intros Hin. apply trimStart_incl.
  destruct (trimEnd_prefix (trimStart s)) as (w & Hw).
  rewrite Hw. apply in_or_app. now left.
Qed.

(** ** The topic list *)

Lemma jsstring_eqb_eq (a b : jsstring) : jsstring_eqb a b = true <-> a = b.
Proof.
  unfold jsstring_eqb. destruct (list_eq_dec N.eq_dec a b); split; auto; discriminate.
Qed.

Lemma includes_In (topics : list jsstring) (topic : jsstring) :
  includes topics topic = true <-> In topic topics.
Proof.
  unfold includes. rewrite existsb_exists. split.
  - intros (t & Hin & Heq). apply jsstring_eqb_eq in Heq. subst. exact Hin.
  - intros Hin. exists topic. split; [exact Hin | now apply jsstring_eqb_eq].
Qed.

Lemma isEmpty_nil (s : jsstring) : isEmpty s = true <-> s = [].
Proof. destruct s; simpl; split; auto; discriminate. Qed.

(** Removing a topic that is not in the list changes nothing. *)
Lemma handleRemoveTopic_absent (topics : list jsstring) (t : jsstring) :
  ~ In t topics -> handleRemoveTopic topics t = topics.
Proof.
  unfold handleRemoveTopic. induction topics as [| u topics IH]; intros Hnot.
  - reflexivity.
  - simpl. destruct (jsstring_eqb u t) eqn:Heq.
    + apply jsstring_eqb_eq in Heq. subst. exfalso. apply Hnot. now left.
    + simpl. rewrite IH; [reflexivity |]. intros Hin. apply Hnot. now right.
Qed.

(** Adding and removing keep the list well formed: no blank topic, no white
    space around a topic, no topic twice. *)
Theorem topics_stay_well_formed (topics : list jsstring) (inputValue t : jsstring) :
  wellFormedTopics topics ->
  wellFormedTopics (fst (handleAddTopic topics inputValue))
  /\ wellFormedTopics (handleRemoveTopic topics t).
Proof.
  intros [Hall Hnodup]. split.
  - unfold handleAddTopic.
    destruct (isEmpty (trim inputValue)) eqn:Hblank; simpl; [split; assumption |].
    destruct (includes topics (trim inputValue)) eqn:Hdup; simpl;
      [split; assumption |].
    split.
    + apply Forall_app. split; [exact Hall |].
      constructor; [| constructor]. split.
      * intros Hnil. apply isEmpty_nil in Hnil. congruence.
      * apply trim_idempotent.
    + apply NoDup_app; [exact Hnodup | constructor; [intros [] | constructor] |].
      intros x Hx [<- | []].
      apply includes_In in Hx. congruence.
  - unfold handleRemoveTopic. split.
    + apply Forall_forall. intros x Hx. apply filter_In in Hx.
      rewrite Forall_forall in Hall. apply Hall. tauto.
    + apply NoDup_filter. exact Hnodup.
Qed.

Lemma topics_stay_well_formed_witness :
  wellFormedTopics (fst (handleAddTopic [js "AI in healthcare"] (js "  Quantum Computing ")))
  /\ wellFormedTopics (handleRemoveTopic [js "AI in healthcare"] (js "AI in healthcare")).
Proof.
  apply (topics_stay_well_formed [js "AI in healthcare"]).
  split.
  - constructor; [| constructor]. split; [discriminate | vm_compute; reflexivity].
  - constructor; [intros [] | constructor].
Defined.

(** A topic that was added is taken out again by removing it: the list is
    the one before. *)
Theorem add_then_remove (topics : list jsstring) (inputValue : jsstring) :
  trim inputValue <> [] ->
  ~ In (trim inputValue) topics ->
  handleAddTopic topics inputValue = (topics ++ [trim inputValue], [])
  /\ handleRemoveTopic (fst (handleAddTopic topics inputValue)) (trim inputValue)
     = topics.
Proof.
  intros Hblank Hnew.
  assert (Hadd : handleAddTopic topics inputValue = (topics ++ [trim inputValue], [])).
  { unfold handleAddTopic.
    destruct (isEmpty (trim inputValue)) eqn:He;
      [apply isEmpty_nil in He; contradiction |].
    destruct (includes topics (trim inputValue)) eqn:Hi;
      [apply includes_In in Hi; contradiction |].
    reflexivity. }
  split; [exact Hadd |].
  rewrite Hadd. simpl fst. unfold handleRemoveTopic.
  rewrite filter_app. simpl.
  replace (jsstring_eqb (trim inputValue) (trim inputValue)) with true
    by (symmetry; now apply jsstring_eqb_eq).
  simpl. rewrite app_nil_r.
  apply (handleRemoveTopic_absent topics (trim inputValue) Hnew).
Qed.

Lemma add_then_remove_witness :
  handleAddTopic [js "AI in healthcare"] (js "  Quantum Computing ")
  = ([js "AI in healthcare"; js "Quantum Computing"], [])
  /\ handleRemoveTopic
       (fst (handleAddTopic [js "AI in healthcare"] (js "  Quantum Computing ")))
       (js "Quantum Computing")
     = [js "AI in healthcare"].
Proof.
  apply (add_then_remove [js "AI in healthcare"] (js "  Quantum Computing ")).
  - vm_compute. discriminate.
  - vm_compute. intuition discriminate.
Defined.

(** A blank input, or one that after trimming is already a topic, changes
    neither the list nor the input box; so adding the same input twice is
    the same as adding it once. *)
Theorem add_blank_or_duplicate (topics : list jsstring) (inputValue : jsstring) :
  trim inputValue = [] \/ In (trim inputValue) topics ->
  handleAddTopic topics inputValue = (topics, inputValue).
Proof.
  intros [Hblank | Hdup]; unfold handleAddTopic.
  - rewrite Hblank. reflexivity.
  - apply includes_In in Hdup. rewrite Hdup, andb_false_r. reflexivity.
Qed.

Lemma add_blank_or_duplicate_witness :
  handleAddTopic [js "Quantum Computing"] (js " Quantum Computing  ")
  = ([js "Quantum Computing"], js " Quantum Computing  ").
Proof.
  apply (add_blank_or_duplicate [js "Quantum Computing"] (js " Quantum Computing  ")).
  right. vm_compute. left. reflexivity.
Defined.

(** After a removal the topic is gone, every other topic is still there and
    none has come in. *)
Theorem remove_only_that_topic (topics : list jsstring) (t u : jsstring) :
  ~ In t (handleRemoveTopic topics t)
  /\ (In u (handleRemoveTopic topics t) <-> In u topics /\ u <> t).
Proof.
  unfold handleRemoveTopic. split.
  - intros Hin. apply filter_In in Hin. destruct Hin as [_ Hne].
    apply negb_true_iff in Hne.
    assert (Heq : jsstring_eqb t t = true) by now apply jsstring_eqb_eq.
    congruence.
  - rewrite filter_In. split; intros [Hin Hne]; split; auto.
    + intros ->. apply negb_true_iff in Hne.
      assert (Heq : jsstring_eqb t t = true) by now apply jsstring_eqb_eq.
      congruence.
    + apply negb_true_iff. destruct (jsstring_eqb u t) eqn:Heq; [| reflexivity].
      apply jsstring_eqb_eq in Heq. contradiction.
Qed.

(** ** The lazy quantifier and the fence patterns of the draft and the refinement *)

Section LazyFacts.
Context {R : Type}.
Implicit Types (k : jsstring -> option R) (s w : jsstring) (cl : charclass).

Lemma rmatch_lit_fail (l s : jsstring) (cap : option jsstring)
      (k : jsstring -> option jsstring -> option R) :
  startsWith s l = false -> rmatch (lit l) s cap k = None.
Proof.
  intros Hs. destruct (rmatch (lit l) s cap k) as [r |] eqn:Hm; [| reflexivity].
  apply rmatch_lit_inv in Hm. destruct Hm as (s' & -> & _).
  rewrite startsWith_app in Hs. discriminate.
Qed.

Lemma starLazy_now cl s k (r : R) : k s = Some r -> starLazy cl s k = Some r.
Proof. intros H. destruct s; simpl; rewrite H; reflexivity. Qed.

(** The lazy quantifier passes over the positions at which the continuation
    fails. *)
Lemma starLazy_skip cl w t k :
  allInClass cl w ->
  (forall a b, w = a ++ b -> b <> [] -> k (b ++ t) = None) ->
  starLazy cl (w ++ t) k = starLazy cl t k.
Proof.
  intros Hw. induction Hw as [| c w Hc Hw IH]; intros Hfail; [reflexivity |].
  change ((c :: w) ++ t) with (c :: (w ++ t)). cbn [starLazy].
  change (c :: (w ++ t)) with ((c :: w) ++ t).
  rewrite (Hfail [] (c :: w) eq_refl) by discriminate. cbn [orElse].
  rewrite Hc. apply IH.
  intros a b -> Hb. apply (Hfail (c :: a) b eq_refl Hb).
Qed.

Lemma starLazy_inv cl s k (r : R) :
  starLazy cl s k = Some r ->
  exists w t, s = w ++ t /\ allInClass cl w /\ k t = Some r.
Proof.
  induction s as [| c s IH]; cbn [starLazy]; intros H.
  - destruct (k []) eqn:Hk; simpl in H; [| discriminate].
    exists [], []. repeat split; [constructor | congruence].
  - destruct (k (c :: s)) eqn:Hk; simpl in H.
    + exists [], (c :: s). repeat split; [constructor | congruence].
    + destruct (inClass cl c) eqn:Hc; [| discriminate].
      destruct (IH H) as (w & t & -> & Hw & Ht).
      exists (c :: w), t. repeat split; auto. constructor; auto.
  Qed.

(** If a continuation succeeds wherever another one does, the lazy
    quantifier succeeds with it wherever it does with the other. *)
Lemma starLazy_some cl s (k1 k2 : jsstring -> option R) :
  (forall t, k1 t <> None -> k2 t <> None) ->
  starLazy cl s k1 <> None -> starLazy cl s k2 <> None.
Proof.
  intros Hk. induction s as [| c s IH]; cbn [starLazy].
  - specialize (Hk []).
    destruct (k2 []) eqn:H2; simpl; [discriminate |].
    destruct (k1 []) eqn:H1; simpl; [| auto].
    intros _. exfalso. apply Hk; [discriminate | reflexivity].
  - specialize (Hk (c :: s)).
    destruct (k2 (c :: s)) eqn:H2; simpl; [discriminate |].
    destruct (k1 (c :: s)) eqn:H1; simpl.
    + intros _. exfalso. apply Hk; [discriminate | reflexivity].
    + destruct (inClass cl c); [exact IH | auto].
Qed.

Lemma starGreedy_some cl s k :
  k s <> None -> starGreedy cl s k <> None.
Proof.
  intros Hk. destruct s as [| c s]; simpl; [exact Hk |].
  destruct (inClass cl c); [| exact Hk].
  destruct (starGreedy cl s k); simpl; [discriminate | exact Hk].
Qed.
End LazyFacts.

Lemma regexMatch_here (r : regex) (s : jsstring) (m : option jsstring) :
  rmatch r s None (fun _ cap => Some cap) = Some m -> regexMatch r s = Some m.
Proof. intros H. destruct s; cbn [regexMatch]; rewrite H; reflexivity. Qed.

Lemma fence_head (r : regex) (s : jsstring) (cap : option jsstring)
      (k : jsstring -> option jsstring -> option (option jsstring)) :
  startsWith s fence = false -> rmatch (Seq (lit fence) r) s cap k = None.
Proof. intros Hs. cbn [rmatch]. apply rmatch_lit_fail. exact Hs. Qed.

(** The search for a pattern that begins with a fence passes over a prefix
    in which no fence begins. *)
Lemma fence_skip (r : regex) (pre rest : jsstring) :
  noFenceBefore pre ->
  regexMatch (Seq (lit fence) r) (pre ++ fence ++ rest)
  = regexMatch (Seq (lit fence) r) (fence ++ rest).
Proof.
  induction pre as [| x pre IH]; intros Hpre; [reflexivity |].
  change ((x :: pre) ++ fence ++ rest) with (x :: (pre ++ fence ++ rest)).
  cbn [regexMatch].
  rewrite fence_head.
  - apply IH. intros a b -> Hb. apply (Hpre (x :: a) b eq_refl Hb).
  - change (x :: pre ++ fence ++ rest) with ((x :: pre) ++ fence ++ rest).
    rewrite app_assoc, startsWith_longer.
    + apply (Hpre [] (x :: pre) eq_refl). discriminate.
    + rewrite length_app. simpl. lia.
Qed.

(** Without a backtick there is no match. *)
Lemma fence_absent (r : regex) (s : jsstring) :
  ~ In backtick s -> regexMatch (Seq (lit fence) r) s = None.
Proof.
  induction s as [| c s IH]; intros Hnot; cbn [regexMatch].
  - rewrite fence_head by reflexivity. reflexivity.
  - rewrite fence_head.
    + apply IH. intros Hin. apply Hnot. now right.
    + change fence with [backtick; backtick; backtick]. cbn [startsWith].
      destruct (N.eqb_spec backtick c) as [<- | Hne]; [| reflexivity].
      exfalso. apply Hnot. now left.
Qed.

(** The closing part of a pattern matches whatever the group has captured. *)
Lemma closing_any_capture (cap cap' r : option jsstring) (s : jsstring) :
  starGreedy ClassSpace s
             (fun rest => rmatch (lit fence) rest cap (fun _ c => Some c))
  = Some r ->
  starGreedy ClassSpace s
             (fun rest => rmatch (lit fence) rest cap' (fun _ c => Some c))
  = Some cap'.
Proof.
  intros H. apply closing_inv in H. destruct H as (w & post & -> & Hw).
  apply closing_ok. exact Hw.
Qed.

Lemma lengths_trim (s : jsstring) :
  List.length (trimStart s) <= List.length s
  /\ List.length (trimEnd s) <= List.length s.
Proof.
  split.
  - destruct (trimStart_suffix s) as (w & Hw). rewrite Hw at 2.
    rewrite length_app. lia.
  - destruct (trimEnd_prefix s) as (w & Hw). rewrite Hw at 2.
    rewrite length_app. lia.
Qed.

Lemma trimmed_ends (s : jsstring) : trimmed s -> trimStart s = s /\ trimEnd s = s.
Proof.
  unfold trimmed, trim. intros H.
  destruct (lengths_trim s) as [Hs _].
  destruct (lengths_trim (trimStart s)) as [_ He].
  assert (Hlen : List.length (trimStart s) = List.length s).
  { rewrite H in He. lia. }
  assert (Hstart : trimStart s = s).
  { destruct (trimStart_suffix s) as (w & Hw).
    assert (w = []).
    { apply length_zero_iff_nil. apply (f_equal (@List.length N)) in Hw.
      rewrite length_app in Hw. lia. }
    subst w. simpl in Hw. congruence. }
  split; [exact Hstart |]. rewrite Hstart in H. exact H.
Qed.

Lemma trimEnd_whiteSpace (a b : jsstring) :
  whiteSpace b -> trimEnd (a ++ b) = trimEnd a.
Proof.
  intros Hb. unfold trimEnd. rewrite rev_app_distr. f_equal.
  assert (Hrev : whiteSpace (rev b)).
  { apply Forall_forall. intros x Hx. apply in_rev in Hx.
    unfold whiteSpace in Hb. rewrite Forall_forall in Hb. auto. }
  clear Hb. induction Hrev as [| c w Hc Hw IH]; simpl; [reflexivity |].
  rewrite Hc. exact IH.
Qed.

(** No end of a trimmed text is white space only. *)
Lemma trimmed_suffix (a b : jsstring) :
  trimmed (a ++ b) -> b <> [] -> ~ whiteSpace b.
Proof.
  intros Ht Hb Hws. apply trimmed_ends in Ht. destruct Ht as [_ He].
  rewrite (trimEnd_whiteSpace a b Hws) in He.
  destruct (lengths_trim a) as [_ Ha].
  apply (f_equal (@List.length N)) in He. rewrite length_app in He.
  destruct b; [contradiction | simpl in He; lia].
Qed.

Lemma whiteSpace_app (a b : jsstring) :
  whiteSpace (a ++ b) -> whiteSpace a /\ whiteSpace b.
Proof. unfold whiteSpace. apply Forall_app. Qed.

(** Between the fences: the group is the body. *)
Lemma bodyTail_body (ws1 body ws2 post : jsstring) :
  whiteSpace ws1 -> whiteSpace ws2 -> fencedBody body ->
  rmatch bodyTail (ws1 ++ body ++ ws2 ++ fence ++ post) None (fun _ cap => Some cap)
  = Some (Some body).
Proof.
  intros Hws1 Hws2 (Hne & Htrim & Hbt).
  unfold bodyTail. cbn [rmatch].
  apply starGreedy_skip; [exact Hws1 |].
  destruct body as [| c body'] eqn:Ebody; [contradiction |]. rewrite <- Ebody in *.
  assert (Hc : isWhiteSpace c = false).
  { destruct (trimmed_ends body Htrim) as [Hs _].
    destruct (trimStart_head body) as [H0 | (c0 & r0 & H0 & Hc0)];
      rewrite Hs, Ebody in H0; [discriminate | congruence]. }
  rewrite Ebody at 1. change ((c :: body') ++ ws2 ++ fence ++ post)
    with (c :: (body' ++ ws2 ++ fence ++ post)).
  rewrite starGreedy_stop by exact Hc.
  change (c :: (body' ++ ws2 ++ fence ++ post))
    with ((c :: body') ++ ws2 ++ fence ++ post).
  rewrite <- Ebody.
  rewrite starLazy_skip.
  - apply starLazy_now. rewrite closing_ok by exact Hws2.
    rewrite length_app, Nat.add_sub, firstn_app, firstn_all, Nat.sub_diag.
    simpl firstn. rewrite app_nil_r. reflexivity.
  - apply Forall_forall. intros; apply inClass_any.
  - intros a b Hab Hb.
    match goal with
    | |- ?e = None => destruct e as [r |] eqn:Hclose; [exfalso | reflexivity]
    end.
    apply closing_inv in Hclose. destruct Hclose as (w & y & Heq & Hw).
    destruct (app_eq_app _ _ _ _ Heq) as (l & [[Hbw Hl] | [Hwb Hl]]).
    + destruct l as [| x l].
      * rewrite app_nil_r in Hbw. subst b.
        rewrite Hab in Htrim. exact (trimmed_suffix a w Htrim Hb Hw).
      * simpl in Hl. change fence with [backtick; backtick; backtick] in Hl.
        inversion Hl; subst x. apply Hbt. rewrite Hab, Hbw.
        apply in_or_app. right. apply in_or_app. right. now left.
    + rewrite Hwb in Hw. apply whiteSpace_app in Hw. destruct Hw as [Hwb' _].
      rewrite Hab in Htrim. exact (trimmed_suffix a b Htrim Hb Hwb').
Qed.

(** What the closing part returns is the capture it was given. *)
Lemma closing_result (cap r : option jsstring) (s : jsstring) :
  starGreedy ClassSpace s
             (fun rest => rmatch (lit fence) rest cap (fun _ c => Some c))
  = Some r -> r = cap.
Proof.
  intros H. pose proof (closing_any_capture cap cap r s H) as H'. congruence.
Qed.

Lemma groupAndClosing_head (t : jsstring) (m : option jsstring) :
  (forall c r, t = c :: r -> isWhiteSpace c = false) ->
  groupAndClosing t = Some m -> groupStartsWell m.
Proof.
  intros Ht H. unfold groupAndClosing in H.
  apply starLazy_inv in H. destruct H as (w & t2 & Heq & _ & H).
  apply closing_result in H. subst m.
  destruct t as [| c r]; [left; destruct (List.length [] - List.length t2); reflexivity |].
  destruct (List.length (c :: r) - List.length t2) as [| n]; [left; reflexivity |].
  right. exists c, (firstn n r). split; [reflexivity | apply (Ht c r eq_refl)].
Qed.

Lemma groupAndClosing_space (c : N) (t : jsstring) (m : option jsstring) :
  groupAndClosing (c :: t) = Some m ->
  groupAndClosing t = None ->
  m = Some [].
Proof.
  unfold groupAndClosing. cbn [starLazy]. intros H Hnone.
  match type of H with
  | orElse ?e _ = _ => destruct e as [r |] eqn:Hnow
  end; cbn [orElse] in H.
  - apply closing_result in Hnow. rewrite Nat.sub_diag in Hnow. simpl in Hnow.
    congruence.
  - exfalso. rewrite inClass_any in H.
    revert Hnone. apply starLazy_some with
      (k1 := fun rest => starGreedy ClassSpace rest
               (fun rest1 => rmatch (lit fence) rest1
                  (Some (firstn (List.length (c :: t) - List.length rest) (c :: t)))
                  (fun _ cap => Some cap))).
    + intros u Hu.
      match type of Hu with
      | ?e <> None => destruct e as [r |] eqn:Hclose; [| contradiction]
      end.
      rewrite (closing_any_capture _
                 (Some (firstn (List.length t - List.length u) t)) r u Hclose).
      discriminate.
    + rewrite H. discriminate.
Qed.

(** The group of a match never starts with white space. *)
Lemma bodyTail_group (s : jsstring) (m : option jsstring) :
  rmatch bodyTail s None (fun _ cap => Some cap) = Some m -> groupStartsWell m.
Proof.
  unfold bodyTail. cbn [rmatch].
  change (starGreedy ClassSpace s groupAndClosing = Some m -> groupStartsWell m).
  induction s as [| c s IH]; cbn [starGreedy].
  - apply groupAndClosing_head. intros c r H; discriminate H.
  - destruct (inClass ClassSpace c) eqn:Hc.
    + destruct (starGreedy ClassSpace s groupAndClosing) as [m' |] eqn:Hrest;
        cbn [orElse].
      * intros H; inversion H; subst m'. apply IH. reflexivity.
      * intros H. left. apply (groupAndClosing_space c s m H).
        destruct (groupAndClosing s) eqn:Hg; [| reflexivity].
        exfalso. apply (starGreedy_some ClassSpace s groupAndClosing);
          [rewrite Hg; discriminate | exact Hrest].
    + apply groupAndClosing_head. intros c' r H; inversion H; subst. exact Hc.
Qed.

(** Trimming a text that has a fence in it stops at the fences. *)
Lemma trim_fenced (pre inner post : jsstring) :
  trim (pre ++ fence ++ inner ++ fence ++ post)
  = trimStart pre ++ fence ++ inner ++ fence ++ trimEnd post.
Proof.
  unfold trim.
  change (fence ++ inner ++ fence ++ post)
    with (backtick :: js "``" ++ inner ++ fence ++ post).
  rewrite trimStart_app by reflexivity.
  change (backtick :: js "``" ++ inner ++ fence ++ post)
    with (fence ++ inner ++ fence ++ post).
  replace (trimStart pre ++ fence ++ inner ++ fence ++ post)
    with ((trimStart pre ++ fence ++ inner ++ js "``") ++ backtick :: post)
    by (repeat (rewrite <- app_assoc; simpl app); reflexivity).
  rewrite trimEnd_app by reflexivity.
  repeat (rewrite <- app_assoc; simpl app). reflexivity.
Qed.

Lemma trimmed_trim (s : jsstring) : trimmed s -> trim s = s.
Proof. auto. Qed.

(** The pattern of [generateNewsletter] on a fenced draft. *)
Lemma htmlFence_block (pre tag ws1 body ws2 post : jsstring) :
  noFenceBefore pre ->
  tag = js "html"
  \/ (tag = [] /\ startsWith (ws1 ++ body ++ ws2 ++ fence) (js "html") = false) ->
  whiteSpace ws1 -> whiteSpace ws2 -> fencedBody body ->
  regexMatch htmlFenceRegex (pre ++ fence ++ tag ++ ws1 ++ body ++ ws2 ++ fence ++ post)
  = Some (Some body).
Proof.
  intros Hpre Htag Hws1 Hws2 Hbody.
  pose proof (bodyTail_body ws1 body ws2 post Hws1 Hws2 Hbody) as Htail.
  unfold htmlFenceRegex. rewrite fence_skip by exact Hpre.
  apply regexMatch_here. cbn [rmatch]. rewrite rmatch_lit.
  unfold Opt. cbn [rmatch].
  unfold bodyTail in Htail. cbn [rmatch] in Htail.
  destruct Htag as [-> | [-> Hno]].
  - rewrite rmatch_lit. cbn [rmatch]. rewrite Htail. reflexivity.
  - rewrite app_nil_l. rewrite rmatch_lit_fail.
    + cbn [orElse]. exact Htail.
    + replace (ws1 ++ body ++ ws2 ++ fence ++ post)
        with ((ws1 ++ body ++ ws2 ++ fence) ++ post)
        by (repeat rewrite <- app_assoc; reflexivity).
      rewrite (startsWith_longer (ws1 ++ body ++ ws2 ++ fence) post); [exact Hno |].
      destruct Hbody as (Hne & _). destruct body; [contradiction |].
      rewrite !length_app. simpl. lia.
Qed.

(** The pattern of [refineNewsletter] on a fenced answer. *)
Lemma refineFence_block (pre tag ws1 body ws2 post : jsstring) :
  noFenceBefore pre ->
  tag = js "json" \/ tag = js "html"
  \/ (tag = [] /\ startsWith (ws1 ++ body ++ ws2 ++ fence) (js "json") = false
               /\ startsWith (ws1 ++ body ++ ws2 ++ fence) (js "html") = false) ->
  whiteSpace ws1 -> whiteSpace ws2 -> fencedBody body ->
  regexMatch refineFenceRegex
             (pre ++ fence ++ tag ++ ws1 ++ body ++ ws2 ++ fence ++ post)
  = Some (Some body).
Proof.
  intros Hpre Htag Hws1 Hws2 Hbody.
  pose proof (bodyTail_body ws1 body ws2 post Hws1 Hws2 Hbody) as Htail.
  assert (Hlen : 4 <= List.length (ws1 ++ body ++ ws2 ++ fence)).
  { destruct Hbody as (Hne & _). destruct body; [contradiction |].
    rewrite !length_app. simpl. lia. }
  unfold refineFenceRegex. rewrite fence_skip by exact Hpre.
  apply regexMatch_here. cbn [rmatch]. rewrite rmatch_lit.
  unfold Opt. cbn [rmatch].
  unfold bodyTail in Htail. cbn [rmatch] in Htail.
  destruct Htag as [-> | [-> | (-> & Hj & Hh)]].
  - rewrite rmatch_lit. cbn [rmatch]. rewrite Htail. reflexivity.
  - rewrite (rmatch_lit_fail (js "json")) by reflexivity. cbn [orElse].
    rewrite rmatch_lit. cbn [rmatch]. rewrite Htail. reflexivity.
  - rewrite app_nil_l.
    replace (ws1 ++ body ++ ws2 ++ fence ++ post)
      with ((ws1 ++ body ++ ws2 ++ fence) ++ post) in *
      by (repeat rewrite <- app_assoc; reflexivity).
    rewrite (rmatch_lit_fail (js "json"))
      by (rewrite (startsWith_longer (ws1 ++ body ++ ws2 ++ fence) post);
          [exact Hj | exact Hlen]).
    cbn [orElse].
    rewrite (rmatch_lit_fail (js "html"))
      by (rewrite (startsWith_longer (ws1 ++ body ++ ws2 ++ fence) post);
          [exact Hh | exact Hlen]).
    cbn [orElse]. exact Htail.
Qed.

(** What [generateNewsletter] makes of a text answer. *)
Lemma generateNewsletter_text (engine : Engine) (ai : AI) (a : JSON)
      (o : GenerationOptions) (trace : list Request) (text : jsstring) :
  stringifyThrows engine a = None ->
  generateContent ai trace (NewsletterPrompt a o) false = inr (Some text) ->
  fst (generateNewsletter engine ai a o trace)
  = if isEmpty (trim text) then inl (Error msgNewsletterFailed)
    else inr match matchedGroup (regexMatch htmlFenceRegex (trim text)) with
             | Some group1 => trim group1
             | None => trim text
             end.
Proof.
  intros Hbuilt H.
  unfold generateNewsletter, tryCatch, bind, callGenerateContent, liftExn,
    throw, ret, textTrim.
  rewrite (JSON_stringify_returns engine a Hbuilt). cbn [fst snd].
  rewrite H. cbn [fst snd].
  destruct (isEmpty (trim text)); [reflexivity |].
  destruct (matchedGroup (regexMatch htmlFenceRegex (trim text))); reflexivity.
Qed.

Lemma refineNewsletter_text (engine : Engine) (ai : AI) (h : jsstring) (a : JSON)
      (p : jsstring) (trace : list Request) (text : jsstring) :
  stringifyThrows engine a = None ->
  generateContent ai trace (RefinementPrompt h a p) false = inr (Some text) ->
  fst (refineNewsletter engine ai h a p trace)
  = if isEmpty (trim text) then inl (Error msgRefinementFailed)
    else inr match matchedGroup (regexMatch refineFenceRegex (trim text)) with
             | Some group1 => trim group1
             | None => trim text
             end.
Proof.
  intros Hbuilt H.
  unfold refineNewsletter, tryCatch, bind, callGenerateContent, liftExn,
    throw, ret, textTrim.
  rewrite (JSON_stringify_returns engine a Hbuilt). cbn [fst snd].
  rewrite H. cbn [fst snd].
  destruct (isEmpty (trim text)); [reflexivity |].
  destruct (matchedGroup (regexMatch refineFenceRegex (trim text))); reflexivity.
Qed.

Lemma fenced_text_trim (pre tag ws1 body ws2 post : jsstring) :
  trim (pre ++ fence ++ tag ++ ws1 ++ body ++ ws2 ++ fence ++ post)
  = trimStart pre ++ fence ++ tag ++ ws1 ++ body ++ ws2 ++ fence ++ trimEnd post.
Proof.
  replace (pre ++ fence ++ tag ++ ws1 ++ body ++ ws2 ++ fence ++ post)
    with (pre ++ fence ++ (tag ++ ws1 ++ body ++ ws2) ++ fence ++ post)
    by (repeat rewrite <- app_assoc; reflexivity).
  rewrite trim_fenced. repeat rewrite <- app_assoc. reflexivity.
Qed.

Lemma fenced_text_not_empty (pre rest : jsstring) :
  isEmpty (trimStart pre ++ fence ++ rest) = false.
Proof. destruct (trimStart pre); reflexivity. Qed.

(** A draft between fences, when the prompt can be built:
    [generateNewsletter] returns the draft alone, without the fences, the
    tag, and whatever stands before and after. *)
Theorem draft_fence_stripped
        (engine : Engine) (ai : AI) (a : JSON) (o : GenerationOptions)
        (trace : list Request) (pre tag ws1 body ws2 post : jsstring) :
  stringifyThrows engine a = None ->
  generateContent ai trace (NewsletterPrompt a o) false
  = inr (Some (pre ++ fence ++ tag ++ ws1 ++ body ++ ws2 ++ fence ++ post)) ->
  noFenceBefore pre ->
  tag = js "html"
  \/ (tag = [] /\ startsWith (ws1 ++ body ++ ws2 ++ fence) (js "html") = false) ->
  whiteSpace ws1 -> whiteSpace ws2 -> fencedBody body ->
  fst (generateNewsletter engine ai a o trace) = inr body.
Proof.
  intros Hbuilt Hreply Hpre Htag Hws1 Hws2 Hbody.
  rewrite (generateNewsletter_text engine ai a o trace _ Hbuilt Hreply).
  rewrite fenced_text_trim, fenced_text_not_empty.
  rewrite htmlFence_block; auto using noFenceBefore_trimStart.
  destruct Hbody as (Hne & Htrim & _).
  destruct body as [| c body]; [contradiction |]. simpl matchedGroup.
  rewrite Htrim. reflexivity.
Qed.

Lemma draft_fence_stripped_witness :
  fst (generateNewsletter roomyEngine (cannedAI sampleFencedDraft [])
                          (JArray [JNull]) (newsletterOptions sampleForm) [])
  = inr (js "<h1>Title</h1><p>Body</p>").
Proof.
  apply (draft_fence_stripped roomyEngine (cannedAI sampleFencedDraft [])
           (JArray [JNull]) (newsletterOptions sampleForm) []
           (js "Here is your newsletter:" ++ nl) (js "html") nl
           (js "<h1>Title</h1><p>Body</p>") nl (nl ++ js "Enjoy!")).
  - reflexivity.
  - reflexivity.
  - apply noFenceBeforeb_sound. vm_compute. reflexivity.
  - left. reflexivity.
  - unfold whiteSpace. repeat constructor.
  - unfold whiteSpace. repeat constructor.
  - split; [discriminate |]. split; [vm_compute; reflexivity |].
    vm_compute. intuition discriminate.
Defined.

(** An answer between fences, when the prompt can be built:
    [refineNewsletter] returns the answer alone. *)
Theorem refinement_fence_stripped
        (engine : Engine) (ai : AI) (h : jsstring) (a : JSON) (p : jsstring)
        (trace : list Request) (pre tag ws1 body ws2 post : jsstring) :
  stringifyThrows engine a = None ->
  generateContent ai trace (RefinementPrompt h a p) false
  = inr (Some (pre ++ fence ++ tag ++ ws1 ++ body ++ ws2 ++ fence ++ post)) ->
  noFenceBefore pre ->
  tag = js "json" \/ tag = js "html"
  \/ (tag = [] /\ startsWith (ws1 ++ body ++ ws2 ++ fence) (js "json") = false
               /\ startsWith (ws1 ++ body ++ ws2 ++ fence) (js "html") = false) ->
  whiteSpace ws1 -> whiteSpace ws2 -> fencedBody body ->
  fst (refineNewsletter engine ai h a p trace) = inr body.
Proof.
  intros Hbuilt Hreply Hpre Htag Hws1 Hws2 Hbody.
  rewrite (refineNewsletter_text engine ai h a p trace _ Hbuilt Hreply).
  rewrite fenced_text_trim, fenced_text_not_empty.
  rewrite refineFence_block; auto using noFenceBefore_trimStart.
  destruct Hbody as (Hne & Htrim & _).
  destruct body as [| c body]; [contradiction |]. simpl matchedGroup.
  rewrite Htrim. reflexivity.
Qed.

Lemma refinement_fence_stripped_witness :
  fst (refineNewsletter roomyEngine (cannedAI sampleFencedDirective (js "BBBB"))
                        (js "<h1>Title</h1><p>Body</p>") (JArray [])
                        (js "a new image, please") [])
  = inr sampleDirective.
Proof.
  apply (refinement_fence_stripped roomyEngine
           (cannedAI sampleFencedDirective (js "BBBB"))
           (js "<h1>Title</h1><p>Body</p>") (JArray []) (js "a new image, please") []
           [] (js "json") nl sampleDirective nl []).
  - reflexivity.
  - reflexivity.
  - apply noFenceBeforeb_sound. vm_compute. reflexivity.
  - left. reflexivity.
  - unfold whiteSpace. repeat constructor.
  - unfold whiteSpace. repeat constructor.
  - split; [discriminate |]. split; [vm_compute; reflexivity |].
    vm_compute. intuition discriminate.
Defined.

(** When the prompt can be built, an answer without a backtick is returned
    trimmed and otherwise as it is; an answer of white space only is an
    error. *)
Theorem draft_without_fence
        (engine : Engine) (ai : AI) (a : JSON) (o : GenerationOptions)
        (trace : list Request) (text : jsstring) :
  stringifyThrows engine a = None ->
  generateContent ai trace (NewsletterPrompt a o) false = inr (Some text) ->
  ~ In backtick text ->
  fst (generateNewsletter engine ai a o trace)
  = if isEmpty (trim text) then inl (Error msgNewsletterFailed) else inr (trim text).
Proof.
  intros Hbuilt Hreply Hnot.
  rewrite (generateNewsletter_text engine ai a o trace _ Hbuilt Hreply).
  unfold htmlFenceRegex. rewrite fence_absent; [reflexivity |].
  intros Hin. apply Hnot. apply trim_incl. exact Hin.
Qed.

Lemma draft_without_fence_witness :
  fst (generateNewsletter roomyEngine (cannedAI (js "  <h1>Title</h1>  ") [])
                          (JArray [JNull]) (newsletterOptions sampleForm) [])
  = inr (js "<h1>Title</h1>")
  /\ fst (generateNewsletter roomyEngine (cannedAI (js "   ") []) (JArray [JNull])
                             (newsletterOptions sampleForm) [])
     = inl (Error msgNewsletterFailed).
Proof.
  split.
  - rewrite (draft_without_fence roomyEngine (cannedAI (js "  <h1>Title</h1>  ") [])
               (JArray [JNull]) (newsletterOptions sampleForm) []
               (js "  <h1>Title</h1>  ")).
    + vm_compute. reflexivity.
    + reflexivity.
    + reflexivity.
    + vm_compute. intuition discriminate.
  - rewrite (draft_without_fence roomyEngine (cannedAI (js "   ") []) (JArray [JNull])
               (newsletterOptions sampleForm) [] (js "   ")).
    + vm_compute. reflexivity.
    + reflexivity.
    + reflexivity.
    + vm_compute. intuition discriminate.
Defined.

(** The same for [refineNewsletter]: when the prompt can be built, an answer
    without a backtick is returned trimmed, and one of white space only is
    an error. *)
Theorem refinement_without_fence
        (engine : Engine) (ai : AI) (h : jsstring) (a : JSON) (p : jsstring)
        (trace : list Request) (text : jsstring) :
  stringifyThrows engine a = None ->
  generateContent ai trace (RefinementPrompt h a p) false = inr (Some text) ->
  ~ In backtick text ->
  fst (refineNewsletter engine ai h a p trace)
  = if isEmpty (trim text) then inl (Error msgRefinementFailed) else inr (trim text).
Proof.
  intros Hbuilt Hreply Hnot.
  rewrite (refineNewsletter_text engine ai h a p trace _ Hbuilt Hreply).
  unfold refineFenceRegex. rewrite fence_absent; [reflexivity |].
  intros Hin. apply Hnot. apply trim_incl. exact Hin.
Qed.

Lemma refinement_without_fence_witness :
  fst (refineNewsletter roomyEngine (cannedAI (js " <h1>New</h1> ") [])
                        (js "<h1>Title</h1><p>Body</p>") (JArray [])
                        (js "shorter") [])
  = inr (js "<h1>New</h1>").
Proof.
  rewrite (refinement_without_fence roomyEngine (cannedAI (js " <h1>New</h1> ") [])
             (js "<h1>Title</h1><p>Body</p>") (JArray []) (js "shorter") []
             (js " <h1>New</h1> ")).
  - vm_compute. reflexivity.
  - reflexivity.
  - reflexivity.
  - vm_compute. intuition discriminate.
Defined.

Lemma matchedGroup_head (r : regex) (s g : jsstring) :
  (forall at_ m, rmatch r at_ None (fun _ cap => Some cap) = Some m ->
                 groupStartsWell m) ->
  matchedGroup (regexMatch r s) = Some g ->
  exists c g', g = c :: g' /\ isWhiteSpace c = false.
Proof.
  intros Hr Hg.
  destruct (regexMatch r s) as [m |] eqn:Hm; [| discriminate].
  apply regexMatch_inv in Hm. destruct Hm as (before & at_ & _ & Hat).
  apply Hr in Hat. destruct Hat as [-> | (c & g' & -> & Hc)]; [discriminate |].
  simpl in Hg. inversion Hg. eauto.
Qed.

Lemma htmlFence_group (s : jsstring) (m : option jsstring) :
  rmatch htmlFenceRegex s None (fun _ cap => Some cap) = Some m ->
  groupStartsWell m.
Proof.
  unfold htmlFenceRegex, Opt. cbn [rmatch]. intros H.
  apply rmatch_lit_inv in H. destruct H as (s1 & _ & H).
  pose proof bodyTail_group as Htail. unfold bodyTail in Htail.
  cbn [rmatch] in Htail.
  match type of H with
  | orElse ?e _ = _ => destruct e as [m' |] eqn:Htag
  end; cbn [orElse] in H.
  - inversion H; subst m'. apply rmatch_lit_inv in Htag.
    destruct Htag as (s2 & _ & Htag). cbn [rmatch] in Htag.
    apply (Htail s2 m Htag).
  - apply (Htail s1 m H).
Qed.

Lemma refineFence_group (s : jsstring) (m : option jsstring) :
  rmatch refineFenceRegex s None (fun _ cap => Some cap) = Some m ->
  groupStartsWell m.
Proof.
  unfold refineFenceRegex, Opt. cbn [rmatch]. intros H.
  apply rmatch_lit_inv in H. destruct H as (s1 & _ & H).
  pose proof bodyTail_group as Htail. unfold bodyTail in Htail.
  cbn [rmatch] in Htail.
  match type of H with
  | orElse (orElse ?e1 ?e2) _ = _ =>
      destruct e1 as [m1 |] eqn:Hjson; cbn [orElse] in H;
      [| match type of H with
         | orElse ?e _ = _ => destruct e as [m2 |] eqn:Hhtml; cbn [orElse] in H
         end]
  end.
  - inversion H; subst m1. apply rmatch_lit_inv in Hjson.
    destruct Hjson as (s2 & _ & Hjson). cbn [rmatch] in Hjson.
    apply (Htail s2 m Hjson).
  - inversion H; subst m2. apply rmatch_lit_inv in Hhtml.
    destruct Hhtml as (s2 & _ & Hhtml). cbn [rmatch] in Hhtml.
    apply (Htail s2 m Hhtml).
  - apply (Htail s1 m H).
Qed.

Lemma trim_head_kept (c : N) (g : jsstring) :
  isWhiteSpace c = false -> trim (c :: g) <> [].
Proof.
  intros Hc. unfold trim. simpl trimStart. rewrite Hc.
  rewrite (trimEnd_cons c g Hc). discriminate.
Qed.

(** [generateNewsletter] never returns the empty string. *)
Lemma draft_never_empty
      (engine : Engine) (ai : AI) (a : JSON) (o : GenerationOptions)
      (trace : list Request) (html : jsstring) :
  fst (generateNewsletter engine ai a o trace) = inr html -> html <> [].
Proof.
  unfold generateNewsletter, JSON_stringify, tryCatch, bind, callGenerateContent,
    liftExn, throw, ret, textTrim; cbn [fst snd].
  destruct (stringifyThrows engine a); cbn [fst snd]; [discriminate |].
  destruct (generateContent ai trace (NewsletterPrompt a o) false)
    as [e | [text |]]; cbn [fst snd]; try discriminate.
  destruct (isEmpty (trim text)) eqn:Hempty; cbn [fst snd]; [discriminate |].
  destruct (matchedGroup (regexMatch htmlFenceRegex (trim text))) as [g |] eqn:Hg;
    cbn [fst snd]; intros H; inversion H; subst html.
  - destruct (matchedGroup_head htmlFenceRegex (trim text) g htmlFence_group Hg)
      as (c & g' & -> & Hc).
    apply trim_head_kept. exact Hc.
  - intros Hnil. rewrite Hnil in Hempty. discriminate.
Qed.

(** [refineNewsletter] never returns the empty string. *)
Lemma refinement_never_empty
      (engine : Engine) (ai : AI) (h : jsstring) (a : JSON) (p : jsstring)
      (trace : list Request) (result : jsstring) :
  fst (refineNewsletter engine ai h a p trace) = inr result -> result <> [].
Proof.
  unfold refineNewsletter, JSON_stringify, tryCatch, bind, callGenerateContent,
    liftExn, throw, ret, textTrim; cbn [fst snd].
  destruct (stringifyThrows engine a); cbn [fst snd]; [discriminate |].
  destruct (generateContent ai trace (RefinementPrompt h a p) false)
    as [e | [text |]]; cbn [fst snd]; try discriminate.
  destruct (isEmpty (trim text)) eqn:Hempty; cbn [fst snd]; [discriminate |].
  destruct (matchedGroup (regexMatch refineFenceRegex (trim text))) as [g |] eqn:Hg;
    cbn [fst snd]; intros H; inversion H; subst result.
  - destruct (matchedGroup_head refineFenceRegex (trim text) g refineFence_group Hg)
      as (c & g' & -> & Hc).
    apply trim_head_kept. exact Hc.
  - intros Hnil. rewrite Hnil in Hempty. discriminate.
Qed.

(** ** What the service functions can answer *)

(** [fetchTrendingNews] returns a non-empty array or throws an [Error] with
    one of two messages; the messages of its own [throw] statements never
    leave it. *)
Theorem fetchTrendingNews_outcome (ai : AI) (ts : list jsstring) (n : Z)
        (trace : list Request) :
  match fst (fetchTrendingNews ai ts n trace) with
  | inr v => exists a l, v = JArray (a :: l)
  | inl e => e = Error msgParseFailed \/ e = Error msgFetchFailed
  end.
Proof.
  destruct (fst (fetchTrendingNews ai ts n trace)) as [e | v] eqn:H.
  - revert H.
    unfold fetchTrendingNews, tryCatch, bind, callGenerateContent, liftExn,
      throw, ret; cbn [fst snd].
    repeat break_match; intros H; inversion H; auto.
  - apply (fetchTrendingNews_returns_array ai ts n trace v H).
Qed.

(** [generateNewsletter] returns a non-empty string, and then the prompt was
    built; or it throws an [Error] with its one message; or it throws what
    [JSON.stringify] threw on the articles. *)
Theorem generateNewsletter_outcome (engine : Engine) (ai : AI) (a : JSON)
        (o : GenerationOptions) (trace : list Request) :
  match fst (generateNewsletter engine ai a o trace) with
  | inr html => html <> [] /\ stringifyThrows engine a = None
  | inl e => e = Error msgNewsletterFailed \/ stringifyThrows engine a = Some e
  end.
Proof.
  destruct (fst (generateNewsletter engine ai a o trace)) as [e | html] eqn:H.
  - apply (generateNewsletter_error engine ai a o trace e H).
  - split.
    + apply (draft_never_empty engine ai a o trace html H).
    + apply (generateNewsletter_returned engine ai a o trace html H).
Qed.

(** [refineNewsletter] returns a non-empty string, and then the prompt was
    built; or it throws an [Error] with its one message; or it throws what
    [JSON.stringify] threw on the articles. *)
Theorem refineNewsletter_outcome (engine : Engine) (ai : AI) (h : jsstring) (a : JSON)
        (p : jsstring) (trace : list Request) :
  match fst (refineNewsletter engine ai h a p trace) with
  | inr result => result <> [] /\ stringifyThrows engine a = None
  | inl e => e = Error msgRefinementFailed \/ stringifyThrows engine a = Some e
  end.
Proof.
  destruct (fst (refineNewsletter engine ai h a p trace)) as [e | result] eqn:H.
  - apply (refineNewsletter_error engine ai h a p trace e H).
  - split.
    + apply (refinement_never_empty engine ai h a p trace result H).
    + apply (refineNewsletter_returned engine ai h a p trace result H).
Qed.

(** [generateHeaderImage] returns the bytes of the first image of the
    answer, whatever follows it, or throws an [Error] with its one
    message. *)
Theorem generateHeaderImage_outcome (ai : AI) (p : ImagePrompt)
        (trace : list Request) :
  match fst (generateHeaderImage ai p trace) with
  | inr bytes =>
      exists first rest img,
        generateImages ai trace p = inr (Some (first :: rest))
        /\ image first = Some img /\ bytes = imageBytes img
  | inl e => e = Error msgImageFailed
  end.
Proof.
  unfold generateHeaderImage, tryCatch, bind, callGenerateImages, throw, ret;
    cbn [fst snd].
  destruct (generateImages ai trace p) as [e | [[| first rest] |]]; cbn [fst snd];
    auto.
  destruct (image first) as [img |] eqn:Himg; cbn [fst snd]; auto.
  exists first, rest, img. auto.
Qed.

(** A call of a service function issues at most one request: there is no
    retry.  [fetchTrendingNews] and [generateHeaderImage] issue exactly one,
    whatever the answer and whether they return or throw;
    [generateNewsletter] and [refineNewsletter] issue exactly one when the
    prompt can be built and none when [JSON.stringify] throws.  Only the news
    request has the search tool switched on. *)
Theorem one_request_per_call
        (engine : Engine) (ai : AI) (trace : list Request) (ts : list jsstring) (n : Z)
        (a : JSON) (o : GenerationOptions) (p : ImagePrompt) (h d : jsstring) :
  snd (fetchTrendingNews ai ts n trace)
  = trace ++ [GenerateContent (NewsPrompt ts n) true]
  /\ snd (generateHeaderImage ai p trace) = trace ++ [GenerateImages p]
  /\ snd (generateNewsletter engine ai a o trace)
     = match stringifyThrows engine a with
       | Some _ => trace
       | None => trace ++ [GenerateContent (NewsletterPrompt a o) false]
       end
  /\ snd (refineNewsletter engine ai h a d trace)
     = match stringifyThrows engine a with
       | Some _ => trace
       | None => trace ++ [GenerateContent (RefinementPrompt h a d) false]
       end.
Proof.
  split; [apply fetchTrendingNews_trace |].
  split; [apply generateHeaderImage_trace |].
  split; [apply generateNewsletter_trace | apply refineNewsletter_trace].
Qed.

(** ** Arrays nested in one another *)

Lemma nesting_nestedArray (n : nat) : nesting (nestedArray n) = S n.
Proof.
  induction n as [| n IH]; [reflexivity |].
  cbn [nestedArray nesting fold_right]. rewrite IH, Nat.max_0_r. reflexivity.
Qed.

Lemma parseValue_nested (n fuel : nat) (rest : jsstring) :
  2 * n + 1 <= fuel ->
  parseValue fuel (repeat lbracket (S n) ++ repeat rbracket (S n) ++ rest)
  = Some (nestedArray n, rest).
Proof.
  revert fuel rest. induction n as [| n IH]; intros fuel rest Hfuel.
  - destruct fuel as [| fuel]; [lia |]. reflexivity.
  - destruct fuel as [| [| fuel]]; try lia.
    change (repeat lbracket (S (S n))) with (lbracket :: repeat lbracket (S n)).
    replace (repeat rbracket (S (S n)) ++ rest)
      with (repeat rbracket (S n) ++ rbracket :: rest).
    2:{ change (repeat rbracket (S (S n))) with (rbracket :: repeat rbracket (S n)).
        rewrite (repeat_cons (S n) rbracket), <- app_assoc. reflexivity. }
    change ((lbracket :: repeat lbracket (S n)) ++ repeat rbracket (S n) ++ rbracket :: rest)
      with (lbracket :: lbracket
              :: (repeat lbracket n ++ repeat rbracket (S n) ++ rbracket :: rest)).
    cbn [parseValue skipWhiteSpace].
    change (isJsonWhiteSpace lbracket) with false. cbv beta iota.
    change ((lbracket =? 123)%N) with false.
    change ((lbracket =? 91)%N) with true. cbv beta iota.
    cbn [skipWhiteSpace].
    change (isJsonWhiteSpace lbracket) with false. cbv beta iota.
    change ((lbracket =? 93)%N) with false. cbv beta iota.
    cbn [parseElements].
    change (lbracket :: (repeat lbracket n ++ repeat rbracket (S n) ++ rbracket :: rest))
      with (repeat lbracket (S n) ++ repeat rbracket (S n) ++ rbracket :: rest).
    rewrite IH by lia. reflexivity.
Qed.

Lemma JSON_parse_nested (n : nat) :
  JSON_parse (nestedText (S n)) = Some (nestedArray n).
Proof.
  unfold JSON_parse, nestedText.
  rewrite <- (app_nil_r (repeat rbracket (S n))) at 2.
  rewrite parseValue_nested; [reflexivity |].
  rewrite length_app, !repeat_length. lia.
Qed.

Lemma nestedText_brackets (n : nat) :
  nestedText (S n) = lbracket :: (repeat lbracket n ++ repeat rbracket n) ++ [rbracket].
Proof.
  unfold nestedText.
  change (repeat rbracket (S n)) with (rbracket :: repeat rbracket n).
  rewrite (repeat_cons n rbracket), app_assoc. reflexivity.
Qed.

Lemma nestedText_no_backtick (n : nat) : ~ In backtick (nestedText n).
Proof.
  unfold nestedText. intros Hin. apply in_app_or in Hin.
  destruct Hin as [Hin | Hin]; apply repeat_spec in Hin; discriminate Hin.
Qed.

Lemma extractJsonText_nested (n : nat) :
  extractJsonText (trim (nestedText (S n))) = inr (nestedText (S n)).
Proof.
  rewrite nestedText_brackets.
  destruct (trim_fixed lbracket rbracket (repeat lbracket n ++ repeat rbracket n))
    as [Htrim _]; [reflexivity | reflexivity |].
  rewrite Htrim.
  change (lbracket :: (repeat lbracket n ++ repeat rbracket n) ++ [rbracket])
    with ([] ++ lbracket :: (repeat lbracket n ++ repeat rbracket n) ++ rbracket :: []).
  apply extractJsonText_span; [| intros [] | intros []].
  unfold newsFenceRegex. rewrite fence_absent; [reflexivity |].
  simpl app. rewrite <- nestedText_brackets. apply nestedText_no_backtick.
Qed.

(** The answer of arrays nested in one another is parsed whatever the
    depth. *)
Lemma fetchTrendingNews_nested (n : nat) (bytes : jsstring) (ts : list jsstring)
      (m : Z) (trace : list Request) :
  fst (fetchTrendingNews (cannedAI (nestedText (S (S n))) bytes) ts m trace)
  = inr (nestedArray (S n)).
Proof.
  rewrite (fetchTrendingNews_array (cannedAI (nestedText (S (S n))) bytes) ts m trace
             (nestedText (S (S n))) (nestedText (S (S n))) (nestedArray n) []).
  - reflexivity.
  - reflexivity.
  - apply extractJsonText_nested.
  - apply JSON_parse_nested.
Qed.

(** An engine with a stack of [limit] cannot serialise what is nested
    deeper. *)
Lemma stringify_nested (limit n : nat) :
  limit <= n ->
  stringifyThrows (engineWithStack limit) (nestedArray n)
  = Some (RangeError (js "Maximum call stack size exceeded")).
Proof.
  intros H. unfold engineWithStack. cbn [stringifyThrows].
  rewrite nesting_nestedArray.
  destruct (Nat.ltb_spec limit (S n)) as [_ | Hle]; [reflexivity | lia].
Qed.

(** ** The handlers, continued *)

(** Neither handler writes the form; generation leaves the directive input
    alone and refinement leaves the articles alone. *)
Theorem handlers_frame (engine : Engine) (ai : AI) (s : State) (trace : list Request) :
  form (fst (run (handleGenerateNewsletter engine ai) s trace)) = form s
  /\ refinementPrompt (fst (run (handleGenerateNewsletter engine ai) s trace))
     = refinementPrompt s
  /\ form (fst (run (handleRefineNewsletter engine ai) s trace)) = form s
  /\ articles (fst (run (handleRefineNewsletter engine ai) s trace)) = articles s.
Proof.
  repeat split; unfold_handler; repeat break_match; reflexivity.
Qed.

(** The requests of a generation cycle: the news request; then the draft
    request, if articles came back and the prompt for them can be built;
    then the image request, if a draft came back and the image option is on.
    Nothing else, and nothing after a failure. *)
Theorem generation_requests
        (engine : Engine) (ai : AI) (s : State) (trace : list Request) :
  let f := form s in
  let news := GenerateContent (NewsPrompt (topics f) (minArticles f)) true in
  topics f <> [] ->
  snd (run (handleGenerateNewsletter engine ai) s trace)
  = trace
    ++ news
       :: match fst (fetchTrendingNews ai (topics f) (minArticles f) trace) with
          | inl _ => []
          | inr fetched =>
              match stringifyThrows engine fetched with
              | Some _ => []
              | None =>
                  GenerateContent (NewsletterPrompt fetched (newsletterOptions f)) false
                  :: match fst (generateNewsletter engine ai fetched
                                                   (newsletterOptions f)
                                                   (trace ++ [news])) with
                     | inl _ => []
                     | inr _ =>
                         if shouldGenerateImage f
                         then [GenerateImages (imagePromptOf f)]
                         else []
                     end
              end
          end.
Proof.
  intros f news Hts. subst news. unfold_handler. fold f.
  destruct (topics f) as [| t ts] eqn:Et; [contradiction |]. simpl.
  pose proof (fetchTrendingNews_returns_nonempty ai (t :: ts) (minArticles f) trace)
    as Hnonempty.
  pose proof (fetchTrendingNews_trace ai (t :: ts) (minArticles f) trace) as Ht1.
  destruct (fetchTrendingNews ai (t :: ts) (minArticles f) trace)
    as [[e | fetched] trace1]; simpl in *; subst trace1; [reflexivity |].
  rewrite (Hnonempty fetched eq_refl); simpl.
  destruct (stringifyThrows engine fetched) as [e |] eqn:Hbuilt.
  { rewrite (generateNewsletter_unbuilt engine ai fetched (newsletterOptions f) _ e
               Hbuilt).
    reflexivity. }
  match goal with
  | |- context [generateNewsletter engine ai ?a ?o ?t0] =>
      pose proof (generateNewsletter_trace engine ai a o t0) as Ht2;
      rewrite Hbuilt in Ht2;
      destruct (generateNewsletter engine ai a o t0) as [[e | html] trace2]
  end; simpl in *; subst trace2.
  - rewrite <- app_assoc. reflexivity.
  - destruct (shouldGenerateImage f); simpl.
    + match goal with
      | |- context [generateHeaderImage ai ?p ?t0] =>
          pose proof (generateHeaderImage_trace ai p t0) as Ht3;
          destruct (generateHeaderImage ai p t0) as [[e | bytes] trace3]
      end; simpl in *; subst trace3; rewrite <- !app_assoc; reflexivity.
    + rewrite <- app_assoc. reflexivity.
Qed.

Lemma generation_requests_witness :
  snd (run (handleGenerateNewsletter roomyEngine (cannedAI (js "[{}]") (js "AAAA")))
           (initialState sampleForm) [])
  = [GenerateContent (NewsPrompt [js "Quantum Computing"] 1) true;
     GenerateContent (NewsletterPrompt (JArray [JObject []])
                                       (newsletterOptions sampleForm)) false;
     GenerateImages (imagePromptOf sampleForm)]
  /\ snd (run (handleGenerateNewsletter roomyEngine (cannedAI (js "[]") (js "AAAA")))
              (initialState sampleForm) [])
     = [GenerateContent (NewsPrompt [js "Quantum Computing"] 1) true]
  /\ snd (run (handleGenerateNewsletter (engineWithStack 10000)
                                        (cannedAI (nestedText 100000) (js "AAAA")))
              (initialState sampleForm) [])
     = [GenerateContent (NewsPrompt [js "Quantum Computing"] 1) true].
Proof.
  split; [| split].
  - rewrite (generation_requests roomyEngine (cannedAI (js "[{}]") (js "AAAA"))
               (initialState sampleForm) []); [| discriminate].
    vm_compute. reflexivity.
  - rewrite (generation_requests roomyEngine (cannedAI (js "[]") (js "AAAA"))
               (initialState sampleForm) []); [| discriminate].
    vm_compute. reflexivity.
  - rewrite (generation_requests (engineWithStack 10000)
               (cannedAI (nestedText 100000) (js "AAAA"))
               (initialState sampleForm) []); [| discriminate].
    cbv zeta. cbn [form initialState topics minArticles sampleForm].
    rewrite (fetchTrendingNews_nested 99998).
    rewrite stringify_nested by (apply Nat.leb_le; vm_compute; reflexivity).
    reflexivity.
Defined.

(** A generation whose news and draft requests succeed: the articles and the
    draft are stored and the refinement panel is shown.  With the image
    option off there is no header image and no error; with it on, the header
    image is the data URI of the bytes received, or, when the image request
    fails, there is none and the error is the one of the image request,
    while the draft stays. *)
Theorem generation_outcome
        (engine : Engine) (ai : AI) (s : State) (trace : list Request)
        (fetched : JSON) (html : jsstring) :
  let f := form s in
  let trace1 := trace ++ [GenerateContent (NewsPrompt (topics f) (minArticles f)) true] in
  let trace2 := trace1 ++ [GenerateContent
                             (NewsletterPrompt fetched (newsletterOptions f)) false] in
  let s' := fst (run (handleGenerateNewsletter engine ai) s trace) in
  topics f <> [] ->
  fst (fetchTrendingNews ai (topics f) (minArticles f) trace) = inr fetched ->
  fst (generateNewsletter engine ai fetched (newsletterOptions f) trace1) = inr html ->
  articles s' = fetched
  /\ newsletterHtml s' = Some html
  /\ refineRendered s' = true
  /\ isLoading s' = false
  /\ if shouldGenerateImage f
     then match fst (generateHeaderImage ai (imagePromptOf f) trace2) with
          | inr bytes => headerImageUrl s' = Some (dataUri bytes) /\ error s' = None
          | inl _ => headerImageUrl s' = None /\ error s' = Some msgImageFailed
          end
     else headerImageUrl s' = None /\ error s' = None.
Proof.
  intros f trace1 trace2 s' Hts Hfetch Hdraft.
  pose proof (draft_never_empty engine ai fetched (newsletterOptions f) trace1 html Hdraft)
    as Hne.
  subst s' trace2 trace1. revert Hfetch Hdraft. unfold_handler. fold f.
  destruct (topics f) as [| t ts] eqn:Et; [contradiction |]. simpl.
  pose proof (fetchTrendingNews_returns_nonempty ai (t :: ts) (minArticles f) trace)
    as Hnonempty.
  pose proof (fetchTrendingNews_trace ai (t :: ts) (minArticles f) trace) as Ht1.
  destruct (fetchTrendingNews ai (t :: ts) (minArticles f) trace)
    as [[e | fetched'] trace1]; simpl in *; subst trace1; [discriminate |].
  intros Hfetch; inversion Hfetch; subst fetched'. clear Hfetch.
  rewrite (Hnonempty fetched eq_refl); simpl.
  intros Hdraft.
  pose proof (generateNewsletter_returned engine ai fetched (newsletterOptions f)
                (trace ++ [GenerateContent (NewsPrompt (t :: ts) (minArticles f)) true])
                html Hdraft) as [_ Ht2].
  revert Hdraft.
  destruct (generateNewsletter engine ai fetched (newsletterOptions f)
              (trace ++ [GenerateContent (NewsPrompt (t :: ts) (minArticles f)) true]))
    as [[e | html'] trace2]; simpl in *; subst trace2; [discriminate |].
  intros Hdraft; inversion Hdraft; subst html'. clear Hdraft.
  assert (Hshown : forall st, newsletterHtml st = Some html -> refineRendered st = true).
  { intros st H. unfold refineRendered. rewrite H.
    destruct html; [contradiction | reflexivity]. }
  destruct (shouldGenerateImage f); simpl.
  - pose proof (generateHeaderImage_error ai (imagePromptOf f)
                  ((trace ++ [GenerateContent (NewsPrompt (t :: ts) (minArticles f)) true])
                     ++ [GenerateContent
                           (NewsletterPrompt fetched (newsletterOptions f)) false]))
      as Herr.
    destruct (generateHeaderImage ai (imagePromptOf f)
                ((trace ++ [GenerateContent (NewsPrompt (t :: ts) (minArticles f)) true])
                   ++ [GenerateContent
                         (NewsletterPrompt fetched (newsletterOptions f)) false]))
      as [[e | bytes] trace3]; simpl in *.
    + rewrite (Herr e eq_refl). repeat split; auto.
    + repeat split; auto.
  - repeat split; auto.
Qed.

Lemma generation_outcome_witness :
  newsletterHtml (fst (run (handleGenerateNewsletter roomyEngine (cannedAI (js "[{}]") (js "AAAA")))
                           (initialState sampleForm) []))
  = Some (js "[{}]")
  /\ headerImageUrl (fst (run (handleGenerateNewsletter roomyEngine (cannedAI (js "[{}]") (js "AAAA")))
                              (initialState sampleForm) []))
     = Some (js "data:image/png;base64,AAAA")
  /\ newsletterHtml (fst (run (handleGenerateNewsletter roomyEngine
                                 (scriptedAI [js "[{}]"; js "<h1>Draft</h1>"]))
                              (initialState sampleForm) []))
     = Some (js "<h1>Draft</h1>")
  /\ error (fst (run (handleGenerateNewsletter roomyEngine
                        (scriptedAI [js "[{}]"; js "<h1>Draft</h1>"]))
                     (initialState sampleForm) []))
     = Some msgImageFailed.
Proof.
  destruct (generation_outcome roomyEngine (cannedAI (js "[{}]") (js "AAAA"))
              (initialState sampleForm) [] (JArray [JObject []]) (js "[{}]"))
    as (_ & H1 & _ & _ & H2 & _);
    [discriminate | vm_compute; reflexivity | vm_compute; reflexivity |].
  destruct (generation_outcome roomyEngine (scriptedAI [js "[{}]"; js "<h1>Draft</h1>"])
              (initialState sampleForm) [] (JArray [JObject []]) (js "<h1>Draft</h1>"))
    as (_ & H3 & _ & _ & _ & H4);
    [discriminate | vm_compute; reflexivity | vm_compute; reflexivity |].
  split; [exact H1 | split; [exact H2 | split; [exact H3 | exact H4]]].
Defined.

(** The error that a generation leaves once it is past the topic check. *)
Lemma started_generation_errors
      (engine : Engine) (ai : AI) (s : State) (trace : list Request) :
  let s' := fst (run (handleGenerateNewsletter engine ai) s trace) in
  topics (form s) <> [] ->
  In (error s')
     [None; Some msgFetchFailed; Some msgParseFailed;
      Some msgNewsletterFailed; Some msgImageFailed]
  \/ exists fetched e,
       fst (fetchTrendingNews ai (topics (form s)) (minArticles (form s)) trace)
       = inr fetched
       /\ stringifyThrows engine fetched = Some e
       /\ error s' = Some (errorMessage e).
Proof.
  intros s' Hts. subst s'. unfold_handler.
  destruct (topics (form s)) as [| t ts] eqn:Et; simpl; [contradiction |].
  pose proof (fetchTrendingNews_returns_nonempty ai (t :: ts) (minArticles (form s))
                trace) as Hnonempty.
  pose proof (fetchTrendingNews_error ai (t :: ts) (minArticles (form s)) trace)
    as Herr1.
  destruct (fetchTrendingNews ai (t :: ts) (minArticles (form s)) trace)
    as [[e | fetched] trace1]; simpl in *.
  { left. destruct (Herr1 e eq_refl) as [-> | ->]; simpl; auto 7. }
  rewrite (Hnonempty fetched eq_refl); simpl.
  pose proof (generateNewsletter_error engine ai fetched (newsletterOptions (form s))
                trace1) as Herr2.
  destruct (generateNewsletter engine ai fetched (newsletterOptions (form s)) trace1)
    as [[e | html] trace2]; simpl in *.
  { destruct (Herr2 e eq_refl) as [-> | He]; [left; simpl; auto 7 |].
    right. exists fetched, e. auto. }
  left.
  destruct (shouldGenerateImage (form s)); simpl; [| auto].
  pose proof (generateHeaderImage_error ai (imagePromptOf (form s)) trace2) as Herr3.
  destruct (generateHeaderImage ai (imagePromptOf (form s)) trace2)
    as [[e | bytes] trace3]; simpl in *; [| auto].
  rewrite (Herr3 e eq_refl). simpl. auto 7.
Qed.

(** The error that a generation leaves is none, the validation message, one
    of four messages of the service functions, or the message of what
    [JSON.stringify] threw on the fetched articles.  The [throw] of the
    handler for an empty result contributes no case. *)
Theorem generation_error_messages
        (engine : Engine) (ai : AI) (s : State) (trace : list Request) :
  let s' := fst (run (handleGenerateNewsletter engine ai) s trace) in
  In (error s')
     [None; Some msgNoTopic; Some msgFetchFailed; Some msgParseFailed;
      Some msgNewsletterFailed; Some msgImageFailed]
  \/ exists fetched e,
       fst (fetchTrendingNews ai (topics (form s)) (minArticles (form s)) trace)
       = inr fetched
       /\ stringifyThrows engine fetched = Some e
       /\ error s' = Some (errorMessage e).
Proof.
  intros s'. subst s'.
  destruct (topics (form s)) as [| t ts] eqn:Et.
  - left. unfold_handler. rewrite Et. simpl. auto.
  - destruct (started_generation_errors engine ai s trace) as [Hin | Hthrown].
    + rewrite Et. discriminate.
    + left. simpl in Hin |- *. intuition.
    + right. rewrite Et in Hthrown. exact Hthrown.
Qed.

(** Articles for which the prompt cannot be built: the cycle stops after the
    news request, the articles stay stored, there is no document and no
    image, and the error shown is the message of what [JSON.stringify]
    threw. *)
Theorem unbuilt_draft_prompt
        (engine : Engine) (ai : AI) (s : State) (trace : list Request)
        (fetched : JSON) (e : exn) :
  let f := form s in
  let s' := fst (run (handleGenerateNewsletter engine ai) s trace) in
  topics f <> [] ->
  fst (fetchTrendingNews ai (topics f) (minArticles f) trace) = inr fetched ->
  stringifyThrows engine fetched = Some e ->
  snd (run (handleGenerateNewsletter engine ai) s trace)
  = trace ++ [GenerateContent (NewsPrompt (topics f) (minArticles f)) true]
  /\ error s' = Some (errorMessage e)
  /\ articles s' = fetched
  /\ newsletterHtml s' = None
  /\ headerImageUrl s' = None
  /\ loadingAction s' = None.
Proof.
  intros f s' Hts Hfetch Hthrows. subst s'. revert Hfetch. unfold_handler. fold f.
  destruct (topics f) as [| t ts] eqn:Et; [contradiction |]. simpl.
  pose proof (fetchTrendingNews_returns_nonempty ai (t :: ts) (minArticles f) trace)
    as Hnonempty.
  pose proof (fetchTrendingNews_trace ai (t :: ts) (minArticles f) trace) as Ht1.
  destruct (fetchTrendingNews ai (t :: ts) (minArticles f) trace)
    as [[e0 | fetched'] trace1]; simpl in *; subst trace1; [discriminate |].
  intros Hfetch; inversion Hfetch; subst fetched'. clear Hfetch.
  rewrite (Hnonempty fetched eq_refl); simpl.
  rewrite (generateNewsletter_unbuilt engine ai fetched (newsletterOptions f) _ e
             Hthrows).
  simpl. repeat split; reflexivity.
Qed.

Lemma unbuilt_draft_prompt_witness :
  snd (run (handleGenerateNewsletter (engineWithStack 10000)
                                     (cannedAI (nestedText 100000) (js "AAAA")))
           sampleDocument [])
  = [GenerateContent (NewsPrompt [js "Quantum Computing"] 1) true]
  /\ error (fst (run (handleGenerateNewsletter (engineWithStack 10000)
                                               (cannedAI (nestedText 100000) (js "AAAA")))
                     sampleDocument []))
     = Some (js "Maximum call stack size exceeded")
  /\ articles (fst (run (handleGenerateNewsletter
                           (engineWithStack 10000)
                           (cannedAI (nestedText 100000) (js "AAAA")))
                        sampleDocument []))
     = nestedArray 99999
  /\ newsletterHtml (fst (run (handleGenerateNewsletter
                                 (engineWithStack 10000)
                                 (cannedAI (nestedText 100000) (js "AAAA")))
                              sampleDocument []))
     = None.
Proof.
  destruct (unbuilt_draft_prompt (engineWithStack 10000)
              (cannedAI (nestedText 100000) (js "AAAA")) sampleDocument []
              (nestedArray 99999)
              (RangeError (js "Maximum call stack size exceeded")))
    as (Hrequests & Herror & Harticles & Hhtml & _).
  - discriminate.
  - apply (fetchTrendingNews_nested 99998).
  - apply stringify_nested. apply Nat.leb_le. vm_compute. reflexivity.
  - split; [exact Hrequests |]. split; [exact Herror |].
    split; [exact Harticles | exact Hhtml].
Defined.

Lemma trimStart_nil (s : jsstring) : trimStart s = [] -> whiteSpace s.
Proof.
  unfold whiteSpace.
  induction s as [| c s IH]; simpl; intros H; [constructor |].
  destruct (isWhiteSpace c) eqn:Hc; [| discriminate].
  constructor; [exact Hc | exact (IH H)].
Qed.

(** [trim] leaves nothing exactly of a text of white space only. *)
Lemma trim_nil_iff (s : jsstring) : trim s = [] <-> whiteSpace s.
Proof.
  split; [| apply trim_whiteSpace].
  unfold trim. intros H. apply trimStart_nil.
  destruct (trimStart_head s) as [H0 | (c & r & H0 & Hc)]; [exact H0 |].
  rewrite H0, (trimEnd_cons c r Hc) in H. discriminate.
Qed.


(** ** Refinement, continued *)

(** Without a directive or without a document, [handleRefineNewsletter]
    issues no request and changes nothing; the directive input is not
    cleared either. *)
Theorem refine_guard (engine : Engine) (ai : AI) (s : State) (trace : list Request) :
  whiteSpace (refinementPrompt s)
  \/ newsletterHtml s = None \/ newsletterHtml s = Some [] ->
  run (handleRefineNewsletter engine ai) s trace = (s, trace).
Proof.
  intros [H | H]; apply refine_without_input; [| auto].
  left. apply trim_whiteSpace. exact H.
Qed.

Lemma refine_guard_witness :
  run (handleRefineNewsletter roomyEngine offlineAI)
      (setRefinementPrompt (js "   ") sampleDocument) []
  = (setRefinementPrompt (js "   ") sampleDocument, [])
  /\ run (handleRefineNewsletter roomyEngine offlineAI)
         (setRefinementPrompt (js "shorter") (initialState sampleForm)) []
     = (setRefinementPrompt (js "shorter") (initialState sampleForm), []).
Proof.
  split.
  - apply (refine_guard roomyEngine offlineAI (setRefinementPrompt (js "   ") sampleDocument) []).
    left. unfold whiteSpace. repeat constructor.
  - apply (refine_guard roomyEngine offlineAI
             (setRefinementPrompt (js "shorter") (initialState sampleForm)) []).
    right. left. reflexivity.
Defined.

(** The requests of a refinement: none when the prompt cannot be built;
    otherwise the refinement request, and after it the image request exactly
    when the answer is object-shaped and parses to an image directive.  An
    answer that is taken as the new document never leads to an image
    request. *)
Theorem refinement_requests
        (engine : Engine) (ai : AI) (s : State) (trace : list Request)
        (c : N) (html : jsstring) :
  let ask := GenerateContent
               (RefinementPrompt (c :: html) (articles s) (refinementPrompt s)) false in
  ~ whiteSpace (refinementPrompt s) ->
  newsletterHtml s = Some (c :: html) ->
  snd (run (handleRefineNewsletter engine ai) s trace)
  = trace
    ++ match stringifyThrows engine (articles s) with
       | Some _ => []
       | None =>
           ask
           :: match fst (refineNewsletter engine ai (c :: html) (articles s)
                                          (refinementPrompt s) trace) with
              | inl _ => []
              | inr result =>
                  if isJsonLike result then
                    match parseJson result with
                    | inl _ => []
                    | inr jsonResponse =>
                        match imageDirective jsonResponse with
                        | inr (Some prompt) =>
                            [GenerateImages (DirectiveImagePrompt prompt)]
                        | _ => []
                        end
                    end
                  else []
              end
       end.
Proof.
  intros ask Hprompt Hhtml. subst ask.
  rewrite <- trim_nil_iff in Hprompt.
  unfold_handler.
  destruct (trim (refinementPrompt s)) as [| p ps]; [contradiction |].
  rewrite Hhtml; simpl.
  destruct (stringifyThrows engine (articles s)) as [e |] eqn:Hbuilt.
  { rewrite (refineNewsletter_unbuilt engine ai (c :: html) (articles s)
               (refinementPrompt s) trace e Hbuilt).
    simpl. rewrite app_nil_r. reflexivity. }
  pose proof (refineNewsletter_trace engine ai (c :: html) (articles s)
                (refinementPrompt s) trace) as Ht.
  rewrite Hbuilt in Ht.
  destruct (refineNewsletter engine ai (c :: html) (articles s) (refinementPrompt s) trace)
    as [[e | result] trace1]; simpl in *; subst trace1; [reflexivity |].
  destruct (isJsonLike result); simpl; [| reflexivity].
  destruct (parseJson result) as [e | v]; simpl; [reflexivity |].
  destruct (imageDirective v) as [e | [prompt |]]; simpl; try reflexivity.
  match goal with
  | |- context [generateHeaderImage ai ?p ?t0] =>
      pose proof (generateHeaderImage_trace ai p t0) as Ht3;
      destruct (generateHeaderImage ai p t0) as [[e | bytes] trace3]
  end; simpl in *; subst trace3; rewrite <- app_assoc; reflexivity.
Qed.

Lemma refinement_requests_witness :
  snd (run (handleRefineNewsletter roomyEngine (cannedAI (js "<h1>New</h1>") (js "BBBB")))
           sampleDocument [])
  = [GenerateContent
       (RefinementPrompt (js "<h1>Title</h1><p>Body</p>") (articles sampleDocument)
                         (js "make the intro more exciting")) false]
  /\ snd (run (handleRefineNewsletter roomyEngine (cannedAI sampleDirective (js "BBBB")))
              sampleDocument [])
     = [GenerateContent
          (RefinementPrompt (js "<h1>Title</h1><p>Body</p>") (articles sampleDocument)
                            (js "make the intro more exciting")) false;
        GenerateImages (DirectiveImagePrompt (JString (js "mountains at dawn")))]
  /\ snd (run (handleRefineNewsletter (engineWithStack 10000)
                                      (cannedAI (js "<h1>New</h1>") (js "BBBB")))
              (setArticles (nestedArray 99999) sampleDocument) [])
     = [].
Proof.
  split; [| split].
  - rewrite (refinement_requests roomyEngine (cannedAI (js "<h1>New</h1>") (js "BBBB"))
               sampleDocument [] 60%N (js "h1>Title</h1><p>Body</p>")).
    + vm_compute. reflexivity.
    + vm_compute. intros H. inversion H. discriminate.
    + reflexivity.
  - rewrite (refinement_requests roomyEngine (cannedAI sampleDirective (js "BBBB"))
               sampleDocument [] 60%N (js "h1>Title</h1><p>Body</p>")).
    + vm_compute. reflexivity.
    + vm_compute. intros H. inversion H. discriminate.
    + reflexivity.
  - rewrite (refinement_requests (engineWithStack 10000)
               (cannedAI (js "<h1>New</h1>") (js "BBBB"))
               (setArticles (nestedArray 99999) sampleDocument) []
               60%N (js "h1>Title</h1><p>Body</p>")).
    + cbn [articles setArticles].
      rewrite stringify_nested by (apply Nat.leb_le; vm_compute; reflexivity).
      reflexivity.
    + vm_compute. intros H. inversion H. discriminate.
    + reflexivity.
Defined.

(** The error that a refinement leaves: none, the message of the
    refinement request, the message about the format of the answer, or the
    message of what [JSON.stringify] threw on the articles.  A failed image
    request contributes no case of its own: its message is replaced by the
    one about the format. *)
Theorem refinement_error_messages
        (engine : Engine) (ai : AI) (s : State) (trace : list Request) :
  let s' := fst (run (handleRefineNewsletter engine ai) s trace) in
  run (handleRefineNewsletter engine ai) s trace = (s, trace)
  \/ In (error s') [None; Some msgRefinementFailed; Some msgNotExpectedFormat]
  \/ exists e, stringifyThrows engine (articles s) = Some e
               /\ error s' = Some (errorMessage e).
Proof.
  intros s'. subst s'. unfold_handler.
  destruct (trim (refinementPrompt s)) as [| p ps]; [left; reflexivity |].
  destruct (newsletterHtml s) as [[| c html] |]; try (left; reflexivity).
  right. simpl.
  pose proof (refineNewsletter_error engine ai (c :: html) (articles s)
                (refinementPrompt s) trace) as Herr.
  destruct (refineNewsletter engine ai (c :: html) (articles s) (refinementPrompt s) trace)
    as [[e | result] trace1]; simpl in *.
  { destruct (Herr e eq_refl) as [-> | He]; [left; simpl; auto |].
    right. exists e. auto. }
  left.
  destruct (isJsonLike result); simpl; [| auto].
  destruct (parseJson result) as [e | v]; simpl; [auto |].
  destruct (imageDirective v) as [e | [prompt |]]; simpl; auto.
  destruct (generateHeaderImage ai (DirectiveImagePrompt prompt) trace1)
    as [[e | bytes] trace2]; simpl; auto.
Qed.

(** An image directive whose image request fails: the header image is the
    previous one, and the error shown is the one about the format of the
    answer, not the one of the image request. *)
Theorem refinement_image_failure
        (engine : Engine) (ai : AI) (s : State) (trace : list Request) (c : N)
        (html result : jsstring) (jsonResponse prompt : JSON) (e : exn) :
  let trace1 := trace ++ [GenerateContent
                            (RefinementPrompt (c :: html) (articles s)
                                              (refinementPrompt s)) false] in
  let s' := fst (run (handleRefineNewsletter engine ai) s trace) in
  ~ whiteSpace (refinementPrompt s) ->
  newsletterHtml s = Some (c :: html) ->
  fst (refineNewsletter engine ai (c :: html) (articles s) (refinementPrompt s) trace)
  = inr result ->
  isJsonLike result = true ->
  JSON_parse result = Some jsonResponse ->
  imageDirective jsonResponse = inr (Some prompt) ->
  fst (generateHeaderImage ai (DirectiveImagePrompt prompt) trace1) = inl e ->
  error s' = Some msgNotExpectedFormat
  /\ headerImageUrl s' = headerImageUrl s
  /\ newsletterHtml s' = newsletterHtml s.
Proof.
  intros trace1 s' Hprompt Hhtml Hresult Hlike Hparse Hdir Himg.
  rewrite <- trim_nil_iff in Hprompt.
  subst s'. revert Hresult Himg. unfold_handler.
  destruct (trim (refinementPrompt s)) as [| p ps]; [contradiction |].
  rewrite Hhtml; simpl.
  intros Hresult.
  pose proof (refineNewsletter_returned engine ai (c :: html) (articles s)
                (refinementPrompt s) trace result Hresult) as [_ Ht].
  revert Hresult.
  destruct (refineNewsletter engine ai (c :: html) (articles s) (refinementPrompt s) trace)
    as [[e0 | result'] trace1']; simpl in *; subst trace1'; [discriminate |].
  intros Hresult; inversion Hresult; subst result'. fold trace1.
  rewrite Hlike. unfold parseJson. rewrite Hparse. simpl. rewrite Hdir. simpl.
  destruct (generateHeaderImage ai (DirectiveImagePrompt prompt) trace1)
    as [[e1 | bytes] trace2]; simpl; [| discriminate].
  intros _. rewrite Hhtml. repeat split; reflexivity.
Qed.

Lemma refinement_image_failure_witness :
  error (fst (run (handleRefineNewsletter roomyEngine (scriptedAI [sampleDirective]))
                  sampleDocument []))
  = Some msgNotExpectedFormat
  /\ headerImageUrl (fst (run (handleRefineNewsletter roomyEngine (scriptedAI [sampleDirective]))
                              sampleDocument []))
     = Some (js "data:image/png;base64,AAAA")
  /\ newsletterHtml (fst (run (handleRefineNewsletter roomyEngine (scriptedAI [sampleDirective]))
                              sampleDocument []))
     = Some (js "<h1>Title</h1><p>Body</p>").
Proof.
  apply (refinement_image_failure roomyEngine (scriptedAI [sampleDirective]) sampleDocument []
           60%N (js "h1>Title</h1><p>Body</p>") sampleDirective
           (JObject [(js "requestType", JString (js "image"));
                     (js "newImagePrompt", JString (js "mountains at dawn"))])
           (JString (js "mountains at dawn")) (Error msgImageFailed)).
  - vm_compute. intros H. inversion H. discriminate.
  - reflexivity.
  - vm_compute. reflexivity.
  - vm_compute. reflexivity.
  - vm_compute. reflexivity.
  - vm_compute. reflexivity.
  - vm_compute. reflexivity.
Defined.

(** An object-shaped answer is never taken as the document: whatever
    becomes of it, the document body is the previous one. *)
Theorem object_shaped_answer_keeps_body
        (engine : Engine) (ai : AI) (s : State) (trace : list Request) (c : N)
        (html result : jsstring) :
  ~ whiteSpace (refinementPrompt s) ->
  newsletterHtml s = Some (c :: html) ->
  fst (refineNewsletter engine ai (c :: html) (articles s) (refinementPrompt s) trace)
  = inr result ->
  isJsonLike result = true ->
  newsletterHtml (fst (run (handleRefineNewsletter engine ai) s trace)) = newsletterHtml s.
Proof.
  intros Hprompt Hhtml Hresult Hlike.
  rewrite <- trim_nil_iff in Hprompt.
  revert Hresult. unfold_handler.
  destruct (trim (refinementPrompt s)) as [| p ps]; [contradiction |].
  rewrite Hhtml; simpl.
  destruct (refineNewsletter engine ai (c :: html) (articles s) (refinementPrompt s) trace)
    as [[e0 | result'] trace1]; simpl; [discriminate |].
  intros Hresult; inversion Hresult; subst result'.
  rewrite Hlike. simpl.
  repeat break_match; simpl; rewrite ?Hhtml; reflexivity.
Qed.

Lemma object_shaped_answer_keeps_body_witness :
  newsletterHtml (fst (run (handleRefineNewsletter roomyEngine (cannedAI (js "{<p>New</p>}") (js "BBBB")))
                           sampleDocument []))
  = Some (js "<h1>Title</h1><p>Body</p>").
Proof.
  apply (object_shaped_answer_keeps_body roomyEngine (cannedAI (js "{<p>New</p>}") (js "BBBB"))
           sampleDocument [] 60%N (js "h1>Title</h1><p>Body</p>") (js "{<p>New</p>}")).
  - vm_compute. intros H. inversion H. discriminate.
  - reflexivity.
  - vm_compute. reflexivity.
  - vm_compute. reflexivity.
Defined.

Lemma endsWith_last (s : jsstring) (d : N) : endsWith (s ++ [d]) [d] = true.
Proof.
  unfold endsWith. rewrite rev_app_distr. simpl. rewrite N.eqb_refl. reflexivity.
Qed.

(** An image directive inside a fence tagged [json], when the prompt can be
    built, no fence begins before that fence and the text of the directive
    has no backtick in it: [refineNewsletter] takes the directive out of the
    fence, the handler recognises it, and the image request for its prompt
    follows the refinement request. *)
Theorem fenced_directive_followed
        (engine : Engine) (ai : AI) (s : State) (trace : list Request)
        (c : N) (html : jsstring)
        (pre ws1 inner ws2 post : jsstring) (jsonResponse prompt : JSON) :
  let body := lbrace :: inner ++ [rbrace] in
  let ask := GenerateContent
               (RefinementPrompt (c :: html) (articles s) (refinementPrompt s)) false in
  ~ whiteSpace (refinementPrompt s) ->
  newsletterHtml s = Some (c :: html) ->
  stringifyThrows engine (articles s) = None ->
  generateContent ai trace
                  (RefinementPrompt (c :: html) (articles s) (refinementPrompt s)) false
  = inr (Some (pre ++ fence ++ js "json" ++ ws1 ++ body ++ ws2 ++ fence ++ post)) ->
  noFenceBefore pre -> whiteSpace ws1 -> whiteSpace ws2 ->
  ~ In backtick inner ->
  JSON_parse body = Some jsonResponse ->
  imageDirective jsonResponse = inr (Some prompt) ->
  fst (refineNewsletter engine ai (c :: html) (articles s) (refinementPrompt s) trace)
  = inr body
  /\ snd (run (handleRefineNewsletter engine ai) s trace)
     = trace ++ [ask; GenerateImages (DirectiveImagePrompt prompt)]
  /\ newsletterHtml (fst (run (handleRefineNewsletter engine ai) s trace))
     = newsletterHtml s.
Proof.
  intros body ask Hprompt Hhtml Hbuilt Hreply Hpre Hws1 Hws2 Hinner Hparse Hdir.
  assert (Htrimmed : trim body = body).
  { apply (trim_fixed lbrace rbrace inner); reflexivity. }
  assert (Hbody : fencedBody body).
  { split; [discriminate |]. split; [exact Htrimmed |].
    subst body. intros [Hin | Hin]; [discriminate |].
    apply in_app_or in Hin. destruct Hin as [Hin | [Hin | []]];
      [contradiction | discriminate]. }
  assert (Hresult :
    fst (refineNewsletter engine ai (c :: html) (articles s) (refinementPrompt s) trace)
    = inr body).
  { rewrite (refineNewsletter_text engine ai _ _ _ trace _ Hbuilt Hreply).
    rewrite fenced_text_trim, fenced_text_not_empty.
    rewrite refineFence_block; auto using noFenceBefore_trimStart.
    simpl matchedGroup. cbv iota. fold body. rewrite Htrimmed. reflexivity. }
  assert (Hlike : isJsonLike body = true).
  { unfold isJsonLike. rewrite Htrimmed. subst body.
    change (lbrace :: inner ++ [rbrace]) with ((lbrace :: inner) ++ [rbrace]) at 2.
    rewrite endsWith_last. reflexivity. }
  split; [exact Hresult |].
  rewrite <- trim_nil_iff in Hprompt.
  revert Hresult. subst ask. unfold_handler.
  destruct (trim (refinementPrompt s)) as [| p ps]; [contradiction |].
  rewrite Hhtml; simpl.
  pose proof (refineNewsletter_trace engine ai (c :: html) (articles s)
                (refinementPrompt s) trace) as Ht.
  rewrite Hbuilt in Ht.
  destruct (refineNewsletter engine ai (c :: html) (articles s) (refinementPrompt s) trace)
    as [[e0 | result'] trace1]; simpl in *; subst trace1; [discriminate |].
  intros Hresult; inversion Hresult; subst result'.
  fold body. rewrite Hlike. unfold parseJson. fold body. rewrite Hparse. simpl.
  rewrite Hdir. simpl.
  match goal with
  | |- context [generateHeaderImage ai ?p ?t0] =>
      pose proof (generateHeaderImage_trace ai p t0) as Ht3;
      destruct (generateHeaderImage ai p t0) as [[e | bytes] trace3]
  end; simpl in *; subst trace3; rewrite <- app_assoc, ?Hhtml; split; reflexivity.
Qed.

Lemma fenced_directive_followed_witness :
  fst (refineNewsletter roomyEngine (cannedAI sampleFencedDirective (js "BBBB"))
                        (js "<h1>Title</h1><p>Body</p>") (articles sampleDocument)
                        (js "make the intro more exciting") [])
  = inr sampleDirective
  /\ snd (run (handleRefineNewsletter roomyEngine (cannedAI sampleFencedDirective (js "BBBB")))
              sampleDocument [])
     = [] ++ [GenerateContent
                (RefinementPrompt (js "<h1>Title</h1><p>Body</p>")
                                  (articles sampleDocument)
                                  (js "make the intro more exciting")) false;
              GenerateImages (DirectiveImagePrompt (JString (js "mountains at dawn")))]
  /\ newsletterHtml (fst (run (handleRefineNewsletter roomyEngine
                                 (cannedAI sampleFencedDirective (js "BBBB")))
                              sampleDocument []))
     = Some (js "<h1>Title</h1><p>Body</p>").
Proof.
  apply (fenced_directive_followed roomyEngine (cannedAI sampleFencedDirective (js "BBBB"))
           sampleDocument [] 60%N (js "h1>Title</h1><p>Body</p>")
           [] nl
           (dq ++ js "requestType" ++ dq ++ js ":" ++ dq ++ js "image" ++ dq
            ++ js "," ++ dq ++ js "newImagePrompt" ++ dq ++ js ":"
            ++ dq ++ js "mountains at dawn" ++ dq)
           nl []
           (JObject [(js "requestType", JString (js "image"));
                     (js "newImagePrompt", JString (js "mountains at dawn"))])
           (JString (js "mountains at dawn"))).
  - vm_compute. intros H. inversion H. discriminate.
  - reflexivity.
  - reflexivity.
  - reflexivity.
  - apply noFenceBeforeb_sound. vm_compute. reflexivity.
  - unfold whiteSpace. repeat constructor.
  - unfold whiteSpace. repeat constructor.
  - vm_compute. intuition discriminate.
  - vm_compute. reflexivity.
  - vm_compute. reflexivity.
Defined.

(** ** The buttons, continued *)

(** In the idle state the Refine button fires under the very condition that
    the guard of [handleRefineNewsletter] tests, so a click is the handler;
    the Generate button is the handler when there is a topic, and without a
    topic it is disabled, so a click does nothing. *)
Theorem idle_buttons (engine : Engine) (ai : AI) (s : State) (trace : list Request) :
  loadingAction s = None ->
  run (clickRefine engine ai) s trace = run (handleRefineNewsletter engine ai) s trace
  /\ (topics (form s) <> [] ->
      run (clickGenerate engine ai) s trace = run (handleGenerateNewsletter engine ai) s trace)
  /\ (topics (form s) = [] -> run (clickGenerate engine ai) s trace = (s, trace)).
Proof.
  intros Hidle. split; [| split].
  - unfold run, clickRefine, bind, getState; cbn [fst snd].
    unfold refineRendered, refineDisabled, isLoading. rewrite Hidle.
    cbn [orb].
    destruct (newsletterHtml s) as [[| c html] |] eqn:Hhtml; cbn [negb orb].
    + symmetry. apply (refine_without_input engine ai s trace). auto.
    + destruct (isEmpty (trim (refinementPrompt s))) eqn:He; [| reflexivity].
      symmetry. apply (refine_without_input engine ai s trace).
      left. apply isEmpty_nil. exact He.
    + symmetry. apply (refine_without_input engine ai s trace). auto.
  - intros Hts.
    unfold run, clickGenerate, bind, getState; cbn [fst snd].
    unfold generateDisabled, isLoading. rewrite Hidle. cbn [orb].
    destruct (topics (form s)); [contradiction | reflexivity].
  - intros Hts.
    unfold run, clickGenerate, bind, getState; cbn [fst snd].
    unfold generateDisabled, isLoading. rewrite Hidle, Hts. reflexivity.
Qed.

Lemma idle_buttons_witness :
  run (clickRefine roomyEngine offlineAI) sampleDocument []
  = run (handleRefineNewsletter roomyEngine offlineAI) sampleDocument []
  /\ run (clickGenerate roomyEngine offlineAI) sampleDocument []
     = run (handleGenerateNewsletter roomyEngine offlineAI) sampleDocument []
  /\ run (clickGenerate roomyEngine offlineAI) (initialState sampleFormNoTopic) []
     = (initialState sampleFormNoTopic, []).
Proof.
  destruct (idle_buttons roomyEngine offlineAI sampleDocument [] eq_refl) as (H1 & H2 & _).
  destruct (idle_buttons roomyEngine offlineAI (initialState sampleFormNoTopic) [] eq_refl)
    as (_ & _ & H3).
  split; [exact H1 | split; [apply H2; discriminate | apply H3; reflexivity]].
Defined.

(** After a click on the Generate button the error is the one before (the
    button was disabled), none, one of four messages of the service
    functions, or the message of what [JSON.stringify] threw on the fetched
    articles.  The validation branch of [handleGenerateNewsletter]
    contributes no case: without a topic the button is disabled. *)
Theorem click_generate_error_messages
        (engine : Engine) (ai : AI) (s : State) (trace : list Request) :
  let s' := fst (run (clickGenerate engine ai) s trace) in
  error s' = error s
  \/ In (error s')
        [None; Some msgFetchFailed; Some msgParseFailed;
         Some msgNewsletterFailed; Some msgImageFailed]
  \/ exists fetched e,
       fst (fetchTrendingNews ai (topics (form s)) (minArticles (form s)) trace)
       = inr fetched
       /\ stringifyThrows engine fetched = Some e
       /\ error s' = Some (errorMessage e).
Proof.
  intros s'. subst s'.
  unfold run, clickGenerate, bind, getState; cbn [fst snd].
  destruct (generateDisabled s) eqn:Hdis; [left; reflexivity |].
  right. unfold generateDisabled in Hdis. apply orb_false_elim in Hdis.
  destruct Hdis as [_ Hts].
  apply (started_generation_errors engine ai s trace).
  destruct (topics (form s)); [discriminate Hts | discriminate].
Qed.
